(** * Squad Bot: the orchestration engine, embedded and verified

    The development follows the Python sources:
    - [Module Squad] embeds [src/models.py], [src/database.py] and
      [src/orchestrator.py] (one squad per database);
    - [Module SquadServer] embeds the parts of [src/squad-server/] that scope
      the same engine by a squad id;
    - [Module FileNames] embeds the checks of [src/squad-server/models.py] on
      the names and paths of shared files.

    Conventions of the embedding.
    - A SQLite table is the list of its rows in rowid order; [INSERT] appends,
      [INSERT OR REPLACE] deletes the rows that conflict on a key and appends,
      a plain [INSERT] on an existing primary key raises [IntegrityError].
    - [uuid.uuid4()] and [datetime.now()] read the environment.  The world
      carries the values the environment is going to deliver ([uuid4s],
      [nows]); each call consumes the head.  Nothing is assumed about them in
      the definitions: a collision of identifiers shows up as what the
      database does with it.
    - Every Python function that touches [self.db] or broadcasts is a
      computation in the monad [M]: a world goes in, a result or a raised
      exception comes out together with the world reached. *)

From Stdlib Require Import List String Ascii ZArith Lia Bool Arith DecimalString Sorted FinFun.
From Stdlib Require Import Permutation OrderedTypeEx.
Import ListNotations.

Set Implicit Arguments.

(** ** Exceptions and state *)

Inductive Fault : Type :=
| IntegrityError   (* sqlite3.IntegrityError: a key constraint failed *)
| OverflowError    (* Python int too large to convert to SQLite INTEGER *)
| AttributeError.  (* an attribute read on None *)

Inductive Outcome (A : Type) : Type :=
| Ret (a : A)
| Raise (e : Fault).

Arguments Raise {A} e.

Definition M (W A : Type) : Type := W -> Outcome A * W.

Definition ret {W A : Type} (a : A) : M W A := fun w => (Ret a, w).

Definition raise {W A : Type} (e : Fault) : M W A := fun w => (Raise e, w).

Definition bind {W A B : Type} (m : M W A) (k : A -> M W B) : M W B :=
  fun w =>
    match m w with
    | (Ret a, w') => k a w'
    | (Raise e, w') => (Raise e, w')
    end.

Definition gets {W A : Type} (f : W -> A) : M W A := fun w => (Ret (f w), w).

Definition modify {W : Type} (f : W -> W) : M W unit := fun w => (Ret tt, f w).

Declare Scope monad_scope.
Delimit Scope monad_scope with monad.
Notation "x <- m ;; k" := (bind m (fun x => k))
  (at level 61, m at next level, right associativity) : monad_scope.
Notation "m ;; k" := (bind m (fun _ => k))
  (at level 61, right associativity) : monad_scope.

(** ** Strings *)

Infix "^^" := String.append (at level 60, right associativity).

Definition dquote : string := String (ascii_of_nat 34) EmptyString.

(** [str(n)] for the counts the engine formats into reasons. *)
Definition str_nat (n : nat) : string := NilZero.string_of_uint (Nat.to_uint n).

(** [str(z)] for a stored version. *)
Definition str_Z (z : Z) : string := NilZero.string_of_int (Z.to_int z).

(** [s[:8]] *)
Definition first8 (s : string) : string := substring 0 8 s.

(** [", ".join(xs)] *)
Fixpoint join_comma (xs : list string) : string :=
  match xs with
  | [] => EmptyString
  | [x] => x
  | x :: rest => String.append x (String.append ", " (join_comma rest))
  end.

(** The largest value a SQLite INTEGER column holds. *)
Definition sqlite_max_int : Z := 9223372036854775807%Z.

(** [len([x for x in xs if p x])], [sum(1 for x in xs if p x)] *)
Definition count {A : Type} (p : A -> bool) (xs : list A) : nat :=
  List.length (filter p xs).

Definition mem_string (x : string) (xs : list string) : bool :=
  existsb (String.eqb x) xs.

(** Sample deliveries of the environment, for the scenarios: identifiers
    that differ in their first eight characters, and instants. *)
Definition sample_uuid (n : nat) : string :=
  "id-" ^^ str_nat n ^^ "-0000-4000-8000-000000000000".

Definition sample_clock (n : nat) : string :=
  "2025-01-01T00:00:00." ^^ str_nat n ^^ "+00:00".

(** * The single-squad engine ([src/]) *)

Module Squad.

Open Scope string_scope.
Open Scope list_scope.

(** ** [src/models.py] *)

Record SquadMember : Type := mkSquadMember {
  m_id : string;
  m_name : string;
  m_model : string;
  m_joined_at : string;
  m_is_active : bool
}.

Record Message : Type := mkMessage {
  msg_id : string;
  sender_id : string;
  sender_name : string;
  sender_type : string;
  msg_content : string;
  timestamp : string;
  reply_to : option string
}.

Record ContextEntry : Type := mkContextEntry {
  entry_id : string;
  entry_content : string;
  committed_at : string;
  committed_by : string;
  entry_origin : string;
  entry_commit_id : string;
  version : Z
}.

Record CommitProposal : Type := mkCommitProposal {
  p_id : string;
  p_content : string;
  proposed_by : string;
  proposed_by_name : string;
  p_origin : string;
  status : string;
  created_at : string;
  resolved_at : option string;
  consensus_mode : string;
  timeout_seconds : Z
}.

Record Vote : Type := mkVote {
  vote_id : string;
  commit_id : string;
  voter_id : string;
  voter_name : string;
  choice : string;
  is_human_override : bool;
  voted_at : string
}.

(** What [_broadcast] hands to the listeners: the [to_dict()] of an object or
    a literal dictionary. *)
Inductive Payload : Type :=
| OfMember (m : SquadMember)
| OfMessage (m : Message)
| OfLeft (name id : string)
| OfProposal (p : CommitProposal)
| OfVote (v : Vote)
| OfResolved (commit_id status : string)
| OfEntry (e : ContextEntry).

Record Event : Type := mkEvent {
  ev_type : string;
  ev_data : Payload;
  ev_timestamp : string
}.

(** ** The world: the five tables the engine uses, the orchestrator's own
    attribute, what the listeners have received, and the environment *)

Record World : Type := mkWorld {
  members : list SquadMember;
  messages : list Message;
  context_entries : list ContextEntry;
  commit_proposals : list CommitProposal;
  votes : list Vote;
  self_consensus_mode : string;      (* Orchestrator.consensus_mode *)
  delivered : list Event;            (* calls made to each listener, oldest first *)
  uuid4s : nat -> string;            (* str(uuid.uuid4()), next first *)
  nows : nat -> string               (* datetime.now(timezone.utc).isoformat() *)
}.

Definition set_members (f : list SquadMember -> list SquadMember) (w : World) : World :=
  mkWorld (f (members w)) (messages w) (context_entries w) (commit_proposals w)
          (votes w) (self_consensus_mode w) (delivered w) (uuid4s w) (nows w).

Definition set_messages (f : list Message -> list Message) (w : World) : World :=
  mkWorld (members w) (f (messages w)) (context_entries w) (commit_proposals w)
          (votes w) (self_consensus_mode w) (delivered w) (uuid4s w) (nows w).

Definition set_context_entries (f : list ContextEntry -> list ContextEntry) (w : World) : World :=
  mkWorld (members w) (messages w) (f (context_entries w)) (commit_proposals w)
          (votes w) (self_consensus_mode w) (delivered w) (uuid4s w) (nows w).

Definition set_commit_proposals (f : list CommitProposal -> list CommitProposal) (w : World) : World :=
  mkWorld (members w) (messages w) (context_entries w) (f (commit_proposals w))
          (votes w) (self_consensus_mode w) (delivered w) (uuid4s w) (nows w).

Definition set_votes (f : list Vote -> list Vote) (w : World) : World :=
  mkWorld (members w) (messages w) (context_entries w) (commit_proposals w)
          (f (votes w)) (self_consensus_mode w) (delivered w) (uuid4s w) (nows w).

Definition set_delivered (f : list Event -> list Event) (w : World) : World :=
  mkWorld (members w) (messages w) (context_entries w) (commit_proposals w)
          (votes w) (self_consensus_mode w) (f (delivered w)) (uuid4s w) (nows w).

Definition Eng (A : Type) : Type := M World A.

Open Scope monad_scope.

(** ** The environment *)

Definition drop_uuid (w : World) : World :=
  mkWorld (members w) (messages w) (context_entries w) (commit_proposals w)
          (votes w) (self_consensus_mode w) (delivered w)
          (fun n => uuid4s w (S n)) (nows w).

Definition drop_now (w : World) : World :=
  mkWorld (members w) (messages w) (context_entries w) (commit_proposals w)
          (votes w) (self_consensus_mode w) (delivered w)
          (uuid4s w) (fun n => nows w (S n)).

Definition uuid4 : Eng string := fun w => (Ret (uuid4s w 0), drop_uuid w).

Definition utcnow : Eng string := fun w => (Ret (nows w 0), drop_now w).

(** The dataclass constructors: the default factories run in field order. *)

Definition new_SquadMember (name model : string) : Eng SquadMember :=
  i <- uuid4 ;;
  t <- utcnow ;;
  ret (mkSquadMember (first8 i) name model t true).

Definition new_Message (sender_id sender_name sender_type content : string)
    (reply_to : option string) : Eng Message :=
  i <- uuid4 ;;
  t <- utcnow ;;
  ret (mkMessage i sender_id sender_name sender_type content t reply_to).

Definition new_ContextEntry (content committed_by origin commit_id : string) : Eng ContextEntry :=
  i <- uuid4 ;;
  t <- utcnow ;;
  ret (mkContextEntry (first8 i) content t committed_by origin commit_id 0%Z).

Definition new_CommitProposal (content proposed_by proposed_by_name origin consensus_mode : string)
  : Eng CommitProposal :=
  i <- uuid4 ;;
  t <- utcnow ;;
  ret (mkCommitProposal (first8 i) content proposed_by proposed_by_name origin
                        "pending" t None consensus_mode 300%Z).

Definition new_Vote (commit_id voter_id voter_name choice : string) (is_human_override : bool)
  : Eng Vote :=
  i <- uuid4 ;;
  t <- utcnow ;;
  ret (mkVote (first8 i) commit_id voter_id voter_name choice is_human_override t).

(** ** [src/database.py] *)

(** *** Members *)

Definition deactivate (m : SquadMember) : SquadMember :=
  mkSquadMember (m_id m) (m_name m) (m_model m) (m_joined_at m) false.

Definition stored_member (m : SquadMember) : SquadMember :=
  mkSquadMember (m_id m) (m_name m) (m_model m) (m_joined_at m) true.

(** [INSERT OR REPLACE INTO members ... VALUES (id, name, model, joined_at, 1)] *)
Definition add_member (member : SquadMember) : Eng SquadMember :=
  modify (set_members (fun rows =>
    filter (fun r => negb (m_id r =? m_id member)) rows ++ [stored_member member])) ;;
  ret member.

(** [UPDATE members SET is_active = 0 WHERE id = ?] *)
Definition remove_member (member_id : string) : Eng unit :=
  modify (set_members (map (fun r => if m_id r =? member_id then deactivate r else r))).

Definition get_member (member_id : string) : Eng (option SquadMember) :=
  gets (fun w => find (fun r => m_id r =? member_id) (members w)).

(** [SELECT * FROM members WHERE name = ? AND is_active = 1], first row *)
Definition get_member_by_name (name : string) : Eng (option SquadMember) :=
  gets (fun w => find (fun r => (m_name r =? name) && m_is_active r) (members w)).

Definition get_active_members : Eng (list SquadMember) :=
  gets (fun w => filter m_is_active (members w)).

(** *** Messages *)

Definition add_message (message : Message) : Eng Message :=
  taken <- gets (fun w => mem_string (msg_id message) (map msg_id (messages w))) ;;
  if taken then raise IntegrityError
  else
    modify (set_messages (fun rows => rows ++ [message])) ;;
    ret message.

(** *** Context *)

(** [SELECT MAX(version)]: NULL on an empty table. *)
Fixpoint max_version (rows : list ContextEntry) : option Z :=
  match rows with
  | [] => None
  | r :: rest =>
      match max_version rest with
      | None => Some (version r)
      | Some v => Some (Z.max (version r) v)
      end
  end.

(** [row["max_v"] or 0] *)
Definition or_zero (v : option Z) : Z :=
  match v with
  | None => 0%Z
  | Some z => if (z =? 0)%Z then 0%Z else z
  end.

Definition with_version (e : ContextEntry) (v : Z) : ContextEntry :=
  mkContextEntry (entry_id e) (entry_content e) (committed_at e) (committed_by e)
                 (entry_origin e) (entry_commit_id e) v.

Definition add_context_entry (entry : ContextEntry) : Eng ContextEntry :=
  max_v <- gets (fun w => max_version (context_entries w)) ;;
  let entry := with_version entry (or_zero max_v + 1)%Z in
  if (sqlite_max_int <? version entry)%Z then raise OverflowError
  else
    taken <- gets (fun w => mem_string (entry_id entry) (map entry_id (context_entries w))) ;;
    if taken then raise IntegrityError
    else
      modify (set_context_entries (fun rows => rows ++ [entry])) ;;
      ret entry.

(** [ORDER BY version ASC] *)
Fixpoint insert_by_version (e : ContextEntry) (sorted : list ContextEntry) : list ContextEntry :=
  match sorted with
  | [] => [e]
  | x :: rest =>
      if (version e <? version x)%Z then e :: x :: rest
      else x :: insert_by_version e rest
  end.

Definition order_by_version (rows : list ContextEntry) : list ContextEntry :=
  fold_left (fun acc e => insert_by_version e acc) rows [].

Definition get_context : Eng (list ContextEntry) :=
  gets (fun w => order_by_version (context_entries w)).

Definition get_context_version : Eng Z :=
  gets (fun w => or_zero (max_version (context_entries w))).

(** *** Commit proposals *)

Definition add_commit (commit : CommitProposal) : Eng CommitProposal :=
  taken <- gets (fun w => mem_string (p_id commit) (map p_id (commit_proposals w))) ;;
  if taken then raise IntegrityError
  else
    modify (set_commit_proposals (fun rows => rows ++ [commit])) ;;
    ret commit.

Definition with_status (p : CommitProposal) (st resolved : string) : CommitProposal :=
  mkCommitProposal (p_id p) (p_content p) (proposed_by p) (proposed_by_name p) (p_origin p)
                   st (created_at p) (Some resolved) (consensus_mode p) (timeout_seconds p).

(** [UPDATE commit_proposals SET status = ?, resolved_at = ? WHERE id = ?] *)
Definition update_commit_status (commit_id st resolved : string) : Eng unit :=
  modify (set_commit_proposals
            (map (fun r => if p_id r =? commit_id then with_status r st resolved else r))).

Definition get_commit (commit_id : string) : Eng (option CommitProposal) :=
  gets (fun w => find (fun r => p_id r =? commit_id) (commit_proposals w)).

(** *** Votes *)

(** [INSERT OR REPLACE] under [id PRIMARY KEY] and [UNIQUE(commit_id, voter_id)]:
    every row in conflict with the new one goes, then the new row is added. *)
Definition vote_conflicts (v r : Vote) : bool :=
  (vote_id r =? vote_id v) || ((commit_id r =? commit_id v) && (voter_id r =? voter_id v)).

Definition add_vote (v : Vote) : Eng Vote :=
  modify (set_votes (fun rows => filter (fun r => negb (vote_conflicts v r)) rows ++ [v])) ;;
  ret v.

Definition get_votes_for_commit (cid : string) : Eng (list Vote) :=
  gets (fun w => filter (fun r => commit_id r =? cid) (votes w)).

(** ** [src/orchestrator.py] *)

(** The [consensus_result] dictionary of a vote. *)
Inductive ConsensusResult : Type :=
| Resolved (status reason : string)
| StillPending (votes_in votes_needed approvals rejections : nat).

(** The dictionaries the engine returns. *)
Inductive Reply : Type :=
| Failure (error : string)
| Joined (member : SquadMember) (message : string)
| HasLeft (message : string)
| Sent (message_id timestamp : string)
| Proposed (commit_id message : string)
| Voted (vote : Vote) (consensus_result : ConsensusResult).

(** Every listener is called with the event; what a listener raises is
    swallowed, so the engine goes on whatever the listeners do. *)
Definition _broadcast (event_type : string) (data : Payload) : Eng unit :=
  t <- utcnow ;;
  modify (set_delivered (fun evs => evs ++ [mkEvent event_type data t])).

(** *** Squad management *)

Definition join (name model : string) : Eng Reply :=
  existing <- get_member_by_name name ;;
  if match existing with Some m => m_is_active m | None => false end then
    ret (Failure ("'" ^^ name ^^ "' is already in the squad"))
  else
    member <- new_SquadMember name model ;;
    _ <- add_member member ;;
    sys_msg <- new_Message "orchestrator" "Squad Bot" "system"
                 ("👋 **" ^^ name ^^ "** joined the squad (using " ^^ model ^^ ")") None ;;
    _ <- add_message sys_msg ;;
    _broadcast "member_joined" (OfMember member) ;;
    _broadcast "new_message" (OfMessage sys_msg) ;;
    ret (Joined member
           ("Welcome to the squad, " ^^ name ^^ "! You're using " ^^ model ^^ ". "
            ^^ "Use squad_read to see the conversation and squad_context to see canonical context.")).

Definition leave (name : string) : Eng Reply :=
  member <- get_member_by_name name ;;
  match member with
  | None => ret (Failure ("'" ^^ name ^^ "' is not in the squad"))
  | Some member =>
      remove_member (m_id member) ;;
      sys_msg <- new_Message "orchestrator" "Squad Bot" "system"
                   ("👋 **" ^^ name ^^ "** left the squad") None ;;
      _ <- add_message sys_msg ;;
      _broadcast "member_left" (OfLeft name (m_id member)) ;;
      _broadcast "new_message" (OfMessage sys_msg) ;;
      ret (HasLeft (name ^^ " has left the squad"))
  end.

Definition get_members : Eng (list SquadMember) := get_active_members.

(** *** Messaging *)

Definition send_message (sender_name content sender_type : string) (reply_to : option string)
  : Eng Reply :=
  member <- get_member_by_name sender_name ;;
  match member with
  | None => ret (Failure ("'" ^^ sender_name ^^ "' is not in the squad. Join first."))
  | Some member =>
      msg <- new_Message (m_id member) sender_name sender_type content reply_to ;;
      _ <- add_message msg ;;
      _broadcast "new_message" (OfMessage msg) ;;
      ret (Sent (msg_id msg) (timestamp msg))
  end.

(** *** Canonical context *)

Record ContextView : Type := mkContextView {
  view_version : Z;
  view_entries : list ContextEntry;
  view_summary : list string      (* the lines joined by a newline *)
}.

Definition get_context_view : Eng ContextView :=
  entries <- get_context ;;
  v <- get_context_version ;;
  ret (mkContextView v entries
         (map (fun e => "[v" ^^ str_Z (version e) ^^ "] " ^^ entry_content e) entries)).

(** *** Commit protocol *)

Definition vote_instructions (pid : string) : string :=
  "Vote with `squad_vote(commit_id='" ^^ pid ^^ "', choice='approve')` " ^^ "or `'reject'`".

Definition propose_commit (proposer_name content origin : string) : Eng Reply :=
  member <- get_member_by_name proposer_name ;;
  if match member with None => negb (origin =? "orchestrator_detected") | Some _ => false end then
    ret (Failure ("'" ^^ proposer_name ^^ "' is not in the squad"))
  else
    mode <- gets self_consensus_mode ;;
    proposal <- new_CommitProposal content
                  (match member with Some m => m_id m | None => "orchestrator" end)
                  (match member with Some _ => proposer_name | None => "Squad Bot" end)
                  origin mode ;;
    _ <- add_commit proposal ;;
    let newline := String (ascii_of_nat 10) EmptyString in
    let announcement :=
      if origin =? "agent_nominated" then
        "📋 **" ^^ proposer_name ^^ "** proposes to commit: " ^^ dquote ^^ content ^^ dquote
        ^^ newline ^^ newline ^^ vote_instructions (p_id proposal)
      else
        "🔍 **Squad Bot** detected convergence: " ^^ dquote ^^ content ^^ dquote
        ^^ newline ^^ newline ^^ vote_instructions (p_id proposal) in
    sys_msg <- new_Message "orchestrator" "Squad Bot" "orchestrator" announcement None ;;
    _ <- add_message sys_msg ;;
    _broadcast "new_message" (OfMessage sys_msg) ;;
    _broadcast "commit_proposed" (OfProposal proposal) ;;
    ret (Proposed (p_id proposal)
           ("Commit proposed (ID: " ^^ p_id proposal ^^ "). Awaiting votes from squad members.")).

Definition _resolve_commit (cid st announcement : string) : Eng unit :=
  now <- utcnow ;;
  update_commit_status cid st now ;;
  sys_msg <- new_Message "orchestrator" "Squad Bot" "orchestrator" announcement None ;;
  _ <- add_message sys_msg ;;
  _broadcast "new_message" (OfMessage sys_msg) ;;
  _broadcast "commit_resolved" (OfResolved cid st).

Definition _commit_to_context (proposal : CommitProposal) : Eng unit :=
  _ <- utcnow ;;
  entry <- new_ContextEntry (p_content proposal) (proposed_by_name proposal)
             (p_origin proposal) (p_id proposal) ;;
  entry <- add_context_entry entry ;;
  _resolve_commit (p_id proposal) "approved"
    ("✅ Committed to context (v" ^^ str_Z (version entry) ^^ "): "
     ^^ dquote ^^ p_content proposal ^^ dquote) ;;
  _broadcast "context_updated" (OfEntry entry).

Definition is_human_rejection (v : Vote) : bool :=
  (choice v =? "reject") && is_human_override v.

(** [approvals > total_eligible / 2]: the division is Python's true division;
    comparing an integer with half of another is comparing its double with
    the other. *)
Definition exceeds_half (approvals total_eligible : nat) : bool :=
  (total_eligible <? 2 * approvals)%nat.

Definition _evaluate_consensus (cid : string) : Eng ConsensusResult :=
  proposal <- get_commit cid ;;
  votes <- get_votes_for_commit cid ;;
  active_members <- get_active_members ;;
  let eligible_voters := active_members in
  let total_eligible := List.length eligible_voters in
  let total_voted := List.length votes in
  let approvals := count (fun v => choice v =? "approve") votes in
  let rejections := count (fun v => choice v =? "reject") votes in
  let human_rejections := filter is_human_rejection votes in
  match human_rejections with
  | _ :: _ =>
      _resolve_commit cid "rejected"
        ("🚫 Commit `" ^^ cid ^^ "` **rejected** — human veto by "
         ^^ join_comma (map voter_name human_rejections)) ;;
      ret (Resolved "rejected" "human_veto")
  | [] =>
      match proposal with
      | None => raise AttributeError
      | Some proposal =>
          let mode := consensus_mode proposal in
          let pending := StillPending total_voted total_eligible approvals rejections in
          if mode =? "unanimous" then
            if (0 <? rejections)%nat then
              _resolve_commit cid "rejected"
                ("🚫 Commit `" ^^ cid ^^ "` **rejected** (unanimous required, got "
                 ^^ str_nat rejections ^^ " rejection(s))") ;;
              ret (Resolved "rejected" "not_unanimous")
            else if (approvals =? total_eligible)%nat then
              _commit_to_context proposal ;;
              ret (Resolved "approved" "unanimous")
            else ret pending
          else if mode =? "majority" then
            if (total_eligible <=? total_voted)%nat then
              if exceeds_half approvals total_eligible then
                _commit_to_context proposal ;;
                ret (Resolved "approved"
                       ("majority (" ^^ str_nat approvals ^^ "/" ^^ str_nat total_eligible ^^ ")"))
              else
                _resolve_commit cid "rejected"
                  ("🚫 Commit `" ^^ cid ^^ "` **rejected** (" ^^ str_nat approvals ^^ "/"
                   ^^ str_nat total_eligible ^^ " approved, majority needed)") ;;
                ret (Resolved "rejected" "no_majority")
            else if exceeds_half approvals total_eligible then
              _commit_to_context proposal ;;
              ret (Resolved "approved"
                     ("early_majority (" ^^ str_nat approvals ^^ "/" ^^ str_nat total_eligible ^^ ")"))
            else ret pending
          else if mode =? "no_objection" then
            if (0 <? rejections)%nat then
              _resolve_commit cid "rejected"
                ("🚫 Commit `" ^^ cid ^^ "` **rejected** (objection raised)") ;;
              ret (Resolved "rejected" "objection_raised")
            else ret pending
          else ret pending
      end
  end.

Definition valid_choice (c : string) : bool :=
  (c =? "approve") || (c =? "reject") || (c =? "abstain").

Definition vote (voter_name cid choice : string) (is_human_override : bool) : Eng Reply :=
  member <- get_member_by_name voter_name ;;
  match member with
  | None => ret (Failure ("'" ^^ voter_name ^^ "' is not in the squad"))
  | Some member =>
      proposal <- get_commit cid ;;
      match proposal with
      | None => ret (Failure ("Commit '" ^^ cid ^^ "' not found"))
      | Some proposal =>
          if negb (status proposal =? "pending") then
            ret (Failure ("Commit '" ^^ cid ^^ "' is already " ^^ status proposal))
          else if negb (valid_choice choice) then
            ret (Failure "Choice must be 'approve', 'reject', or 'abstain'")
          else
            v <- new_Vote cid (m_id member) voter_name choice is_human_override ;;
            _ <- add_vote v ;;
            let override_note := if is_human_override then " (🙋 human override)" else "" in
            let emoji := if choice =? "approve" then "✅"
                         else if choice =? "reject" then "❌" else "⏭️" in
            sys_msg <- new_Message "orchestrator" "Squad Bot" "system"
                         (emoji ^^ " **" ^^ voter_name ^^ "** voted **" ^^ choice
                          ^^ "** on commit `" ^^ cid ^^ "`" ^^ override_note) None ;;
            _ <- add_message sys_msg ;;
            _broadcast "new_message" (OfMessage sys_msg) ;;
            _broadcast "vote_cast" (OfVote v) ;;
            result <- _evaluate_consensus cid ;;
            ret (Voted v result)
      end
  end.

(** ** Calls and runs *)

Inductive Call : Type :=
| CallJoin (name model : string)
| CallLeave (name : string)
| CallSendMessage (sender_name content sender_type : string) (reply_to : option string)
| CallProposeCommit (proposer_name content origin : string)
| CallVote (voter_name commit_id choice : string) (is_human_override : bool).

Definition run (c : Call) : Eng Reply :=
  match c with
  | CallJoin name model => join name model
  | CallLeave name => leave name
  | CallSendMessage s c t r => send_message s c t r
  | CallProposeCommit n c o => propose_commit n c o
  | CallVote n c ch h => vote n c ch h
  end.

(** A database just created and an orchestrator just built on it. *)
Definition fresh (mode : string) (uuids clock : nat -> string) : World :=
  mkWorld [] [] [] [] [] mode [] uuids clock.

(** The worlds the engine reaches by calls that return.  A call that raises
    a storage exception ends the run. *)
Inductive reachable : World -> Prop :=
| reach_fresh : forall mode uuids clock, reachable (fresh mode uuids clock)
| reach_call : forall w c r w',
    reachable w -> run c w = (Ret r, w') -> reachable w'.

(** Running a list of calls, for concrete scenarios. *)
Fixpoint run_all (cs : list Call) (w : World) : option World :=
  match cs with
  | [] => Some w
  | c :: rest =>
      match run c w with
      | (Ret _, w') => run_all rest w'
      | (Raise _, _) => None
      end
  end.

(** ** Vocabulary of the statements *)

Definition lookup_commit (cid : string) (w : World) : option CommitProposal :=
  find (fun r => p_id r =? cid) (commit_proposals w).

Definition lookup_member_by_name (name : string) (w : World) : option SquadMember :=
  find (fun r => (m_name r =? name) && m_is_active r) (members w).

Definition lookup_member (mid : string) (w : World) : option SquadMember :=
  find (fun r => m_id r =? mid) (members w).

Definition votes_for (cid : string) (w : World) : list Vote :=
  filter (fun r => commit_id r =? cid) (votes w).

Definition active_members (w : World) : list SquadMember :=
  filter m_is_active (members w).

Definition approvals_of (cid : string) (w : World) : nat :=
  count (fun v => choice v =? "approve") (votes_for cid w).

Definition rejections_of (cid : string) (w : World) : nat :=
  count (fun v => choice v =? "reject") (votes_for cid w).

Definition vetoes_of (cid : string) (w : World) : list Vote :=
  filter is_human_rejection (votes_for cid w).


Definition currentVersion (w : World) : Z := or_zero (max_version (context_entries w)).

(** The [commit_resolved] events about one proposal. *)
Definition is_resolution_of (cid : string) (e : Event) : bool :=
  (ev_type e =? "commit_resolved") &&
  match ev_data e with
  | OfResolved c _ => c =? cid
  | _ => false
  end.

Definition resolutions (cid : string) (w : World) : nat :=
  count (is_resolution_of cid) (delivered w).

(** Events other than a resolution or a context update. *)
Definition quiet_event (e : Event) : bool :=
  match ev_data e with
  | OfResolved _ _ => false
  | OfEntry _ => false
  | _ => negb (ev_type e =? "commit_resolved")
  end.

Definition set_status (cid st t : string) (rows : list CommitProposal) : list CommitProposal :=
  map (fun r => if p_id r =? cid then with_status r st t else r) rows.

(** What one returning call does to the proposals, the ledger and the
    listeners. *)
Inductive transition (w w' : World) : Prop :=
| quiet_step : forall evs,
    commit_proposals w' = commit_proposals w ->
    context_entries w' = context_entries w ->
    delivered w' = delivered w ++ evs ->
    forallb quiet_event evs = true ->
    transition w w'
| opening_step : forall p evs,
    commit_proposals w' = commit_proposals w ++ [p] ->
    status p = "pending" ->
    consensus_mode p = self_consensus_mode w ->
    timeout_seconds p = 300%Z ->
    ~ In (p_id p) (map p_id (commit_proposals w)) ->
    context_entries w' = context_entries w ->
    delivered w' = delivered w ++ evs ->
    forallb quiet_event evs = true ->
    transition w w'
| rejecting_step : forall cid p t evs t',
    lookup_commit cid w = Some p ->
    status p = "pending" ->
    commit_proposals w' = set_status cid "rejected" t (commit_proposals w) ->
    context_entries w' = context_entries w ->
    delivered w' = delivered w ++ evs ++ [mkEvent "commit_resolved" (OfResolved cid "rejected") t'] ->
    forallb quiet_event evs = true ->
    transition w w'
| ratifying_step : forall cid p t e evs t' t'',
    lookup_commit cid w = Some p ->
    status p = "pending" ->
    commit_proposals w' = set_status cid "approved" t (commit_proposals w) ->
    context_entries w' = context_entries w ++ [e] ->
    version e = (currentVersion w + 1)%Z ->
    (version e <= sqlite_max_int)%Z ->
    entry_commit_id e = cid ->
    entry_content e = p_content p ->
    ~ In (entry_id e) (map entry_id (context_entries w)) ->
    delivered w' = delivered w ++ evs
                   ++ [mkEvent "commit_resolved" (OfResolved cid "approved") t';
                       mkEvent "context_updated" (OfEntry e) t''] ->
    forallb quiet_event evs = true ->
    transition w w'.

(** The versions [1..n], oldest first. *)
Definition versions_upto (n : nat) : list Z := map Z.of_nat (seq 1 n).

(** What holds of the proposals, the ledger and the events in every world
    the engine reaches. *)
Record consistent (w : World) : Prop := mkConsistent {
  ids_unique : NoDup (map p_id (commit_proposals w));
  statuses_known : forall p, In p (commit_proposals w) ->
    status p = "pending" \/ status p = "approved" \/ status p = "rejected";
  one_resolution : forall p, In p (commit_proposals w) ->
    resolutions (p_id p) w = if status p =? "pending" then 0 else 1;
  no_stray_resolution : forall cid, ~ In cid (map p_id (commit_proposals w)) ->
    resolutions cid w = 0;
  versions_dense :
    map version (context_entries w) = versions_upto (List.length (context_entries w));
  entries_of_approved : forall p, In p (commit_proposals w) ->
    map entry_content (filter (fun e => entry_commit_id e =? p_id p) (context_entries w))
    = if status p =? "approved" then [p_content p] else [];
  entries_owned : forall e, In e (context_entries w) ->
    In (entry_commit_id e) (map p_id (commit_proposals w))
}.

(** Names are unique among the active members, ids among all members. *)
Record roster_ok (w : World) : Prop := mkRosterOk {
  active_names_unique : NoDup (map m_name (active_members w));
  member_ids_unique : NoDup (map m_id (members w))
}.

Definition status_of (cid : string) (w : World) : option string :=
  option_map status (lookup_commit cid w).

(** Every active member has a vote on the proposal. *)
Definition everyone_voted (cid : string) (w : World) : bool :=
  forallb (fun m => existsb (fun v => voter_id v =? m_id m) (votes_for cid w))
          (active_members w).

(** No insert of one evaluation can raise: the identifiers the environment
    delivers next are not in use, and the version counter is below the
    largest integer SQLite stores. *)
Definition storage_ready (w : World) : Prop :=
  mem_string (uuid4s w 0) (map msg_id (messages w)) = false /\
  mem_string (uuid4s w 1) (map msg_id (messages w)) = false /\
  mem_string (first8 (uuid4s w 0)) (map entry_id (context_entries w)) = false /\
  (currentVersion w < sqlite_max_int)%Z.



(** ** Further vocabulary of the statements *)

Definition closes (cid st : string) (w w' : World) : Prop :=
  exists m t t1 t2,
    members w' = members w /\
    messages w' = messages w ++ [m] /\
    context_entries w' = context_entries w /\
    commit_proposals w' = set_status cid st t (commit_proposals w) /\
    votes w' = votes w /\
    self_consensus_mode w' = self_consensus_mode w /\
    delivered w' = delivered w ++ [mkEvent "new_message" (OfMessage m) t1;
                                   mkEvent "commit_resolved" (OfResolved cid st) t2].

Definition ratifies (p : CommitProposal) (w w' : World) : Prop :=
  exists e m t t1 t2 t3,
    members w' = members w /\
    messages w' = messages w ++ [m] /\
    context_entries w' = context_entries w ++ [e] /\
    version e = (currentVersion w + 1)%Z /\
    (version e <= sqlite_max_int)%Z /\
    entry_commit_id e = p_id p /\
    entry_content e = p_content p /\
    ~ In (entry_id e) (map entry_id (context_entries w)) /\
    commit_proposals w' = set_status (p_id p) "approved" t (commit_proposals w) /\
    votes w' = votes w /\
    self_consensus_mode w' = self_consensus_mode w /\
    delivered w' = delivered w ++ [mkEvent "new_message" (OfMessage m) t1]
                   ++ [mkEvent "commit_resolved" (OfResolved (p_id p) "approved") t2;
                       mkEvent "context_updated" (OfEntry e) t3].

Definition records (v : Vote) (w w1 : World) : Prop :=
  exists msg t1 t2,
    msg_id msg = uuid4s w 1 /\
    members w1 = members w /\
    messages w1 = messages w ++ [msg] /\
    context_entries w1 = context_entries w /\
    commit_proposals w1 = commit_proposals w /\
    votes w1 = filter (fun r => negb (vote_conflicts v r)) (votes w) ++ [v] /\
    self_consensus_mode w1 = self_consensus_mode w /\
    delivered w1 = delivered w ++ [mkEvent "new_message" (OfMessage msg) t1;
                                   mkEvent "vote_cast" (OfVote v) t2].

(** The reason a rejection carries when the votes hold a rejection: the one
    of the mode, unless a rejection carries the human-override flag. *)
Definition rejection_reason (mode_reason cid : string) (w : World) : string :=
  match vetoes_of cid w with
  | [] => mode_reason
  | _ :: _ => "human_veto"
  end.


Definition deactivate_id (mid : string) (rows : list SquadMember) : list SquadMember :=
  map (fun r => if m_id r =? mid then deactivate r else r) rows.

Definition replace_member (m : SquadMember) (rows : list SquadMember) : list SquadMember :=
  filter (fun r => negb (m_id r =? m_id m)) rows ++ [stored_member m].

Definition settled (before after : string) : Prop :=
  after = before \/ (before = "pending" /\ (after = "approved" \/ after = "rejected")).

(** ** Scenarios *)

Definition after (cs : list Call) (w : World) : World :=
  match run_all cs w with
  | Some w' => w'
  | None => w
  end.

Definition the_commit (cid : string) (w : World) : CommitProposal :=
  match lookup_commit cid w with
  | Some p => p
  | None => mkCommitProposal "" "" "" "" "" "" "" None "" 0
  end.

Definition the_member (name : string) (w : World) : SquadMember :=
  match lookup_member_by_name name w with
  | Some m => m
  | None => mkSquadMember "" "" "" "" false
  end.

Definition three_join : list Call :=
  [CallJoin "ava" "claude"; CallJoin "ben" "gpt"; CallJoin "cy" "gemini"].

(** Unanimous mode, three members: Ava has proposed, Ava and Ben have
    approved, Cy has not voted. *)
Definition veto_scene : World :=
  after (three_join ++
         [CallProposeCommit "ava" "Use Rocq" "agent_nominated";
          CallVote "ava" "id-6-000" "approve" false;
          CallVote "ben" "id-6-000" "approve" false])
        (fresh "unanimous" sample_uuid sample_clock).

(** Then Cy abstains. *)
Definition stall_scene : World :=
  after [CallVote "cy" "id-6-000" "abstain" false] veto_scene.

(** Or Cy approves. *)
Definition ratified_scene : World :=
  after [CallVote "cy" "id-6-000" "approve" false] veto_scene.

(** Majority mode, four members: two approvals and one rejection are in. *)
Definition tie_votes : World :=
  after (three_join ++
         [CallJoin "dee" "llama";
          CallProposeCommit "ava" "Use Rocq" "agent_nominated";
          CallVote "ava" "id-8-000" "approve" false;
          CallVote "ben" "id-8-000" "approve" false;
          CallVote "cy" "id-8-000" "reject" false])
        (fresh "majority" sample_uuid sample_clock).

(** Dee's abstention is stored and the evaluation has not run yet. *)
Definition tie_scene : World :=
  snd ((v <- new_Vote "id-8-000" "id-6-000" "dee" "abstain" false ;; add_vote v) tie_votes).


(** Ava has joined, written a message, proposed and voted. *)
Definition ava_scene : World :=
  after [CallJoin "ava" "claude";
         CallJoin "ben" "gpt";
         CallSendMessage "ava" "hello" "agent" None;
         CallProposeCommit "ava" "Use Rocq" "agent_nominated";
         CallVote "ava" "id-5-000" "approve" false]
        (fresh "unanimous" sample_uuid sample_clock).


(** ** The read side of [src/database.py] and [src/orchestrator.py] *)

(** [ORDER BY timestamp ASC]: the index on [timestamp] lists equal
    timestamps by rowid, so the order is the stable one. *)
Fixpoint insert_by_timestamp (m : Message) (sorted : list Message) : list Message :=
  match sorted with
  | [] => [m]
  | x :: rest =>
      if String.ltb (timestamp m) (timestamp x) then m :: x :: rest
      else x :: insert_by_timestamp m rest
  end.

Definition order_by_timestamp (rows : list Message) : list Message :=
  fold_left (fun acc m => insert_by_timestamp m acc) rows [].

(** [LIMIT ?]: a negative limit is no limit. *)
Definition limit_rows {A : Type} (limit : Z) (rows : list A) : list A :=
  if (limit <? 0)%Z then rows else firstn (Z.to_nat limit) rows.

(** [if since:] *)
Definition truthy (s : option string) : bool :=
  match s with
  | None => false
  | Some s => negb (s =? "")
  end.

Definition sqlite_min_int : Z := (-9223372036854775808)%Z.

Definition get_messages (since : option string) (limit : Z) : Eng (list Message) :=
  if (sqlite_max_int <? limit)%Z || (limit <? sqlite_min_int)%Z then raise OverflowError
  else
    match since with
    | Some s =>
        if truthy since then
          gets (fun w =>
            limit_rows limit
              (order_by_timestamp (filter (fun r => String.ltb s (timestamp r)) (messages w))))
        else
          gets (fun w => rev (limit_rows limit (rev (order_by_timestamp (messages w)))))
    | None =>
        gets (fun w => rev (limit_rows limit (rev (order_by_timestamp (messages w)))))
    end.

Definition read_messages (since : option string) (limit : Z) : Eng (list Message) :=
  get_messages since limit.

(** [WHERE status = 'pending' ORDER BY created_at ASC]; rows with the same
    [created_at] are kept in rowid order. *)
Fixpoint insert_by_created_at (p : CommitProposal) (sorted : list CommitProposal)
  : list CommitProposal :=
  match sorted with
  | [] => [p]
  | x :: rest =>
      if String.ltb (created_at p) (created_at x) then p :: x :: rest
      else x :: insert_by_created_at p rest
  end.

Definition order_by_created_at (rows : list CommitProposal) : list CommitProposal :=
  fold_left (fun acc p => insert_by_created_at p acc) rows [].

Definition get_pending_commits : Eng (list CommitProposal) :=
  gets (fun w =>
    order_by_created_at (filter (fun r => status r =? "pending") (commit_proposals w))).

Record VoteSummary : Type := mkVoteSummary {
  sum_approvals : nat;
  sum_rejections : nat;
  sum_abstentions : nat;
  sum_total : nat
}.

Record PendingCommit : Type := mkPendingCommit {
  pc_commit : CommitProposal;
  pc_votes : list Vote;
  pc_vote_summary : VoteSummary
}.

Definition summarize (votes : list Vote) : VoteSummary :=
  mkVoteSummary (count (fun v => choice v =? "approve") votes)
                (count (fun v => choice v =? "reject") votes)
                (count (fun v => choice v =? "abstain") votes)
                (List.length votes).

(** The loop of the orchestrator's [get_pending_commits]. *)
Fixpoint with_votes (commits : list CommitProposal) : Eng (list PendingCommit) :=
  match commits with
  | [] => ret []
  | c :: rest =>
      votes <- get_votes_for_commit (p_id c) ;;
      result <- with_votes rest ;;
      ret (mkPendingCommit c votes (summarize votes) :: result)
  end.

Definition pending_commits_with_votes : Eng (list PendingCommit) :=
  commits <- get_pending_commits ;;
  with_votes commits.

Record Status : Type := mkStatus {
  st_members : list SquadMember;
  st_member_count : nat;
  st_context_version : Z;
  st_pending_commits : nat;
  st_consensus_mode : string
}.

Definition get_status : Eng Status :=
  members <- get_active_members ;;
  context_version <- get_context_version ;;
  pending <- get_pending_commits ;;
  mode <- gets self_consensus_mode ;;
  ret (mkStatus members (List.length members) context_version (List.length pending) mode).

(** ** Vocabulary of the further statements *)

(** The messages the listeners were sent as [new_message], oldest first. *)
Definition announced (w : World) : list Message :=
  flat_map (fun e =>
    match ev_data e with
    | OfMessage m => if ev_type e =? "new_message" then [m] else []
    | _ => []
    end) (delivered w).

(** The proposals the listeners were sent as [commit_proposed]. *)
Definition proposed_events (w : World) : list CommitProposal :=
  flat_map (fun e =>
    match ev_data e with
    | OfProposal p => if ev_type e =? "commit_proposed" then [p] else []
    | _ => []
    end) (delivered w).

Definition timestamp_le (x y : Message) : Prop :=
  String.ltb (timestamp y) (timestamp x) = false.

Definition with_status_count (st : string) (w : World) : nat :=
  count (fun p => status p =? st) (commit_proposals w).

(** One vote per proposal and member. *)
Definition vote_key (v : Vote) : string * string := (commit_id v, voter_id v).

(** The orchestrator or a member stored, active or not. *)
Definition known_party (w : World) (i : string) : Prop :=
  i = "orchestrator" \/ In i (map m_id (members w)).

(** What every world the engine reaches keeps about the messages and the
    records of who did what. *)
Record tidy (w : World) : Prop := mkTidy {
  message_ids_unique : NoDup (map msg_id (messages w));
  all_announced : announced w = messages w;
  all_proposed : map p_id (proposed_events w) = map p_id (commit_proposals w);
  senders_known : forall m, In m (messages w) -> known_party w (sender_id m);
  proposers_known : forall p, In p (commit_proposals w) -> known_party w (proposed_by p);
  resolved_at_set : forall p, In p (commit_proposals w) ->
    (resolved_at p = None <-> status p = "pending");
  entries_attributed : forall e, In e (context_entries w) ->
    exists p, In p (commit_proposals w) /\ p_id p = entry_commit_id e /\
              committed_by e = proposed_by_name p /\ entry_origin e = p_origin p
}.

(** What every world the engine reaches keeps about the votes. *)
Record ballots_ok (w : World) : Prop := mkBallotsOk {
  vote_keys_unique : NoDup (map vote_key (votes w));
  vote_ids_unique : NoDup (map vote_id (votes w));
  choices_valid : forall v, In v (votes w) -> valid_choice (choice v) = true;
  votes_on_proposals : forall v, In v (votes w) ->
    In (commit_id v) (map p_id (commit_proposals w));
  voters_known : forall v, In v (votes w) -> In (voter_id v) (map m_id (members w));
  pending_unvetoed : forall p, In p (commit_proposals w) -> status p = "pending" ->
    vetoes_of (p_id p) w = [];
  pending_unopposed : forall p, In p (commit_proposals w) -> status p = "pending" ->
    consensus_mode p = "unanimous" \/ consensus_mode p = "no_objection" ->
    rejections_of (p_id p) w = 0
}.

(** [timestamp > since], with no [since] every message. *)
Definition newer_than (since : option string) (m : Message) : bool :=
  match since with
  | Some s => String.ltb s (timestamp m)
  | None => true
  end.

(** What a call adds to the messages, and to what the listeners were sent of
    them. *)
Definition logs (ms : list Message) (w w' : World) : Prop :=
  messages w' = messages w ++ ms /\
  announced w' = announced w ++ ms /\
  proposed_events w' = proposed_events w /\
  (forall m, In m ms -> known_party w' (sender_id m)) /\
  (NoDup (map msg_id (messages w)) -> NoDup (map msg_id (messages w'))).

(** ** Further scenarios *)

(** A proposal made under a mode the evaluation does not know; its only
    member has approved. *)
Definition odd_mode_scene : World :=
  after [CallJoin "ava" "claude";
         CallProposeCommit "ava" "Use Rocq" "agent_nominated";
         CallVote "ava" "id-2-000" "approve" false]
        (fresh "first_come" sample_uuid sample_clock).

(** Majority mode, three members: Ava has proposed and rejected, then left. *)
Definition departed_votes : World :=
  after (three_join ++
         [CallProposeCommit "ava" "Use Rocq" "agent_nominated";
          CallVote "ava" "id-6-000" "reject" false;
          CallLeave "ava"])
        (fresh "majority" sample_uuid sample_clock).

(** Ben's abstention is stored and the evaluation has not run yet; Cy has
    not voted. *)
Definition departed_scene : World :=
  snd ((v <- new_Vote "id-6-000" "id-2-000" "ben" "abstain" false ;; add_vote v) departed_votes).

(** A second proposal, by Ben, beside Ava's. *)
Definition two_proposals_scene : World :=
  after [CallProposeCommit "ben" "Use Lean" "agent_nominated"] ava_scene.

End Squad.

(** * The multi-squad engine ([src/squad-server/]) *)

Module SquadServer.

Open Scope string_scope.
Open Scope list_scope.

(** ** [src/squad-server/models.py], the entities the commit protocol and the
    squad settings use *)

Record SquadMember : Type := mkSquadMember {
  m_id : string;
  m_name : string;
  m_model : string;
  m_joined_at : string;
  m_is_active : bool;
  m_user_id : option string
}.

Record Message : Type := mkMessage {
  msg_id : string;
  sender_id : string;
  sender_name : string;
  sender_type : string;
  msg_content : string;
  timestamp : string;
  reply_to : option string
}.

Record ContextEntry : Type := mkContextEntry {
  entry_id : string;
  entry_content : string;
  committed_at : string;
  committed_by : string;
  entry_origin : string;
  entry_commit_id : string;
  version : Z
}.

Record CommitProposal : Type := mkCommitProposal {
  p_id : string;
  p_content : string;
  proposed_by : string;
  proposed_by_name : string;
  p_origin : string;
  status : string;
  created_at : string;
  resolved_at : option string;
  consensus_mode : string;
  timeout_seconds : Z
}.

Record Vote : Type := mkVote {
  vote_id : string;
  commit_id : string;
  voter_id : string;
  voter_name : string;
  choice : string;
  is_human_override : bool;
  voted_at : string
}.

Record SquadRow : Type := mkSquadRow {
  squad_id : string;
  squad_name : string;
  squad_consensus_mode : string;
  session_ttl_hours : Z;
  fingerprint_mode : string;
  squad_created_at : string;
  squad_created_by : string;
  squad_is_active : bool
}.

Record MemberRole : Type := mkMemberRole {
  role_id : string;
  role_squad_id : string;
  role_member_id : string;
  role : string;
  granted_at : string;
  granted_by : option string
}.

(** A keyword argument of [update_squad_settings]: one of the settings the
    tool schema declares, with a value of the declared type, or any other
    key. *)
Inductive Setting : Type :=
| SetName (v : string)
| SetConsensusMode (v : string)
| SetSessionTtlHours (v : Z)
| SetFingerprintMode (v : string)
| SetIsActive (v : bool)
| SetOther (key : string).

Record SecurityLogEntry : Type := mkSecurityLogEntry {
  log_id : string;
  log_squad_id : option string;
  log_event_type : string;
  log_member_id : option string;
  log_details : option (list Setting);     (* json.dumps({"changes": updates}) *)
  log_ip_address : option string;
  log_user_agent : option string;
  log_timestamp : string
}.

(** A row of a table that has a [squad_id] column. *)
Record Scoped (A : Type) : Type := mkScoped {
  in_squad : string;
  row : A
}.

Arguments mkScoped {A} in_squad row.
Arguments in_squad {A} s.
Arguments row {A} s.

Inductive Payload : Type :=
| OfMember (m : SquadMember)
| OfMessage (m : Message)
| OfProposal (p : CommitProposal)
| OfVote (v : Vote)
| OfResolved (commit_id status : string)
| OfEntry (e : ContextEntry).

Record Event : Type := mkEvent {
  ev_type : string;
  ev_data : Payload;
  ev_squad_id : string;
  ev_timestamp : string
}.

Record World : Type := mkWorld {
  members : list (Scoped SquadMember);
  messages : list (Scoped Message);
  context_entries : list (Scoped ContextEntry);
  commit_proposals : list (Scoped CommitProposal);
  votes : list (Scoped Vote);
  squads : list SquadRow;
  member_roles : list MemberRole;
  security_log : list SecurityLogEntry;
  self_consensus_mode : string;      (* Orchestrator.consensus_mode *)
  delivered : list Event;            (* what the listeners of each squad and the
                                        global ones are called with *)
  uuid4s : nat -> string;
  nows : nat -> string
}.

Definition set_members (f : list (Scoped SquadMember) -> list (Scoped SquadMember)) (w : World) :=
  mkWorld (f (members w)) (messages w) (context_entries w) (commit_proposals w) (votes w)
          (squads w) (member_roles w) (security_log w) (self_consensus_mode w) (delivered w)
          (uuid4s w) (nows w).

Definition set_messages (f : list (Scoped Message) -> list (Scoped Message)) (w : World) :=
  mkWorld (members w) (f (messages w)) (context_entries w) (commit_proposals w) (votes w)
          (squads w) (member_roles w) (security_log w) (self_consensus_mode w) (delivered w)
          (uuid4s w) (nows w).

Definition set_context_entries
    (f : list (Scoped ContextEntry) -> list (Scoped ContextEntry)) (w : World) :=
  mkWorld (members w) (messages w) (f (context_entries w)) (commit_proposals w) (votes w)
          (squads w) (member_roles w) (security_log w) (self_consensus_mode w) (delivered w)
          (uuid4s w) (nows w).

Definition set_commit_proposals
    (f : list (Scoped CommitProposal) -> list (Scoped CommitProposal)) (w : World) :=
  mkWorld (members w) (messages w) (context_entries w) (f (commit_proposals w)) (votes w)
          (squads w) (member_roles w) (security_log w) (self_consensus_mode w) (delivered w)
          (uuid4s w) (nows w).

Definition set_votes (f : list (Scoped Vote) -> list (Scoped Vote)) (w : World) :=
  mkWorld (members w) (messages w) (context_entries w) (commit_proposals w) (f (votes w))
          (squads w) (member_roles w) (security_log w) (self_consensus_mode w) (delivered w)
          (uuid4s w) (nows w).

Definition set_squads (f : list SquadRow -> list SquadRow) (w : World) :=
  mkWorld (members w) (messages w) (context_entries w) (commit_proposals w) (votes w)
          (f (squads w)) (member_roles w) (security_log w) (self_consensus_mode w) (delivered w)
          (uuid4s w) (nows w).

Definition set_member_roles (f : list MemberRole -> list MemberRole) (w : World) :=
  mkWorld (members w) (messages w) (context_entries w) (commit_proposals w) (votes w)
          (squads w) (f (member_roles w)) (security_log w) (self_consensus_mode w) (delivered w)
          (uuid4s w) (nows w).

Definition set_security_log (f : list SecurityLogEntry -> list SecurityLogEntry) (w : World) :=
  mkWorld (members w) (messages w) (context_entries w) (commit_proposals w) (votes w)
          (squads w) (member_roles w) (f (security_log w)) (self_consensus_mode w) (delivered w)
          (uuid4s w) (nows w).

Definition set_delivered (f : list Event -> list Event) (w : World) :=
  mkWorld (members w) (messages w) (context_entries w) (commit_proposals w) (votes w)
          (squads w) (member_roles w) (security_log w) (self_consensus_mode w) (f (delivered w))
          (uuid4s w) (nows w).

Definition drop_uuid (w : World) : World :=
  mkWorld (members w) (messages w) (context_entries w) (commit_proposals w) (votes w)
          (squads w) (member_roles w) (security_log w) (self_consensus_mode w) (delivered w)
          (fun n => uuid4s w (S n)) (nows w).

Definition drop_now (w : World) : World :=
  mkWorld (members w) (messages w) (context_entries w) (commit_proposals w) (votes w)
          (squads w) (member_roles w) (security_log w) (self_consensus_mode w) (delivered w)
          (uuid4s w) (fun n => nows w (S n)).

Definition Eng (A : Type) : Type := M World A.

Open Scope monad_scope.

Definition uuid4 : Eng string := fun w => (Ret (uuid4s w 0), drop_uuid w).

Definition utcnow : Eng string := fun w => (Ret (nows w 0), drop_now w).

Definition new_SquadMember (name model : string) : Eng SquadMember :=
  i <- uuid4 ;;
  t <- utcnow ;;
  ret (mkSquadMember (first8 i) name model t true None).

Definition new_Message (sender_id sender_name sender_type content : string)
    (reply_to : option string) : Eng Message :=
  i <- uuid4 ;;
  t <- utcnow ;;
  ret (mkMessage i sender_id sender_name sender_type content t reply_to).

Definition new_ContextEntry (content committed_by origin commit_id : string) : Eng ContextEntry :=
  i <- uuid4 ;;
  t <- utcnow ;;
  ret (mkContextEntry (first8 i) content t committed_by origin commit_id 0%Z).

Definition new_CommitProposal (content proposed_by proposed_by_name origin consensus_mode : string)
  : Eng CommitProposal :=
  i <- uuid4 ;;
  t <- utcnow ;;
  ret (mkCommitProposal (first8 i) content proposed_by proposed_by_name origin
                        "pending" t None consensus_mode 300%Z).

Definition new_Vote (commit_id voter_id voter_name choice : string) (is_human_override : bool)
  : Eng Vote :=
  i <- uuid4 ;;
  t <- utcnow ;;
  ret (mkVote (first8 i) commit_id voter_id voter_name choice is_human_override t).

(** ** [src/squad-server/database.py] *)

(** *** Squads *)

Definition _ensure_default_squad : Eng unit :=
  present <- gets (fun w => existsb (fun s => squad_id s =? "default") (squads w)) ;;
  if present then ret tt
  else
    now <- utcnow ;;
    modify (set_squads (fun rows =>
      rows ++ [mkSquadRow "default" "Default Squad" "majority" 24 "single_session"
                          now "system" true])).

Definition get_squad (sid : string) : Eng (option SquadRow) :=
  gets (fun w => find (fun s => squad_id s =? sid) (squads w)).

Definition db_allowed (s : Setting) : bool :=
  match s with
  | SetOther _ => false
  | _ => true
  end.

Definition apply_setting (s : Setting) (r : SquadRow) : SquadRow :=
  match s with
  | SetName v =>
      mkSquadRow (squad_id r) v (squad_consensus_mode r) (session_ttl_hours r)
                 (fingerprint_mode r) (squad_created_at r) (squad_created_by r) (squad_is_active r)
  | SetConsensusMode v =>
      mkSquadRow (squad_id r) (squad_name r) v (session_ttl_hours r)
                 (fingerprint_mode r) (squad_created_at r) (squad_created_by r) (squad_is_active r)
  | SetSessionTtlHours v =>
      mkSquadRow (squad_id r) (squad_name r) (squad_consensus_mode r) v
                 (fingerprint_mode r) (squad_created_at r) (squad_created_by r) (squad_is_active r)
  | SetFingerprintMode v =>
      mkSquadRow (squad_id r) (squad_name r) (squad_consensus_mode r) (session_ttl_hours r)
                 v (squad_created_at r) (squad_created_by r) (squad_is_active r)
  | SetIsActive v =>
      mkSquadRow (squad_id r) (squad_name r) (squad_consensus_mode r) (session_ttl_hours r)
                 (fingerprint_mode r) (squad_created_at r) (squad_created_by r) v
  | SetOther _ => r
  end.

(** [UPDATE squads SET k1 = ?, ... WHERE id = ?]; the result is
    [cursor.rowcount > 0]. *)
Definition update_squad (sid : string) (kwargs : list Setting) : Eng bool :=
  let updates := filter db_allowed kwargs in
  match updates with
  | [] => ret false
  | _ :: _ =>
      hit <- gets (fun w => existsb (fun s => squad_id s =? sid) (squads w)) ;;
      modify (set_squads (map (fun r =>
        if squad_id r =? sid then fold_left (fun r s => apply_setting s r) updates r else r))) ;;
      ret hit
  end.

(** *** Roles *)

Definition get_member_role (sid mid : string) : Eng (option MemberRole) :=
  gets (fun w => find (fun r => (role_squad_id r =? sid) && (role_member_id r =? mid))
                      (member_roles w)).

Definition is_admin (sid mid : string) : Eng bool :=
  r <- get_member_role sid mid ;;
  ret match r with
      | Some r => role r =? "admin"
      | None => false
      end.

Definition set_member_role (sid mid role_name : string) (by_whom : option string)
  : Eng MemberRole :=
  now <- utcnow ;;
  existing <- gets (fun w => find (fun r => (role_squad_id r =? sid) && (role_member_id r =? mid))
                               (member_roles w)) ;;
  match existing with
  | Some old =>
      modify (set_member_roles (map (fun r =>
        if (role_squad_id r =? sid) && (role_member_id r =? mid)
        then mkMemberRole (role_id r) (role_squad_id r) (role_member_id r) role_name now by_whom
        else r))) ;;
      ret (mkMemberRole (role_id old) sid mid role_name now by_whom)
  | None =>
      i <- uuid4 ;;
      let role_obj := mkMemberRole (first8 i) sid mid role_name now by_whom in
      taken <- gets (fun w => mem_string (role_id role_obj) (map role_id (member_roles w))) ;;
      if taken then raise IntegrityError
      else
        modify (set_member_roles (fun rows => rows ++ [role_obj])) ;;
        ret role_obj
  end.

(** *** Security log *)

Definition log_security_event (event_type : string) (sid mid : option string)
    (details : option (list Setting)) (ip_address user_agent : option string)
  : Eng SecurityLogEntry :=
  i <- uuid4 ;;
  t <- utcnow ;;
  let entry := mkSecurityLogEntry i sid event_type mid details ip_address user_agent t in
  taken <- gets (fun w => mem_string (log_id entry) (map log_id (security_log w))) ;;
  if taken then raise IntegrityError
  else
    modify (set_security_log (fun rows => rows ++ [entry])) ;;
    ret entry.

(** *** Members *)

Definition stored_member (m : SquadMember) : SquadMember :=
  mkSquadMember (m_id m) (m_name m) (m_model m) (m_joined_at m) true (m_user_id m).

(** [members.id] is the primary key of the whole table. *)
Definition add_member (member : SquadMember) (sid : string) : Eng SquadMember :=
  modify (set_members (fun rows =>
    filter (fun r => negb (m_id (row r) =? m_id member)) rows
    ++ [mkScoped sid (stored_member member)])) ;;
  ret member.

Definition get_member_by_name (name sid : string) : Eng (option SquadMember) :=
  gets (fun w =>
    option_map row
      (find (fun r => (m_name (row r) =? name) && (in_squad r =? sid) && m_is_active (row r))
            (members w))).

Definition get_active_members (sid : string) : Eng (list SquadMember) :=
  gets (fun w =>
    map row (filter (fun r => m_is_active (row r) && (in_squad r =? sid)) (members w))).

(** *** Messages *)

Definition add_message (message : Message) (sid : string) : Eng Message :=
  taken <- gets (fun w => mem_string (msg_id message) (map (fun r => msg_id (row r)) (messages w))) ;;
  if taken then raise IntegrityError
  else
    modify (set_messages (fun rows => rows ++ [mkScoped sid message])) ;;
    ret message.

(** *** Context *)

Fixpoint max_version (rows : list ContextEntry) : option Z :=
  match rows with
  | [] => None
  | r :: rest =>
      match max_version rest with
      | None => Some (version r)
      | Some v => Some (Z.max (version r) v)
      end
  end.

Definition or_zero (v : option Z) : Z :=
  match v with
  | None => 0%Z
  | Some z => if (z =? 0)%Z then 0%Z else z
  end.

Definition with_version (e : ContextEntry) (v : Z) : ContextEntry :=
  mkContextEntry (entry_id e) (entry_content e) (committed_at e) (committed_by e)
                 (entry_origin e) (entry_commit_id e) v.

Definition entries_of (sid : string) (w : World) : list ContextEntry :=
  map row (filter (fun r => in_squad r =? sid) (context_entries w)).

(** The version is the next one of the squad; [context_entries.id] is the
    primary key of the whole table. *)
Definition add_context_entry (entry : ContextEntry) (sid : string) : Eng ContextEntry :=
  max_v <- gets (fun w => max_version (entries_of sid w)) ;;
  let entry := with_version entry (or_zero max_v + 1)%Z in
  if (sqlite_max_int <? version entry)%Z then raise OverflowError
  else
    taken <- gets (fun w => mem_string (entry_id entry)
                              (map (fun r => entry_id (row r)) (context_entries w))) ;;
    if taken then raise IntegrityError
    else
      modify (set_context_entries (fun rows => rows ++ [mkScoped sid entry])) ;;
      ret entry.

(** *** Commit proposals *)

Definition add_commit (commit : CommitProposal) (sid : string) : Eng CommitProposal :=
  taken <- gets (fun w => mem_string (p_id commit)
                            (map (fun r => p_id (row r)) (commit_proposals w))) ;;
  if taken then raise IntegrityError
  else
    modify (set_commit_proposals (fun rows => rows ++ [mkScoped sid commit])) ;;
    ret commit.

Definition with_status (p : CommitProposal) (st resolved : string) : CommitProposal :=
  mkCommitProposal (p_id p) (p_content p) (proposed_by p) (proposed_by_name p) (p_origin p)
                   st (created_at p) (Some resolved) (consensus_mode p) (timeout_seconds p).

(** [UPDATE commit_proposals SET status = ?, resolved_at = ? WHERE id = ?]:
    no squad in the condition. *)
Definition update_commit_status (cid st resolved : string) : Eng unit :=
  modify (set_commit_proposals
            (map (fun r => if p_id (row r) =? cid
                           then mkScoped (in_squad r) (with_status (row r) st resolved)
                           else r))).

(** [SELECT * FROM commit_proposals WHERE id = ?]: no squad in the condition. *)
Definition get_commit (cid : string) : Eng (option CommitProposal) :=
  gets (fun w => option_map row (find (fun r => p_id (row r) =? cid) (commit_proposals w))).

(** *** Votes *)

Definition vote_conflicts (v r : Vote) : bool :=
  (vote_id r =? vote_id v) || ((commit_id r =? commit_id v) && (voter_id r =? voter_id v)).

Definition add_vote (v : Vote) (sid : string) : Eng Vote :=
  modify (set_votes (fun rows =>
    filter (fun r => negb (vote_conflicts v (row r))) rows ++ [mkScoped sid v])) ;;
  ret v.

(** [SELECT * FROM votes WHERE commit_id = ?]: no squad in the condition. *)
Definition get_votes_for_commit (cid : string) : Eng (list Vote) :=
  gets (fun w => map row (filter (fun r => commit_id (row r) =? cid) (votes w))).

(** ** [src/squad-server/orchestrator.py] *)

Inductive ConsensusResult : Type :=
| Resolved (status reason : string)
| StillPending (votes_in votes_needed approvals rejections : nat).

Inductive Reply : Type :=
| Failure (error : string)
| Joined (member : SquadMember) (message : string)
| Proposed (commit_id message : string)
| Voted (vote : Vote) (consensus_result : ConsensusResult)
| SettingsReply (success : bool) (updated : list Setting).

(** The listeners of the squad, then the global ones, are called with the
    event; what they raise is swallowed.  The orchestrator is built without a
    webhook manager. *)
Definition _broadcast (event_type : string) (data : Payload) (sid : string) : Eng unit :=
  t <- utcnow ;;
  modify (set_delivered (fun evs => evs ++ [mkEvent event_type data sid t])).

Definition orch_allowed (s : Setting) : bool :=
  match s with
  | SetName _ | SetConsensusMode _ | SetSessionTtlHours _ | SetFingerprintMode _ => true
  | SetIsActive _ | SetOther _ => false
  end.

Definition update_squad_settings (sid admin_id : string) (settings : list Setting) : Eng Reply :=
  admin <- is_admin sid admin_id ;;
  if negb admin then ret (Failure "Admin access required")
  else
    let updates := filter orch_allowed settings in
    match updates with
    | [] => ret (Failure "No valid settings to update")
    | _ :: _ =>
        success <- update_squad sid updates ;;
        (if success
         then _ <- log_security_event "settings_changed" (Some sid) (Some admin_id)
                     (Some updates) None None ;; ret tt
         else ret tt) ;;
        ret (SettingsReply success updates)
    end.

Definition join (name model sid : string) : Eng Reply :=
  existing <- get_member_by_name name sid ;;
  if match existing with Some m => m_is_active m | None => false end then
    ret (Failure ("'" ^^ name ^^ "' is already in the squad"))
  else
    member <- new_SquadMember name model ;;
    _ <- add_member member sid ;;
    sys_msg <- new_Message "orchestrator" "Squad Bot" "system"
                 ("**" ^^ name ^^ "** joined the squad (using " ^^ model ^^ ")") None ;;
    _ <- add_message sys_msg sid ;;
    _broadcast "member_joined" (OfMember member) sid ;;
    _broadcast "new_message" (OfMessage sys_msg) sid ;;
    ret (Joined member
           ("Welcome to the squad, " ^^ name ^^ "! You're using " ^^ model ^^ ". "
            ^^ "Use squad_read to see the conversation and squad_context to see canonical context.")).

Definition vote_instructions (pid : string) : string :=
  "Vote with `squad_vote(commit_id='" ^^ pid ^^ "', choice='approve')` " ^^ "or `'reject'`".

Definition propose_commit (proposer_name content origin sid : string) : Eng Reply :=
  member <- get_member_by_name proposer_name sid ;;
  if match member with None => negb (origin =? "orchestrator_detected") | Some _ => false end then
    ret (Failure ("'" ^^ proposer_name ^^ "' is not in the squad"))
  else
    mode <- gets self_consensus_mode ;;
    proposal <- new_CommitProposal content
                  (match member with Some m => m_id m | None => "orchestrator" end)
                  (match member with Some _ => proposer_name | None => "Squad Bot" end)
                  origin mode ;;
    _ <- add_commit proposal sid ;;
    let newline := String (ascii_of_nat 10) EmptyString in
    let announcement :=
      if origin =? "agent_nominated" then
        "**" ^^ proposer_name ^^ "** proposes to commit: " ^^ dquote ^^ content ^^ dquote
        ^^ newline ^^ newline ^^ vote_instructions (p_id proposal)
      else
        "**Squad Bot** detected convergence: " ^^ dquote ^^ content ^^ dquote
        ^^ newline ^^ newline ^^ vote_instructions (p_id proposal) in
    sys_msg <- new_Message "orchestrator" "Squad Bot" "orchestrator" announcement None ;;
    _ <- add_message sys_msg sid ;;
    _broadcast "new_message" (OfMessage sys_msg) sid ;;
    _broadcast "commit_proposed" (OfProposal proposal) sid ;;
    ret (Proposed (p_id proposal)
           ("Commit proposed (ID: " ^^ p_id proposal ^^ "). Awaiting votes from squad members.")).

Definition _resolve_commit (cid st announcement sid : string) : Eng unit :=
  now <- utcnow ;;
  update_commit_status cid st now ;;
  sys_msg <- new_Message "orchestrator" "Squad Bot" "orchestrator" announcement None ;;
  _ <- add_message sys_msg sid ;;
  _broadcast "new_message" (OfMessage sys_msg) sid ;;
  _broadcast "commit_resolved" (OfResolved cid st) sid.

Definition _commit_to_context (proposal : CommitProposal) (sid : string) : Eng unit :=
  _ <- utcnow ;;
  entry <- new_ContextEntry (p_content proposal) (proposed_by_name proposal)
             (p_origin proposal) (p_id proposal) ;;
  entry <- add_context_entry entry sid ;;
  _resolve_commit (p_id proposal) "approved"
    ("Committed to context (v" ^^ str_Z (version entry) ^^ "): "
     ^^ dquote ^^ p_content proposal ^^ dquote) sid ;;
  _broadcast "context_updated" (OfEntry entry) sid.

Definition is_human_rejection (v : Vote) : bool :=
  (choice v =? "reject") && is_human_override v.

Definition exceeds_half (approvals total_eligible : nat) : bool :=
  (total_eligible <? 2 * approvals)%nat.

Definition _evaluate_consensus (cid sid : string) : Eng ConsensusResult :=
  proposal <- get_commit cid ;;
  votes <- get_votes_for_commit cid ;;
  active_members <- get_active_members sid ;;
  let eligible_voters := active_members in
  let total_eligible := List.length eligible_voters in
  let total_voted := List.length votes in
  let approvals := count (fun v => choice v =? "approve") votes in
  let rejections := count (fun v => choice v =? "reject") votes in
  let human_rejections := filter is_human_rejection votes in
  match human_rejections with
  | _ :: _ =>
      _resolve_commit cid "rejected"
        ("Commit `" ^^ cid ^^ "` **rejected** - human veto by "
         ^^ join_comma (map voter_name human_rejections)) sid ;;
      ret (Resolved "rejected" "human_veto")
  | [] =>
      match proposal with
      | None => raise AttributeError
      | Some proposal =>
          let mode := consensus_mode proposal in
          let pending := StillPending total_voted total_eligible approvals rejections in
          if mode =? "unanimous" then
            if (0 <? rejections)%nat then
              _resolve_commit cid "rejected"
                ("Commit `" ^^ cid ^^ "` **rejected** (unanimous required, got "
                 ^^ str_nat rejections ^^ " rejection(s))") sid ;;
              ret (Resolved "rejected" "not_unanimous")
            else if (approvals =? total_eligible)%nat then
              _commit_to_context proposal sid ;;
              ret (Resolved "approved" "unanimous")
            else ret pending
          else if mode =? "majority" then
            if (total_eligible <=? total_voted)%nat then
              if exceeds_half approvals total_eligible then
                _commit_to_context proposal sid ;;
                ret (Resolved "approved"
                       ("majority (" ^^ str_nat approvals ^^ "/" ^^ str_nat total_eligible ^^ ")"))
              else
                _resolve_commit cid "rejected"
                  ("Commit `" ^^ cid ^^ "` **rejected** (" ^^ str_nat approvals ^^ "/"
                   ^^ str_nat total_eligible ^^ " approved, majority needed)") sid ;;
                ret (Resolved "rejected" "no_majority")
            else if exceeds_half approvals total_eligible then
              _commit_to_context proposal sid ;;
              ret (Resolved "approved"
                     ("early_majority (" ^^ str_nat approvals ^^ "/" ^^ str_nat total_eligible ^^ ")"))
            else ret pending
          else if mode =? "no_objection" then
            if (0 <? rejections)%nat then
              _resolve_commit cid "rejected"
                ("Commit `" ^^ cid ^^ "` **rejected** (objection raised)") sid ;;
              ret (Resolved "rejected" "objection_raised")
            else ret pending
          else ret pending
      end
  end.

Definition valid_choice (c : string) : bool :=
  (c =? "approve") || (c =? "reject") || (c =? "abstain").

Definition vote (voter_name cid choice : string) (is_human_override : bool) (sid : string)
  : Eng Reply :=
  member <- get_member_by_name voter_name sid ;;
  match member with
  | None => ret (Failure ("'" ^^ voter_name ^^ "' is not in the squad"))
  | Some member =>
      proposal <- get_commit cid ;;
      match proposal with
      | None => ret (Failure ("Commit '" ^^ cid ^^ "' not found"))
      | Some proposal =>
          if negb (status proposal =? "pending") then
            ret (Failure ("Commit '" ^^ cid ^^ "' is already " ^^ status proposal))
          else if negb (valid_choice choice) then
            ret (Failure "Choice must be 'approve', 'reject', or 'abstain'")
          else
            v <- new_Vote cid (m_id member) voter_name choice is_human_override ;;
            _ <- add_vote v sid ;;
            let override_note := if is_human_override then " (human override)" else "" in
            let emoji := if choice =? "approve" then "+"
                         else if choice =? "reject" then "-" else "~" in
            sys_msg <- new_Message "orchestrator" "Squad Bot" "system"
                         ("[" ^^ emoji ^^ "] **" ^^ voter_name ^^ "** voted **" ^^ choice
                          ^^ "** on commit `" ^^ cid ^^ "`" ^^ override_note) None ;;
            _ <- add_message sys_msg sid ;;
            _broadcast "new_message" (OfMessage sys_msg) sid ;;
            _broadcast "vote_cast" (OfVote v) sid ;;
            result <- _evaluate_consensus cid sid ;;
            ret (Voted v result)
      end
  end.

(** ** Calls and runs *)

Inductive Call : Type :=
| CallJoin (name model squad_id : string)
| CallProposeCommit (proposer_name content origin squad_id : string)
| CallVote (voter_name commit_id choice : string) (is_human_override : bool) (squad_id : string)
| CallUpdateSquadSettings (squad_id admin_id : string) (settings : list Setting).

Definition run (c : Call) : Eng Reply :=
  match c with
  | CallJoin n m s => join n m s
  | CallProposeCommit n c o s => propose_commit n c o s
  | CallVote n c ch h s => vote n c ch h s
  | CallUpdateSquadSettings s a kw => update_squad_settings s a kw
  end.

Fixpoint run_all (cs : list Call) (w : World) : option World :=
  match cs with
  | [] => Some w
  | c :: rest =>
      match run c w with
      | (Ret _, w') => run_all rest w'
      | (Raise _, _) => None
      end
  end.

Definition after (cs : list Call) (w : World) : World :=
  match run_all cs w with
  | Some w' => w'
  | None => w
  end.

(** A database just created ([_run_migrations] has made the default squad)
    and an orchestrator just built on it. *)
Definition fresh (mode : string) (uuids clock : nat -> string) : World :=
  snd (_ensure_default_squad (mkWorld [] [] [] [] [] [] [] [] mode [] uuids clock)).

(** ** Vocabulary of the statements *)

Definition lookup_commit (cid : string) (w : World) : option (Scoped CommitProposal) :=
  find (fun r => p_id (row r) =? cid) (commit_proposals w).

Definition lookup_squad (sid : string) (w : World) : option SquadRow :=
  find (fun s => squad_id s =? sid) (squads w).

(** What belongs to one squad. *)
Definition proposals_of (sid : string) (w : World) : list CommitProposal :=
  map row (filter (fun r => in_squad r =? sid) (commit_proposals w)).

Definition votes_of (sid : string) (w : World) : list Vote :=
  map row (filter (fun r => in_squad r =? sid) (votes w)).

Definition members_of (sid : string) (w : World) : list SquadMember :=
  map row (filter (fun r => in_squad r =? sid) (members w)).

Definition messages_of (sid : string) (w : World) : list Message :=
  map row (filter (fun r => in_squad r =? sid) (messages w)).

(** ** Two scenarios *)

(** Alice is in squad alpha, Bob in squad beta, and Bob has proposed in
    beta. *)
Definition two_squads : World :=
  after [CallJoin "alice" "claude" "alpha";
         CallJoin "bob" "gpt" "beta";
         CallProposeCommit "bob" "Ship it" "agent_nominated" "beta"]
        (fresh "majority" sample_uuid sample_clock).

(** Ann, Ben and Cy are in the default squad; Ann is its admin and has set
    the squad's consensus mode to unanimous. *)
Definition unanimous_squad : World :=
  after [CallUpdateSquadSettings "default" "id-0-000" [SetConsensusMode "unanimous"]]
        (snd (set_member_role "default" "id-0-000" "admin" None
                (after [CallJoin "ann" "claude" "default";
                        CallJoin "ben" "gpt" "default";
                        CallJoin "cy" "gemini" "default"]
                       (fresh "majority" sample_uuid sample_clock)))).

(** ** Roles, isolation and the ledgers of the squads *)

(** Whether the roles table makes the member an admin of the squad. *)
Definition holds_admin (sid mid : string) (w : World) : bool :=
  match find (fun r => (role_squad_id r =? sid) && (role_member_id r =? mid)) (member_roles w) with
  | Some r => role r =? "admin"
  | None => false
  end.

Definition lookup_role (sid mid : string) (w : World) : option MemberRole :=
  find (fun r => (role_squad_id r =? sid) && (role_member_id r =? mid)) (member_roles w).

Definition lookup_member_by_name (name sid : string) (w : World) : option SquadMember :=
  option_map row
    (find (fun r => (m_name (row r) =? name) && (in_squad r =? sid) && m_is_active (row r))
          (members w)).

Definition the_member (name sid : string) (w : World) : SquadMember :=
  match lookup_member_by_name name sid w with
  | Some m => m
  | None => mkSquadMember "" "" "" "" false None
  end.

(** What the admin operations return. *)
Inductive AdminReply : Type :=
| Refused (error : string)
| Done (message : string).

(** [Orchestrator.set_member_role]; the database has a method of the same
    name, which it calls. *)
Definition orchestrator_set_member_role (sid member_name role_name admin_id : string)
  : Eng AdminReply :=
  admin <- is_admin sid admin_id ;;
  if negb admin then ret (Refused "Admin access required")
  else
    member <- get_member_by_name member_name sid ;;
    match member with
    | None => ret (Refused ("'" ^^ member_name ^^ "' is not in the squad"))
    | Some member =>
        if negb ((role_name =? "admin") || (role_name =? "member")) then
          ret (Refused "Role must be 'admin' or 'member'")
        else
          _ <- set_member_role sid (m_id member) role_name (Some admin_id) ;;
          ret (Done (member_name ^^ " is now a " ^^ role_name))
    end.

(** Ann, the admin of the default squad, has made herself a plain member. *)
Definition demoted_squad : World :=
  snd (orchestrator_set_member_role "default" "ann" "member" "id-0-000" unanimous_squad).

(** The squad a call is made for. *)
Definition squad_of (c : Call) : string :=
  match c with
  | CallJoin _ _ s => s
  | CallProposeCommit _ _ _ s => s
  | CallVote _ _ _ _ s => s
  | CallUpdateSquadSettings s _ _ => s
  end.

(** What a call made for squad [sid] in world [w0] leaves alone: [w] is the
    world it has reached. *)
Record isolated (sid : string) (w0 w : World) : Prop := mkIsolated {
  iso_messages : forall other, other <> sid -> messages_of other w = messages_of other w0;
  iso_entries : forall other, other <> sid -> entries_of other w = entries_of other w0;
  iso_members : forall other, other <> sid -> incl (members_of other w) (members_of other w0);
  iso_votes : forall other, other <> sid -> incl (votes_of other w) (votes_of other w0);
  iso_proposals : forall other, other <> sid ->
    map p_id (proposals_of other w) = map p_id (proposals_of other w0);
  iso_squads : forall other, other <> sid -> lookup_squad other w = lookup_squad other w0;
  iso_roles : member_roles w = member_roles w0;
  iso_events : exists evs, delivered w = delivered w0 ++ evs /\
                           forall e, In e evs -> ev_squad_id e = sid
}.

(** Each squad's ledger holds the versions 1..n. *)
Definition dense (w : World) : Prop :=
  forall sid, map version (entries_of sid w)
              = Squad.versions_upto (List.length (entries_of sid w)).

Definition get_context_version (sid : string) : Eng Z :=
  gets (fun w => or_zero (max_version (entries_of sid w))).

(** The version the next entry of the squad gets. *)
Definition next_version (sid : string) (w : World) : Z :=
  (or_zero (max_version (entries_of sid w)) + 1)%Z.

(** What a returning call does to the ledger: nothing, or one entry for its
    squad with that squad's next version. *)
Definition ledger_step (sid : string) (w w' : World) : Prop :=
  context_entries w' = context_entries w \/
  exists e, context_entries w' = context_entries w ++ [mkScoped sid e] /\
            version e = next_version sid w.

(** Alice's proposal is approved in alpha, then Bob's second one in beta. *)
Definition two_ledgers : World :=
  after [CallProposeCommit "alice" "Ship alpha" "agent_nominated" "alpha";
         CallVote "alice" "id-6-000" "approve" false "alpha";
         CallProposeCommit "bob" "Ship beta" "agent_nominated" "beta";
         CallVote "bob" "id-12-00" "approve" false "beta"]
        two_squads.

End SquadServer.

(** * The names of shared files ([src/squad-server/models.py]) *)

Module FileNames.

Open Scope string_scope.
Open Scope list_scope.

(** The file names of [src/squad-server/models.py].  A string is the
    sequence of its characters; a character outside the 8-bit range is in
    none of the classes below, like any other character they leave out. *)

Definition MAX_FILENAME_LENGTH : nat := 100.

Definition MAX_PATH_DEPTH : nat := 3.

Definition between (lo hi c : ascii) : bool :=
  (nat_of_ascii lo <=? nat_of_ascii c)%nat && (nat_of_ascii c <=? nat_of_ascii hi)%nat.

(** [[a-zA-Z0-9]] *)
Definition alnum (c : ascii) : bool :=
  between "a" "z" c || between "A" "Z" c || between "0" "9" c.

(** [[a-zA-Z0-9._-]] *)
Definition name_char (c : ascii) : bool :=
  alnum c || (c =? ".")%char || (c =? "_")%char || (c =? "-")%char.

Definition newline : ascii := ascii_of_nat 10.

(** [[a-zA-Z0-9._-]*$]: the dollar matches at the end of the string and just
    before a newline that ends it. *)
Fixpoint tail_matches (s : string) : bool :=
  match s with
  | EmptyString => true
  | String c rest =>
      if name_char c then tail_matches rest
      else (c =? newline)%char && (rest =? "")
  end.

(** [re.match(FILENAME_PATTERN, s)] with
    [FILENAME_PATTERN = r'^[a-zA-Z0-9][a-zA-Z0-9._-]*$']. *)
Definition matches_FILENAME_PATTERN (s : string) : bool :=
  match s with
  | EmptyString => false
  | String c rest => alnum c && tail_matches rest
  end.

(** [sub in s] *)
Fixpoint contains (sub s : string) : bool :=
  prefix sub s ||
  match s with
  | EmptyString => false
  | String _ rest => contains sub rest
  end.

Definition backslash : string := String (ascii_of_nat 92) EmptyString.

Definition validate_filename (filename : string) : bool :=
  if (filename =? "") || (MAX_FILENAME_LENGTH <? String.length filename)%nat then false
  else if negb (matches_FILENAME_PATTERN filename) then false
  else if contains ".." filename || contains "/" filename || contains backslash filename
       then false
  else true.

(** [path.rstrip('/')] *)
Fixpoint rstrip_slash (s : string) : string :=
  match s with
  | EmptyString => EmptyString
  | String c rest =>
      let r := rstrip_slash rest in
      if (c =? "/")%char && (r =? "") then EmptyString else String c r
  end.

(** [path.split('/')] *)
Fixpoint split_slash (s : string) : list string :=
  match s with
  | EmptyString => [EmptyString]
  | String c rest =>
      if (c =? "/")%char then EmptyString :: split_slash rest
      else
        match split_slash rest with
        | h :: t => String c h :: t
        | [] => [String c EmptyString]
        end
  end.

(** The loop over the parts. *)
Fixpoint valid_parts (parts : list string) : bool :=
  match parts with
  | [] => true
  | part :: rest =>
      if (part =? "") || negb (matches_FILENAME_PATTERN part) then false
      else if contains ".." part then false
      else valid_parts rest
  end.

Definition validate_path (path : string) : bool :=
  if path =? "" then true
  else
    let path := rstrip_slash path in
    if path =? "" then true
    else
      let parts := split_slash path in
      if (MAX_PATH_DEPTH <? List.length parts)%nat then false
      else valid_parts parts.

(** The characters of a string. *)
Definition chars (s : string) : list ascii := list_ascii_of_string s.

End FileNames.

(** * Facts *)

Unset Implicit Arguments.

(** ** Small facts shared by both engines *)

Lemma mem_string_false_iff (x : string) (xs : list string) :
  mem_string x xs = false <-> ~ In x xs.
Proof.
  unfold mem_string. split.
  - intros H Hin.
    assert (existsb (String.eqb x) xs = true) as E.
    { apply existsb_exists. exists x. split; [assumption | apply String.eqb_refl]. }
    congruence.
  - intros H. destruct (existsb (String.eqb x) xs) eqn:E; [| reflexivity].
    apply existsb_exists in E. destruct E as [y [Hy Hxy]].
    apply String.eqb_eq in Hxy. subst y. contradiction.
Qed.

Lemma mem_string_true_iff (x : string) (xs : list string) :
  mem_string x xs = true <-> In x xs.
Proof.
  destruct (mem_string x xs) eqn:E.
  - split; [intros _ | reflexivity].
    unfold mem_string in E. apply existsb_exists in E.
    destruct E as [y [Hy Hxy]]. apply String.eqb_eq in Hxy. now subst y.
  - apply mem_string_false_iff in E. split; [discriminate | contradiction].
Qed.

Lemma count_app {A : Type} (p : A -> bool) (xs ys : list A) :
  count p (xs ++ ys) = count p xs + count p ys.
Proof. unfold count. now rewrite filter_app, length_app. Qed.

Lemma count_le_length {A : Type} (p : A -> bool) (xs : list A) :
  count p xs <= List.length xs.
Proof. unfold count. apply filter_length_le. Qed.

Lemma count_zero_iff {A : Type} (p : A -> bool) (xs : list A) :
  count p xs = 0 <-> forall x, In x xs -> p x = false.
Proof.
  unfold count. induction xs as [| a xs IH]; simpl.
  - split; [intros _ x [] | reflexivity].
  - destruct (p a) eqn:E; simpl.
    + split; [discriminate |]. intros H. specialize (H a (or_introl eq_refl)). congruence.
    + rewrite IH. split.
      * intros H x [-> | Hx]; [assumption | now apply H].
      * intros H x Hx. apply H. now right.
Qed.

Lemma bind_inv {W A B : Type} (m : M W A) (k : A -> M W B) w b w' :
  bind m k w = (Ret b, w') -> exists a w1, m w = (Ret a, w1) /\ k a w1 = (Ret b, w').
Proof.
  unfold bind. destruct (m w) as [[a | e] w1]; intros H.
  - now exists a, w1.
  - discriminate.
Qed.

Lemma bind_fwd {W A B : Type} (m : M W A) (k : A -> M W B) w a w1 :
  m w = (Ret a, w1) -> bind m k w = k a w1.
Proof. unfold bind. now intros ->. Qed.

Lemma find_last_fresh {A : Type} (key : A -> string) (rows : list A) (x : A) :
  mem_string (key x) (map key rows) = false ->
  find (fun r => (key r =? key x)%string) (rows ++ [x]) = Some x.
Proof.
  intros H. apply mem_string_false_iff in H.
  induction rows as [| r rows IH]; simpl.
  - now rewrite String.eqb_refl.
  - destruct (key r =? key x)%string eqn:E.
    + apply String.eqb_eq in E. exfalso. apply H. left. exact E.
    + apply IH. intros Hin. apply H. right. exact Hin.
Qed.

(** * Facts about the single-squad engine *)

Module SquadFacts.

Import Squad.
Open Scope string_scope.
Open Scope list_scope.
Open Scope monad_scope.

Ltac unfold_prim H :=
  first
    [ progress unfold new_SquadMember in H | progress unfold new_Message in H
    | progress unfold new_ContextEntry in H | progress unfold new_CommitProposal in H
    | progress unfold new_Vote in H
    | progress unfold add_member in H | progress unfold remove_member in H
    | progress unfold get_member in H | progress unfold get_member_by_name in H
    | progress unfold get_active_members in H | progress unfold add_message in H
    | progress unfold add_context_entry in H | progress unfold add_commit in H
    | progress unfold update_commit_status in H | progress unfold get_commit in H
    | progress unfold add_vote in H | progress unfold get_votes_for_commit in H
    | progress unfold get_context in H | progress unfold get_context_version in H
    | progress unfold _broadcast in H ].

Ltac minv H :=
  cbv beta zeta in H;
  lazymatch type of H with
  | bind _ _ _ = (Ret _, _) =>
      let a := fresh "a" in
      let w1 := fresh "w" in
      let H1 := fresh "Hm" in
      let H2 := fresh "Hk" in
      apply bind_inv in H; destruct H as (a & w1 & H1 & H2);
      minv H1; minv H2
  | ret _ _ = _ => unfold ret in H; inversion H; subst; clear H
  | gets _ _ = _ => unfold gets in H; inversion H; subst; clear H
  | modify _ _ = _ => unfold modify in H; inversion H; subst; clear H
  | raise _ _ = _ => unfold raise in H; discriminate H
  | uuid4 _ = _ => unfold uuid4 in H; inversion H; subst; clear H
  | utcnow _ = _ => unfold utcnow in H; inversion H; subst; clear H
  | (if ?c then _ else _) _ = _ => destruct c eqn:?; minv H
  | (match ?o with Some _ => _ | None => _ end) _ = _ => destruct o eqn:?; minv H
  | (match ?l with nil => _ | cons _ _ => _ end) _ = _ => destruct l eqn:?; minv H
  | _resolve_commit _ _ _ _ = _ => idtac
  | _commit_to_context _ _ = _ => idtac
  | _evaluate_consensus _ _ = _ => idtac
  | _ => unfold_prim H; minv H
  end.


Ltac proj_simpl :=
  cbn [members messages context_entries commit_proposals votes self_consensus_mode
       delivered uuid4s nows set_members set_messages set_context_entries
       set_commit_proposals set_votes set_delivered drop_uuid drop_now
       msg_id sender_id version entry_id entry_content entry_commit_id p_id status
       with_version] in *.

(** ** What the internal steps of a vote do *)

Lemma resolve_commit_inv cid st ann w u w' :
  _resolve_commit cid st ann w = (Ret u, w') ->
  exists m t1 t2,
    members w' = members w /\
    messages w' = messages w ++ [m] /\
    context_entries w' = context_entries w /\
    commit_proposals w' = set_status cid st (nows w 0) (commit_proposals w) /\
    votes w' = votes w /\
    self_consensus_mode w' = self_consensus_mode w /\
    delivered w' = delivered w ++ [mkEvent "new_message" (OfMessage m) t1;
                                   mkEvent "commit_resolved" (OfResolved cid st) t2].
Proof.
  intros H. unfold _resolve_commit in H. minv H. proj_simpl.
  eexists _, _, _. repeat split; try reflexivity.
  rewrite <- app_assoc. reflexivity.
Qed.

Lemma commit_to_context_inv p w u w' :
  _commit_to_context p w = (Ret u, w') ->
  exists e m t t1 t2 t3,
    members w' = members w /\
    messages w' = messages w ++ [m] /\
    context_entries w' = context_entries w ++ [e] /\
    version e = (currentVersion w + 1)%Z /\
    (version e <= sqlite_max_int)%Z /\
    entry_commit_id e = p_id p /\
    entry_content e = p_content p /\
    ~ In (entry_id e) (map entry_id (context_entries w)) /\
    commit_proposals w' = set_status (p_id p) "approved" t (commit_proposals w) /\
    votes w' = votes w /\
    self_consensus_mode w' = self_consensus_mode w /\
    delivered w' = delivered w ++ [mkEvent "new_message" (OfMessage m) t1]
                   ++ [mkEvent "commit_resolved" (OfResolved (p_id p) "approved") t2;
                       mkEvent "context_updated" (OfEntry e) t3].
Proof.
  intros H. unfold _commit_to_context in H.
  apply bind_inv in H. destruct H as (a & w1 & H1 & H).
  minv H1.
  apply bind_inv in H. destruct H as (e0 & w2 & H2 & H).
  minv H2.
  apply bind_inv in H. destruct H as (e & w3 & H3 & H).
  minv H3.
  apply bind_inv in H. destruct H as (u1 & w4 & H4 & H).
  apply resolve_commit_inv in H4.
  destruct H4 as (m & t1 & t2 & Hmem & Hmsg & Hctx & Hprop & Hvotes & Hmode & Hdel).
  minv H. proj_simpl.
  exists (mkContextEntry (first8 (uuid4s w 0)) (p_content p) (nows w 1) (proposed_by_name p)
            (p_origin p) (p_id p) (currentVersion w + 1)%Z).
  eexists m, _, t1, t2, _.
  rewrite Hmem, Hmsg, Hctx, Hprop, Hvotes, Hmode, Hdel. proj_simpl.
  repeat split; try reflexivity.
  - apply Z.ltb_ge. assumption.
  - apply mem_string_false_iff. assumption.
  - rewrite <- !app_assoc. reflexivity.
Qed.

Ltac use_inner :=
  repeat match goal with
  | H : _resolve_commit _ _ _ _ = (Ret _, _) |- _ =>
      apply resolve_commit_inv in H;
      destruct H as (?m & ?t1 & ?t2 & H)
  | H : _commit_to_context _ _ = (Ret _, _) |- _ =>
      apply commit_to_context_inv in H
  end.

Lemma evaluate_consensus_inv cid w r w' :
  _evaluate_consensus cid w = (Ret r, w') ->
  (exists a b c d, r = StillPending a b c d /\ w' = w) \/
  (exists reason, r = Resolved "rejected" reason /\ closes cid "rejected" w w') \/
  (exists reason p, r = Resolved "approved" reason /\ lookup_commit cid w = Some p /\
                    ratifies p w w').
Proof.
  intros H. unfold _evaluate_consensus in H. minv H.
  all: use_inner.
  all: try (left; eexists _, _, _, _; split; reflexivity).
  all: try (right; left; eexists; split; [reflexivity |]; unfold closes; eauto 10).
  all: right; right; eexists _, _; split; [reflexivity |]; split; [eassumption |];
       unfold ratifies; assumption.
Qed.

Lemma vote_inv n c ch h w r w' :
  vote n c ch h w = (Ret r, w') ->
  (exists err, r = Failure err /\ w' = w) \/
  (exists m p v res w1,
      lookup_member_by_name n w = Some m /\
      lookup_commit c w = Some p /\
      status p = "pending" /\
      valid_choice ch = true /\
      r = Voted v res /\
      v = mkVote (first8 (uuid4s w 0)) c (m_id m) n ch h (nows w 0) /\
      records v w w1 /\
      _evaluate_consensus c w1 = (Ret res, w')).
Proof.
  intros H. unfold vote in H. minv H.
  all: try (left; eexists; split; reflexivity).
  right.
  match goal with
  | H : _evaluate_consensus _ ?w1 = _ |- _ =>
      eexists _, _, _, _, w1; repeat split; try eassumption; try reflexivity
  end.
  - apply negb_false_iff in Heqb. apply String.eqb_eq in Heqb. assumption.
  - apply negb_false_iff in Heqb0. assumption.
  - unfold records. eexists _, _, _. proj_simpl. repeat split; try reflexivity.
    rewrite <- app_assoc. reflexivity.
Qed.

(** ** Every returning call is one of the four transitions *)


(** ** Every returning call is one of the four transitions *)

Ltac delivered_eq :=
  first [ symmetry; apply app_nil_r
        | rewrite <- ?app_assoc; reflexivity ].

Ltac quiet_case :=
  eapply quiet_step; proj_simpl;
  [ reflexivity | reflexivity | delivered_eq | reflexivity ].

Lemma join_transition name model w r w' :
  join name model w = (Ret r, w') -> transition w w'.
Proof. intros H. unfold join in H. minv H; quiet_case. Qed.

Lemma leave_transition name w r w' :
  leave name w = (Ret r, w') -> transition w w'.
Proof. intros H. unfold leave in H. minv H; quiet_case. Qed.

Lemma send_message_transition s c t rt w r w' :
  send_message s c t rt w = (Ret r, w') -> transition w w'.
Proof. intros H. unfold send_message in H. minv H; quiet_case. Qed.

Lemma propose_commit_transition n c o w r w' :
  propose_commit n c o w = (Ret r, w') -> transition w w'.
Proof.
  intros H. unfold propose_commit in H. minv H.
  - quiet_case.
  - eapply opening_step; proj_simpl;
      [ reflexivity | reflexivity | reflexivity | reflexivity
      | apply mem_string_false_iff; assumption | reflexivity | delivered_eq | reflexivity ].
Qed.

Lemma lookup_commit_id cid w p : lookup_commit cid w = Some p -> p_id p = cid.
Proof.
  unfold lookup_commit. intros H. apply find_some in H. destruct H as [_ E].
  now apply String.eqb_eq in E.
Qed.

Lemma lookup_commit_In cid w p : lookup_commit cid w = Some p -> In p (commit_proposals w).
Proof. unfold lookup_commit. intros H. now apply find_some in H. Qed.

Lemma vote_transition n c ch h w r w' :
  vote n c ch h w = (Ret r, w') -> transition w w'.
Proof.
  intros H. apply vote_inv in H.
  destruct H as [(err & -> & ->) | (m & p & v & res & w1 & Hm & Hp & Hst & Hch & -> & Hv & Hrec & Hev)].
  - quiet_case.
  - destruct Hrec as (msg & t1 & t2 & Rid & Rmem & Rmsg & Rctx & Rprop & Rvotes & Rmode & Rdel).
    apply evaluate_consensus_inv in Hev.
    destruct Hev as [(a & b & c0 & d & _ & ->) | [(reason & _ & Hc) | (reason & p' & _ & Hp' & Hr)]].
    + eapply quiet_step; [eassumption | eassumption | eassumption | reflexivity].
    + destruct Hc as (m' & t & t1' & t2' & Cmem & Cmsg & Cctx & Cprop & Cvotes & Cmode & Cdel).
      apply rejecting_step with (cid := c) (p := p) (t := t) (t' := t2')
        (evs := [mkEvent "new_message" (OfMessage msg) t1; mkEvent "vote_cast" (OfVote v) t2;
                 mkEvent "new_message" (OfMessage m') t1']).
      * assumption.
      * assumption.
      * rewrite Cprop, Rprop. reflexivity.
      * congruence.
      * rewrite Cdel, Rdel. rewrite <- !app_assoc. reflexivity.
      * reflexivity.
    + unfold lookup_commit in Hp'. rewrite Rprop in Hp'. fold (lookup_commit c w) in Hp'.
      assert (p' = p) by congruence. subst p'.
      pose proof Hp as Hid. apply lookup_commit_id in Hid.
      destruct Hr as (e & m' & t & t1' & t2' & t3' & Cmem & Cmsg & Cctx & Cver & Cmax & Ccid & Ccont
                      & Cfresh & Cprop & Cvotes & Cmode & Cdel).
      apply ratifying_step with (cid := c) (p := p) (e := e) (t := t) (t' := t2') (t'' := t3')
        (evs := [mkEvent "new_message" (OfMessage msg) t1; mkEvent "vote_cast" (OfVote v) t2;
                 mkEvent "new_message" (OfMessage m') t1']).
      * assumption.
      * assumption.
      * rewrite Cprop, Rprop, Hid. reflexivity.
      * rewrite Cctx, Rctx. reflexivity.
      * rewrite Cver. unfold currentVersion. rewrite Rctx. reflexivity.
      * assumption.
      * congruence.
      * assumption.
      * rewrite <- Rctx. assumption.
      * rewrite Cdel, Rdel, Hid. rewrite <- !app_assoc. reflexivity.
      * reflexivity.
Qed.

Lemma run_transition c w r w' :
  run c w = (Ret r, w') -> transition w w'.
Proof.
  destruct c; simpl; intros H.
  - eapply join_transition; eassumption.
  - eapply leave_transition; eassumption.
  - eapply send_message_transition; eassumption.
  - eapply propose_commit_transition; eassumption.
  - eapply vote_transition; eassumption.
Qed.

(** ** The invariant of the proposals, the ledger and the events *)

Lemma quiet_no_resolution cid evs :
  forallb quiet_event evs = true -> count (is_resolution_of cid) evs = 0.
Proof.
  intros H. apply count_zero_iff. intros e He.
  rewrite forallb_forall in H. specialize (H e He).
  unfold quiet_event in H. unfold is_resolution_of.
  destruct (ev_data e); try discriminate; now rewrite andb_false_r.
Qed.

Lemma set_status_ids cid st t rows :
  map p_id (set_status cid st t rows) = map p_id rows.
Proof.
  unfold set_status. rewrite map_map. apply map_ext. intros r.
  destruct (p_id r =? cid); reflexivity.
Qed.

Lemma In_set_status cid st t rows p' :
  In p' (set_status cid st t rows) ->
  exists q, In q rows /\ p' = if p_id q =? cid then with_status q st t else q.
Proof.
  unfold set_status. intros H. apply in_map_iff in H. destruct H as (q & E & Hq).
  exists q. split; [assumption | now symmetry].
Qed.

Lemma NoDup_map_eq {A B : Type} (f : A -> B) (l : list A) x y :
  NoDup (map f l) -> In x l -> In y l -> f x = f y -> x = y.
Proof.
  induction l as [| a l IH]; simpl; intros Hnd Hx Hy E; [contradiction |].
  inversion Hnd as [| ? ? Hnotin Hnd']; subst.
  destruct Hx as [-> | Hx], Hy as [-> | Hy].
  - reflexivity.
  - exfalso. apply Hnotin. rewrite E. now apply in_map.
  - exfalso. apply Hnotin. rewrite <- E. now apply in_map.
  - now apply IH.
Qed.

Lemma versions_upto_S n : versions_upto (S n) = versions_upto n ++ [Z.of_nat (S n)].
Proof. unfold versions_upto. rewrite seq_S, map_app. reflexivity. Qed.

Lemma max_version_seq rows : forall a,
  map version rows = map Z.of_nat (seq a (List.length rows)) ->
  max_version rows = match rows with
                     | [] => None
                     | _ :: _ => Some (Z.of_nat (a + List.length rows - 1))
                     end.
Proof.
  induction rows as [| r rest IH]; intros a H; [reflexivity |].
  simpl in H. injection H as Hr Hrest.
  simpl. rewrite (IH (S a) Hrest). destruct rest as [| r' rest'].
  - rewrite Hr. f_equal. f_equal. simpl. lia.
  - rewrite Hr. f_equal. simpl List.length. lia.
Qed.

Lemma currentVersion_dense w :
  map version (context_entries w) = versions_upto (List.length (context_entries w)) ->
  currentVersion w = Z.of_nat (List.length (context_entries w)).
Proof.
  intros H. unfold currentVersion, versions_upto in *.
  rewrite (max_version_seq _ 1 H). destruct (context_entries w) as [| r rest]; [reflexivity |].
  unfold or_zero. simpl List.length.
  replace (1 + S (List.length rest) - 1) with (S (List.length rest)) by lia.
  destruct (Z.of_nat (S (List.length rest)) =? 0)%Z eqn:E; [| reflexivity].
  apply Z.eqb_eq in E. lia.
Qed.

Lemma resolutions_app cid w w' evs :
  delivered w' = delivered w ++ evs ->
  resolutions cid w' = resolutions cid w + count (is_resolution_of cid) evs.
Proof. unfold resolutions. intros ->. apply count_app. Qed.

Lemma fresh_consistent mode uuids clock : consistent (fresh mode uuids clock).
Proof.
  constructor; simpl.
  - constructor.
  - intros p [].
  - intros p [].
  - intros cid _. reflexivity.
  - reflexivity.
  - intros p [].
  - intros e [].
Qed.

Lemma is_resolution_of_resolved cid c st t :
  is_resolution_of cid (mkEvent "commit_resolved" (OfResolved c st) t) = (c =? cid).
Proof. reflexivity. Qed.

Lemma closing_keeps_proposals w w' cid p st t evs t' tail :
  consistent w ->
  lookup_commit cid w = Some p ->
  status p = "pending" ->
  st = "approved" \/ st = "rejected" ->
  commit_proposals w' = set_status cid st t (commit_proposals w) ->
  delivered w' = delivered w ++ evs ++ mkEvent "commit_resolved" (OfResolved cid st) t' :: tail ->
  forallb quiet_event evs = true ->
  (forall c, count (is_resolution_of c) tail = 0) ->
  NoDup (map p_id (commit_proposals w')) /\
  (forall q, In q (commit_proposals w') ->
     status q = "pending" \/ status q = "approved" \/ status q = "rejected") /\
  (forall q, In q (commit_proposals w') ->
     resolutions (p_id q) w' = if status q =? "pending" then 0 else 1) /\
  (forall c, ~ In c (map p_id (commit_proposals w')) -> resolutions c w' = 0).
Proof.
  intros [I1 I2 I3 I4 _ _ _] Hp Hst Hterm Hprops Hdel Hquiet Htail.
  pose proof (lookup_commit_In _ _ _ Hp) as Hin.
  pose proof (lookup_commit_id _ _ _ Hp) as Hid.
  assert (forall c, resolutions c w' = resolutions c w + (if cid =? c then 1 else 0)) as Hres.
  { intros c. rewrite (resolutions_app c _ _ _ Hdel).
    rewrite count_app, (quiet_no_resolution c _ Hquiet).
    change (mkEvent "commit_resolved" (OfResolved cid st) t' :: tail)
      with ([mkEvent "commit_resolved" (OfResolved cid st) t'] ++ tail).
    rewrite count_app, Htail. unfold count at 1. simpl filter.
    rewrite is_resolution_of_resolved. destruct (cid =? c); simpl; lia. }
  assert ((st =? "pending") = false) as Hnp.
  { destruct Hterm as [-> | ->]; reflexivity. }
  repeat split.
  - rewrite Hprops, set_status_ids. exact I1.
  - intros q Hq. rewrite Hprops in Hq. apply In_set_status in Hq.
    destruct Hq as (q0 & Hq0 & ->). destruct (p_id q0 =? cid).
    + simpl. destruct Hterm as [-> | ->]; auto.
    + now apply I2.
  - intros q Hq. rewrite Hprops in Hq. apply In_set_status in Hq.
    destruct Hq as (q0 & Hq0 & ->). rewrite Hres.
    destruct (p_id q0 =? cid) eqn:E.
    + apply String.eqb_eq in E.
      assert (q0 = p) as -> by (apply (NoDup_map_eq p_id _ _ _ I1 Hq0 Hin); congruence).
      simpl. rewrite Hnp. rewrite (I3 p Hin), Hst. simpl.
      rewrite <- Hid, String.eqb_refl. reflexivity.
    + rewrite (String.eqb_sym cid (p_id q0)), E, Nat.add_0_r. now apply I3.
  - intros c Hc. rewrite Hprops, set_status_ids in Hc. rewrite Hres.
    destruct (cid =? c) eqn:E.
    + apply String.eqb_eq in E. subst c. exfalso. apply Hc.
      rewrite <- Hid. now apply in_map.
    + rewrite Nat.add_0_r. now apply I4.
Qed.

Lemma filter_none {A : Type} (f : A -> bool) (l : list A) :
  (forall x, In x l -> f x = false) -> filter f l = [].
Proof.
  induction l as [| a l IH]; simpl; intros H; [reflexivity |].
  rewrite (H a (or_introl eq_refl)). apply IH. intros x Hx. apply H. now right.
Qed.

Lemma transition_consistent w w' :
  transition w w' -> consistent w -> consistent w'.
Proof.
  intros T C. destruct T as
    [ evs Hp Hc Hd Hq
    | p evs Hp Hst Hmode Htime Hfresh Hc Hd Hq
    | cid p t evs t' Hlk Hst Hp Hc Hd Hq
    | cid p t e evs t' t'' Hlk Hst Hp Hc Hver Hmax Hcid Hcont Hefresh Hd Hq ].
  - (* nothing resolved *)
    destruct C as [I1 I2 I3 I4 I5 I6 I7].
    assert (forall c, resolutions c w' = resolutions c w) as Hres.
    { intros c. rewrite (resolutions_app c _ _ _ Hd), (quiet_no_resolution c _ Hq). lia. }
    constructor; rewrite ?Hp, ?Hc; try assumption.
    + intros q Hq'. rewrite Hres. now apply I3.
    + intros c Hc'. rewrite Hres. now apply I4.
  - (* a proposal opened *)
    destruct C as [I1 I2 I3 I4 I5 I6 I7].
    assert (forall c, resolutions c w' = resolutions c w) as Hres.
    { intros c. rewrite (resolutions_app c _ _ _ Hd), (quiet_no_resolution c _ Hq). lia. }
    constructor; rewrite ?Hp, ?Hc; try assumption.
    + rewrite map_app. simpl. apply NoDup_app; [assumption | repeat constructor; intros [] |].
      intros x Hx [<- | []]. contradiction.
    + intros q Hq'. apply in_app_or in Hq'. destruct Hq' as [Hq' | [<- | []]]; [now apply I2 | auto].
    + intros q Hq'. rewrite Hres. apply in_app_or in Hq'.
      destruct Hq' as [Hq' | [<- | []]]; [now apply I3 |].
      rewrite Hst. simpl. now apply I4.
    + intros c Hc'. rewrite Hres. apply I4. intros Hin. apply Hc'.
      rewrite map_app. apply in_or_app. now left.
    + intros q Hq'. apply in_app_or in Hq'. destruct Hq' as [Hq' | [<- | []]]; [now apply I6 |].
      rewrite Hst. simpl. rewrite filter_none; [reflexivity |].
      intros e He. apply String.eqb_neq. intros E. apply Hfresh. rewrite <- E. now apply I7.
    + intros e He. rewrite map_app. apply in_or_app. left. now apply I7.
  - (* a proposal rejected *)
    pose proof (closing_keeps_proposals w w' cid p _ t evs t' [] C Hlk Hst (or_intror eq_refl) Hp Hd Hq
                  (fun c => eq_refl)) as (K1 & K2 & K3 & K4).
    destruct C as [I1 I2 I3 I4 I5 I6 I7].
    pose proof (lookup_commit_In _ _ _ Hlk) as Hin.
    constructor; try assumption.
    + rewrite Hc. assumption.
    + intros q Hq'. rewrite Hp in Hq'. apply In_set_status in Hq'.
      destruct Hq' as (q0 & Hq0 & ->). rewrite Hc.
      destruct (p_id q0 =? cid) eqn:E.
      * apply String.eqb_eq in E.
        assert (q0 = p) as -> by
          (apply (NoDup_map_eq p_id _ _ _ I1 Hq0 Hin); rewrite E; symmetry;
           now apply lookup_commit_id with (w := w)).
        simpl. rewrite (I6 p Hin), Hst. reflexivity.
      * now apply I6.
    + intros e He. rewrite Hc in He. rewrite Hp, set_status_ids. now apply I7.
  - (* a proposal approved and written to the ledger *)
    assert (mkEvent "commit_resolved" (OfResolved cid "approved") t'
            :: [mkEvent "context_updated" (OfEntry e) t'']
            = [mkEvent "commit_resolved" (OfResolved cid "approved") t';
               mkEvent "context_updated" (OfEntry e) t'']) as Hshape by reflexivity.
    pose proof (closing_keeps_proposals w w' cid p _ t evs t'
                  [mkEvent "context_updated" (OfEntry e) t'']
                  C Hlk Hst (or_introl eq_refl) Hp Hd Hq (fun c => eq_refl)) as (K1 & K2 & K3 & K4).
    pose proof (currentVersion_dense w (versions_dense C)) as Hcur.
    destruct C as [I1 I2 I3 I4 I5 I6 I7].
    pose proof (lookup_commit_In _ _ _ Hlk) as Hin.
    pose proof (lookup_commit_id _ _ _ Hlk) as Hid.
    constructor; try assumption.
    + rewrite Hc, map_app, length_app, I5. simpl.
      rewrite Nat.add_1_r, versions_upto_S. f_equal. f_equal.
      rewrite Hver, Hcur. lia.
    + intros q Hq'. rewrite Hp in Hq'. apply In_set_status in Hq'.
      destruct Hq' as (q0 & Hq0 & ->). rewrite Hc, filter_app, map_app.
      destruct (p_id q0 =? cid) eqn:E.
      * apply String.eqb_eq in E.
        assert (q0 = p) as -> by (apply (NoDup_map_eq p_id _ _ _ I1 Hq0 Hin); congruence).
        simpl. rewrite (I6 p Hin), Hst. simpl.
        rewrite Hcid, Hid, String.eqb_refl. simpl. now rewrite Hcont.
      * rewrite (I6 q0 Hq0). simpl. rewrite Hcid, (String.eqb_sym cid (p_id q0)), E. simpl.
        now rewrite app_nil_r.
    + intros e0 He. rewrite Hc in He. rewrite Hp, set_status_ids.
      apply in_app_or in He. destruct He as [He | [<- | []]]; [now apply I7 |].
      rewrite Hcid, <- Hid. now apply in_map.
Qed.

Theorem reachable_consistent w : reachable w -> consistent w.
Proof.
  induction 1 as [mode uuids clock | w c r w' _ IH Hrun].
  - apply fresh_consistent.
  - eapply transition_consistent; [eapply run_transition; eassumption | assumption].
Qed.

(** ** Running forward *)

Lemma add_message_eq msg w :
  mem_string (msg_id msg) (map msg_id (messages w)) = false ->
  add_message msg w = (Ret msg, set_messages (fun rows => rows ++ [msg]) w).
Proof. intros H. unfold add_message, bind, gets. rewrite H. reflexivity. Qed.

Lemma add_context_entry_eq e w :
  (currentVersion w < sqlite_max_int)%Z ->
  mem_string (entry_id e) (map entry_id (context_entries w)) = false ->
  add_context_entry e w =
  (Ret (with_version e (currentVersion w + 1)),
   set_context_entries (fun rows => rows ++ [with_version e (currentVersion w + 1)]) w).
Proof.
  intros Hv H. unfold add_context_entry, bind, gets. fold (currentVersion w).
  cbv zeta. cbn [version with_version entry_id].
  assert ((sqlite_max_int <? currentVersion w + 1)%Z = false) as -> by (apply Z.ltb_ge; lia).
  rewrite H. reflexivity.
Qed.

Ltac step := erewrite bind_fwd by reflexivity; cbv beta iota zeta.
Ltac step_by tac := erewrite bind_fwd by tac; cbv beta iota zeta.

Lemma resolve_commit_returns cid st ann w :
  mem_string (uuid4s w 0) (map msg_id (messages w)) = false ->
  exists w', _resolve_commit cid st ann w = (Ret tt, w') /\
             (forall n, uuid4s w' n = uuid4s w (S n)).
Proof.
  intros Hfresh. unfold _resolve_commit.
  step. step. step. step_by ltac:(apply add_message_eq; exact Hfresh). step.
  eexists. split; [reflexivity |]. intros n. reflexivity.
Qed.

Lemma commit_to_context_returns p w :
  mem_string (first8 (uuid4s w 0)) (map entry_id (context_entries w)) = false ->
  (currentVersion w < sqlite_max_int)%Z ->
  mem_string (uuid4s w 1) (map msg_id (messages w)) = false ->
  exists w', _commit_to_context p w = (Ret tt, w').
Proof.
  intros Hentry Hver Hmsg. unfold _commit_to_context.
  step. step.
  step_by ltac:(apply add_context_entry_eq; [exact Hver | exact Hentry]).
  match goal with
  | |- context [bind (_resolve_commit ?c ?s ?a) ?k ?w1] =>
      destruct (resolve_commit_returns c s a w1 Hmsg) as (w' & Hw' & _)
  end.
  step_by ltac:(exact Hw').
  eexists. reflexivity.
Qed.

(** ** The status after a resolution *)

Lemma find_set_status cid c st t rows :
  find (fun r => p_id r =? cid) (set_status c st t rows)
  = option_map (fun q => if p_id q =? c then with_status q st t else q)
               (find (fun r => p_id r =? cid) rows).
Proof.
  unfold set_status. induction rows as [| r rows IH]; [reflexivity |].
  simpl. destruct (p_id r =? c) eqn:E1; cbn [p_id with_status];
    destruct (p_id r =? cid) eqn:E2; simpl; rewrite ?E1; auto.
Qed.

Lemma closes_status cid st w w' p :
  lookup_commit cid w = Some p -> closes cid st w w' -> status_of cid w' = Some st.
Proof.
  intros Hp (m & t & t1 & t2 & _ & _ & _ & Hprops & _).
  unfold status_of, lookup_commit in *. rewrite Hprops, find_set_status, Hp. simpl.
  apply find_some in Hp. destruct Hp as [_ E]. rewrite E. reflexivity.
Qed.

Lemma ratifies_status cid w w' p :
  lookup_commit cid w = Some p -> ratifies p w w' -> status_of cid w' = Some "approved".
Proof.
  intros Hp (e & m & t & t1 & t2 & t3 & _ & _ & _ & _ & _ & _ & _ & _ & Hprops & _).
  unfold status_of, lookup_commit in *. rewrite Hprops, find_set_status, Hp. simpl.
  rewrite String.eqb_refl. reflexivity.
Qed.

(** ** The three branches taken by an evaluation that resolves *)

Lemma evaluate_rejects cid w reason ann p :
  _evaluate_consensus cid w
  = (_resolve_commit cid "rejected" ann ;; ret (Resolved "rejected" reason)) w ->
  lookup_commit cid w = Some p ->
  mem_string (uuid4s w 0) (map msg_id (messages w)) = false ->
  exists w', _evaluate_consensus cid w = (Ret (Resolved "rejected" reason), w') /\
             status_of cid w' = Some "rejected" /\ closes cid "rejected" w w'.
Proof.
  intros Heq Hp Hfresh. rewrite Heq.
  destruct (resolve_commit_returns cid "rejected" ann w Hfresh) as (w' & Hw' & _).
  assert (closes cid "rejected" w w') as Hc.
  { pose proof Hw' as H. apply resolve_commit_inv in H. destruct H as (m & t1 & t2 & H).
    exists m, (nows w 0), t1, t2. exact H. }
  exists w'. split; [| split].
  - erewrite bind_fwd by exact Hw'. reflexivity.
  - eapply closes_status; [exact Hp | exact Hc].
  - exact Hc.
Qed.

Lemma evaluate_approves cid w reason p :
  _evaluate_consensus cid w = (_commit_to_context p ;; ret (Resolved "approved" reason)) w ->
  lookup_commit cid w = Some p ->
  storage_ready w ->
  exists w', _evaluate_consensus cid w = (Ret (Resolved "approved" reason), w') /\
             status_of cid w' = Some "approved" /\ ratifies p w w'.
Proof.
  intros Heq Hp (_ & Hm1 & He & Hv). rewrite Heq.
  destruct (commit_to_context_returns p w He Hv Hm1) as (w' & Hw').
  exists w'. split; [| split].
  - erewrite bind_fwd by exact Hw'. reflexivity.
  - eapply ratifies_status; [exact Hp |]. apply commit_to_context_inv in Hw'. exact Hw'.
  - apply commit_to_context_inv in Hw'. exact Hw'.
Qed.

Lemma evaluate_start cid w :
  _evaluate_consensus cid w =
  (let proposal := lookup_commit cid w in
   let votes := votes_for cid w in
   let total_eligible := List.length (active_members w) in
   let total_voted := List.length votes in
   let approvals := approvals_of cid w in
   let rejections := rejections_of cid w in
   match vetoes_of cid w with
   | _ :: _ =>
       _resolve_commit cid "rejected"
         ("🚫 Commit `" ^^ cid ^^ "` **rejected** — human veto by "
          ^^ join_comma (map voter_name (vetoes_of cid w))) ;;
       ret (Resolved "rejected" "human_veto")
   | [] =>
       match proposal with
       | None => raise AttributeError
       | Some proposal =>
           let mode := consensus_mode proposal in
           let pending := StillPending total_voted total_eligible approvals rejections in
           if mode =? "unanimous" then
             if (0 <? rejections)%nat then
               _resolve_commit cid "rejected"
                 ("🚫 Commit `" ^^ cid ^^ "` **rejected** (unanimous required, got "
                  ^^ str_nat rejections ^^ " rejection(s))") ;;
               ret (Resolved "rejected" "not_unanimous")
             else if (approvals =? total_eligible)%nat then
               _commit_to_context proposal ;;
               ret (Resolved "approved" "unanimous")
             else ret pending
           else if mode =? "majority" then
             if (total_eligible <=? total_voted)%nat then
               if exceeds_half approvals total_eligible then
                 _commit_to_context proposal ;;
                 ret (Resolved "approved"
                        ("majority (" ^^ str_nat approvals ^^ "/" ^^ str_nat total_eligible ^^ ")"))
               else
                 _resolve_commit cid "rejected"
                   ("🚫 Commit `" ^^ cid ^^ "` **rejected** (" ^^ str_nat approvals ^^ "/"
                    ^^ str_nat total_eligible ^^ " approved, majority needed)") ;;
                 ret (Resolved "rejected" "no_majority")
             else if exceeds_half approvals total_eligible then
               _commit_to_context proposal ;;
               ret (Resolved "approved"
                      ("early_majority (" ^^ str_nat approvals ^^ "/" ^^ str_nat total_eligible ^^ ")"))
             else ret pending
           else if mode =? "no_objection" then
             if (0 <? rejections)%nat then
               _resolve_commit cid "rejected"
                 ("🚫 Commit `" ^^ cid ^^ "` **rejected** (objection raised)") ;;
               ret (Resolved "rejected" "objection_raised")
             else ret pending
           else ret pending
       end
   end) w.
Proof. reflexivity. Qed.

(** ** Counting voters *)

Lemma NoDup_map_filter {A B : Type} (f : A -> B) (g : A -> bool) (l : list A) :
  NoDup (map f l) -> NoDup (map f (filter g l)).
Proof.
  induction l as [| a l IH]; simpl; intros H; [constructor |].
  inversion H as [| ? ? Hnotin Hnd]; subst.
  destruct (g a); simpl; [| now apply IH].
  constructor; [| now apply IH].
  intros Hin. apply Hnotin. apply in_map_iff in Hin. destruct Hin as (x & E & Hx).
  apply filter_In in Hx. destruct Hx as [Hx _]. rewrite <- E. now apply in_map.
Qed.

Lemma everyone_voted_count cid w :
  roster_ok w -> everyone_voted cid w = true ->
  List.length (active_members w) <= List.length (votes_for cid w).
Proof.
  intros [_ Hids] Hall.
  rewrite <- (length_map m_id (active_members w)), <- (length_map voter_id (votes_for cid w)).
  apply NoDup_incl_length.
  - unfold active_members. now apply NoDup_map_filter.
  - intros i Hi. apply in_map_iff in Hi. destruct Hi as (m & <- & Hm).
    unfold everyone_voted in Hall. rewrite forallb_forall in Hall. specialize (Hall m Hm).
    apply existsb_exists in Hall. destruct Hall as (v & Hv & E).
    apply String.eqb_eq in E. rewrite <- E. now apply in_map.
Qed.

(** C2: in majority mode, with no human veto among the votes, an evaluation
    approves as soon as the approvals strictly exceed half the members active
    at that moment, whether or not all the votes are in; once every active
    member has voted it resolves, approved exactly when the approvals
    strictly exceed that half and rejected with reason no_majority otherwise
    (an exact half is a rejection). *)
Theorem majority_rule cid w p :
  roster_ok w ->
  lookup_commit cid w = Some p ->
  consensus_mode p = "majority" ->
  vetoes_of cid w = [] ->
  storage_ready w ->
  let n := List.length (active_members w) in
  let a := approvals_of cid w in
  (n < 2 * a ->
     exists reason w',
       _evaluate_consensus cid w = (Ret (Resolved "approved" reason), w') /\
       status_of cid w' = Some "approved" /\
       reason = (if (n <=? List.length (votes_for cid w))%nat then "majority (" else "early_majority (")
                ^^ str_nat a ^^ "/" ^^ str_nat n ^^ ")") /\
  (everyone_voted cid w = true ->
     exists st reason w',
       _evaluate_consensus cid w = (Ret (Resolved st reason), w') /\
       status_of cid w' = Some st /\
       (st = "approved" <-> n < 2 * a) /\
       (2 * a <= n -> st = "rejected" /\ reason = "no_majority")).
Proof.
  intros Hroster Hp Hmode Hveto Hready n a.
  assert (forall b : bool, exceeds_half a n = b ->
          (n <=? List.length (votes_for cid w))%nat = true \/ b = true ->
          exists st reason w',
            _evaluate_consensus cid w = (Ret (Resolved st reason), w') /\
            status_of cid w' = Some st /\
            st = (if b then "approved" else "rejected") /\
            reason = (if b
                      then (if (n <=? List.length (votes_for cid w))%nat
                            then "majority (" else "early_majority (")
                           ^^ str_nat a ^^ "/" ^^ str_nat n ^^ ")"
                      else "no_majority")) as Hcases.
  { intros b Hb Hor.
    destruct b.
    - destruct (evaluate_approves cid w
                  ((if (n <=? List.length (votes_for cid w))%nat
                    then "majority (" else "early_majority (")
                   ^^ str_nat a ^^ "/" ^^ str_nat n ^^ ")") p) as (w' & Hw' & Hs & _).
      + rewrite evaluate_start. cbv zeta. rewrite Hveto, Hp, Hmode.
        fold n. fold a. rewrite Hb.
        destruct (n <=? List.length (votes_for cid w))%nat; reflexivity.
      + exact Hp.
      + exact Hready.
      + eauto 10.
    - destruct Hor as [Hall | Hf]; [| discriminate].
      destruct (evaluate_rejects cid w "no_majority"
                  ("🚫 Commit `" ^^ cid ^^ "` **rejected** (" ^^ str_nat a ^^ "/"
                   ^^ str_nat n ^^ " approved, majority needed)") p) as (w' & Hw' & Hs & _).
      + rewrite evaluate_start. cbv zeta. rewrite Hveto, Hp, Hmode.
        fold n. fold a. rewrite Hb, Hall. reflexivity.
      + exact Hp.
      + exact (proj1 Hready).
      + eauto 10. }
  split.
  - intros Hlt.
    destruct (Hcases true) as (st & reason & w' & Hev & Hs & -> & ->).
    + apply Nat.ltb_lt. exact Hlt.
    + now right.
    + eauto.
  - intros Hall.
    pose proof (everyone_voted_count cid w Hroster Hall) as Hcount.
    apply Nat.leb_le in Hcount. fold n in Hcount.
    destruct (Hcases (exceeds_half a n) eq_refl (or_introl Hcount))
      as (st & reason & w' & Hev & Hs & Hst & Hreason).
    exists st, reason, w'.
    destruct (exceeds_half a n) eqn:Hb; subst st reason.
    + apply Nat.ltb_lt in Hb.
      repeat split; try eassumption; try lia; intros; exfalso; lia.
    + apply Nat.ltb_ge in Hb.
      repeat split; try eassumption; try discriminate; intros; exfalso; lia.
Qed.

Lemma no_rejection_no_veto cid w :
  rejections_of cid w = 0 -> vetoes_of cid w = [].
Proof.
  unfold rejections_of, vetoes_of. intros H. apply filter_none. intros v Hv.
  rewrite count_zero_iff in H. unfold is_human_rejection. now rewrite (H v Hv).
Qed.

Lemma evaluate_with_rejection cid w p mode_reason ann :
  lookup_commit cid w = Some p ->
  storage_ready w ->
  (vetoes_of cid w = [] ->
   _evaluate_consensus cid w
   = (_resolve_commit cid "rejected" ann ;; ret (Resolved "rejected" mode_reason)) w) ->
  exists w', _evaluate_consensus cid w
             = (Ret (Resolved "rejected" (rejection_reason mode_reason cid w)), w') /\
             status_of cid w' = Some "rejected".
Proof.
  intros Hp Hready Hmode. unfold rejection_reason.
  destruct (vetoes_of cid w) as [| v vs] eqn:Hv.
  - destruct (evaluate_rejects cid w mode_reason ann p (Hmode eq_refl) Hp (proj1 Hready))
      as (w' & Hw' & Hs & _).
    eauto.
  - destruct (evaluate_rejects cid w "human_veto"
                ("🚫 Commit `" ^^ cid ^^ "` **rejected** — human veto by "
                 ^^ join_comma (map voter_name (vetoes_of cid w))) p) as (w' & Hw' & Hs & _).
    + rewrite evaluate_start. cbv zeta. rewrite Hv. reflexivity.
    + exact Hp.
    + exact (proj1 Hready).
    + eauto.
Qed.

(** C3: in unanimous mode a rejection among the votes resolves the proposal
    rejected, with reason not_unanimous unless the veto rule applies first;
    an evaluation approves only when the approvals equal the number of
    members active in the world it runs in, and does approve then when no
    vote rejects; with no rejection and another number of approvals the
    evaluation returns pending and leaves the world as it was, so an
    abstention keeps the proposal pending however often it is evaluated. *)
Theorem unanimous_rule cid w p :
  lookup_commit cid w = Some p ->
  consensus_mode p = "unanimous" ->
  storage_ready w ->
  let n := List.length (active_members w) in
  let a := approvals_of cid w in
  (0 < rejections_of cid w ->
     exists w',
       _evaluate_consensus cid w
       = (Ret (Resolved "rejected" (rejection_reason "not_unanimous" cid w)), w') /\
       status_of cid w' = Some "rejected") /\
  (forall reason w',
     _evaluate_consensus cid w = (Ret (Resolved "approved" reason), w') ->
     a = n /\ rejections_of cid w = 0 /\ reason = "unanimous") /\
  (rejections_of cid w = 0 -> a = n ->
     exists w',
       _evaluate_consensus cid w = (Ret (Resolved "approved" "unanimous"), w') /\
       status_of cid w' = Some "approved") /\
  (rejections_of cid w = 0 -> a <> n ->
     _evaluate_consensus cid w
     = (Ret (StillPending (List.length (votes_for cid w)) n a 0), w)).
Proof.
  intros Hp Hmode Hready n a. repeat split.
  - intros Hrej.
    apply evaluate_with_rejection with (p := p)
      (ann := "🚫 Commit `" ^^ cid ^^ "` **rejected** (unanimous required, got "
              ^^ str_nat (rejections_of cid w) ^^ " rejection(s))"); try assumption.
    intros Hv. rewrite evaluate_start. cbv zeta. rewrite Hv, Hp, Hmode.
    apply Nat.ltb_lt in Hrej. rewrite Hrej. reflexivity.
  - rewrite evaluate_start in H. cbv zeta in H. rewrite Hp, Hmode in H.
    fold n in H. fold a in H.
    destruct (vetoes_of cid w); [| minv H; discriminate].
    simpl in H. destruct (0 <? rejections_of cid w)%nat; [minv H; discriminate |].
    destruct (a =? n)%nat eqn:E; [| minv H; discriminate].
    now apply Nat.eqb_eq in E.
  - rewrite evaluate_start in H. cbv zeta in H. rewrite Hp, Hmode in H.
    destruct (vetoes_of cid w); [| minv H; discriminate].
    simpl in H. destruct (0 <? rejections_of cid w)%nat eqn:E; [minv H; discriminate |].
    apply Nat.ltb_ge in E. lia.
  - rewrite evaluate_start in H. cbv zeta in H. rewrite Hp, Hmode in H.
    fold n in H. fold a in H.
    destruct (vetoes_of cid w); [| minv H; discriminate].
    simpl in H. destruct (0 <? rejections_of cid w)%nat; [minv H; discriminate |].
    destruct (a =? n)%nat eqn:E; [| minv H; discriminate].
    minv H. congruence.
  - intros Hrej Han.
    destruct (evaluate_approves cid w "unanimous" p) as (w' & Hw' & Hs & _).
    + rewrite evaluate_start. cbv zeta.
      rewrite (no_rejection_no_veto cid w Hrej), Hp, Hmode, Hrej.
      fold n. fold a. apply Nat.eqb_eq in Han. rewrite Han. reflexivity.
    + exact Hp.
    + exact Hready.
    + eauto.
  - intros Hrej Han. rewrite evaluate_start. cbv zeta.
    rewrite (no_rejection_no_veto cid w Hrej), Hp, Hmode, Hrej.
    fold n. fold a. apply Nat.eqb_neq in Han. rewrite Han. reflexivity.
Qed.

(** ** A vote up to its evaluation *)

Lemma vote_runs voter cid ch h w m p :
  lookup_member_by_name voter w = Some m ->
  lookup_commit cid w = Some p ->
  status p = "pending" ->
  valid_choice ch = true ->
  mem_string (uuid4s w 1) (map msg_id (messages w)) = false ->
  let v := mkVote (first8 (uuid4s w 0)) cid (m_id m) voter ch h (nows w 0) in
  exists w1,
    vote voter cid ch h w = (res <- _evaluate_consensus cid ;; ret (Voted v res)) w1 /\
    records v w w1 /\
    (forall n, uuid4s w1 n = uuid4s w (S (S n))).
Proof.
  intros Hm Hp Hst Hch Hfresh v. unfold vote.
  step_by ltac:(exact (f_equal (fun o => (Ret o, w)) Hm)).
  step_by ltac:(exact (f_equal (fun o => (Ret o, w)) Hp)).
  rewrite Hst, Hch. change (negb ("pending" =? "pending")) with false. cbn [negb].
  step. step. step.
  step_by ltac:(apply add_message_eq; exact Hfresh).
  step. step.
  eexists. split; [reflexivity |]. split.
  - unfold records. eexists _, _, _. proj_simpl. repeat split; try reflexivity.
    rewrite <- app_assoc. reflexivity.
  - intros n. reflexivity.
Qed.

Lemma In_not_nil {A : Type} (x : A) (l : list A) : In x l -> exists y ys, l = y :: ys.
Proof. destruct l as [| y ys]; [intros [] | eauto]. Qed.

(** C1: a member's reject vote with the human-override flag on a pending
    proposal resolves the proposal rejected with reason human_veto, in every
    consensus mode and whatever the other votes are (so also after every
    other active member approved); nothing is written to the ledger. *)
Theorem human_veto_rejects voter cid w m p :
  lookup_member_by_name voter w = Some m ->
  lookup_commit cid w = Some p ->
  status p = "pending" ->
  mem_string (uuid4s w 1) (map msg_id (messages w)) = false ->
  mem_string (uuid4s w 2) (map msg_id (messages w)) = false ->
  uuid4s w 2 <> uuid4s w 1 ->
  exists v w',
    vote voter cid "reject" true w = (Ret (Voted v (Resolved "rejected" "human_veto")), w') /\
    choice v = "reject" /\ is_human_override v = true /\ voter_id v = m_id m /\
    status_of cid w' = Some "rejected" /\
    context_entries w' = context_entries w.
Proof.
  intros Hm Hp Hst Hf1 Hf2 Hneq.
  destruct (vote_runs voter cid "reject" true w m p Hm Hp Hst eq_refl Hf1) as (w1 & Hvote & Hrec & Htape).
  set (v := mkVote (first8 (uuid4s w 0)) cid (m_id m) voter "reject" true (nows w 0)) in *.
  destruct Hrec as (msg & t1 & t2 & Rid & Rmem & Rmsg & Rctx & Rprop & Rvotes & Rmode & Rdel).
  assert (lookup_commit cid w1 = Some p) as Hp1.
  { unfold lookup_commit. rewrite Rprop. exact Hp. }
  assert (In v (vetoes_of cid w1)) as Hin.
  { unfold vetoes_of, votes_for. rewrite Rvotes.
    apply filter_In. split; [| reflexivity].
    apply filter_In. split; [apply in_or_app; right; now left |].
    simpl. apply String.eqb_refl. }
  destruct (In_not_nil _ _ Hin) as (y & ys & Hveto).
  destruct (evaluate_rejects cid w1 "human_veto"
              ("🚫 Commit `" ^^ cid ^^ "` **rejected** — human veto by "
               ^^ join_comma (map voter_name (vetoes_of cid w1))) p) as (w' & Hw' & Hs & Hc).
  - rewrite evaluate_start. cbv zeta. rewrite Hveto. reflexivity.
  - exact Hp1.
  - rewrite Htape, Rmsg, map_app. apply mem_string_false_iff. intros Hin'.
    apply in_app_or in Hin'. destruct Hin' as [Hin' | [E | []]].
    + apply mem_string_false_iff in Hf2. contradiction.
    + congruence.
  - exists v, w'. split; [| repeat split].
    + rewrite Hvote. erewrite bind_fwd by exact Hw'. reflexivity.
    + exact Hs.
    + destruct Hc as (m' & t & t1' & t2' & _ & _ & Cctx & _). congruence.
Qed.

(** ** Reading the ledger *)







(** ** Appending to the ledger *)





(** ** The roster *)

Lemma lookup_by_name_active name w m :
  lookup_member_by_name name w = Some m ->
  In m (members w) /\ m_name m = name /\ m_is_active m = true.
Proof.
  unfold lookup_member_by_name. intros H. apply find_some in H. destruct H as [Hin E].
  apply andb_true_iff in E. destruct E as [E1 E2]. apply String.eqb_eq in E1. auto.
Qed.

Lemma join_inv name model w r w' :
  join name model w = (Ret r, w') ->
  (exists err, r = Failure err /\ w' = w) \/
  (exists new welcome msg,
      lookup_member_by_name name w = None /\
      r = Joined new welcome /\
      new = mkSquadMember (first8 (uuid4s w 0)) name model (nows w 0) true /\
      members w' = replace_member new (members w) /\
      messages w' = messages w ++ [msg] /\
      votes w' = votes w).
Proof.
  intros H. unfold join in H. minv H.
  - left. eauto.
  - right. eexists _, _, _. repeat split.
    unfold lookup_member_by_name.
    match goal with
    | |- find ?f ?l = None => destruct (find f l) as [m |] eqn:E; [| reflexivity]
    end.
    apply find_some in E. destruct E as [_ E]. apply andb_true_iff in E.
    destruct E as [_ E]. congruence.
Qed.

Lemma leave_inv name w r w' :
  leave name w = (Ret r, w') ->
  (exists err, r = Failure err /\ w' = w /\ lookup_member_by_name name w = None) \/
  (exists old msg,
      lookup_member_by_name name w = Some old /\
      r = HasLeft (name ^^ " has left the squad") /\
      members w' = deactivate_id (m_id old) (members w) /\
      messages w' = messages w ++ [msg] /\
      votes w' = votes w /\
      (forall n, uuid4s w' n = uuid4s w (S n))).
Proof.
  intros H. unfold leave in H. minv H.
  - right. eexists _, _. repeat split. assumption.
  - left. eauto.
Qed.

Lemma run_members c w r w' :
  run c w = (Ret r, w') ->
  members w' = members w \/
  (exists new, lookup_member_by_name (m_name new) w = None /\
               members w' = replace_member new (members w)) \/
  (exists mid, members w' = deactivate_id mid (members w)).
Proof.
  destruct c; simpl; intros H.
  - apply join_inv in H.
    destruct H as [(err & _ & ->) | (new & welcome & msg & Hnone & _ & -> & Hmem & _)].
    + now left.
    + right. left.
      exists (mkSquadMember (first8 (uuid4s w 0)) name model (nows w 0) true).
      split; [exact Hnone | exact Hmem].
  - apply leave_inv in H.
    destruct H as [(err & _ & -> & _) | (old & msg & _ & _ & Hmem & _)].
    + now left.
    + right. right. eauto.
  - left. unfold send_message in H. minv H; reflexivity.
  - left. unfold propose_commit in H. minv H; reflexivity.
  - left. apply vote_inv in H.
    destruct H as [(err & _ & ->) | (m & p & v & res & w1 & _ & _ & _ & _ & _ & _ & Hrec & Hev)];
      [reflexivity |].
    destruct Hrec as (msg & t1 & t2 & _ & Rmem & _).
    apply evaluate_consensus_inv in Hev.
    destruct Hev as [(a & b & c0 & d & _ & ->) | [(reason & _ & Hc) | (reason & p' & _ & _ & Hr)]].
    + exact Rmem.
    + destruct Hc as (m' & t & t1' & t2' & Cmem & _). congruence.
    + destruct Hr as (e & m' & t & t1' & t2' & t3' & Cmem & _). congruence.
Qed.

Lemma filter_filter_comm {A : Type} (f g : A -> bool) (l : list A) :
  filter f (filter g l) = filter g (filter f l).
Proof.
  induction l as [| a l IH]; simpl; [reflexivity |].
  destruct (f a) eqn:Ef, (g a) eqn:Eg; simpl; rewrite ?Ef, ?Eg, IH; reflexivity.
Qed.

Lemma deactivate_id_ids mid rows : map m_id (deactivate_id mid rows) = map m_id rows.
Proof.
  unfold deactivate_id. rewrite map_map. apply map_ext. intros r.
  destruct (m_id r =? mid); reflexivity.
Qed.

Lemma deactivate_id_active_incl mid rows x :
  In x (filter m_is_active (deactivate_id mid rows)) ->
  In x (filter m_is_active rows) /\ (m_id x =? mid) = false.
Proof.
  unfold deactivate_id. intros H. apply filter_In in H. destruct H as [H Hact].
  apply in_map_iff in H. destruct H as (r & E & Hr).
  destruct (m_id r =? mid) eqn:Eid; subst x.
  - discriminate.
  - split; [| assumption]. apply filter_In. auto.
Qed.

Lemma deactivate_id_names_NoDup mid rows :
  NoDup (map m_name (filter m_is_active rows)) ->
  NoDup (map m_name (filter m_is_active (deactivate_id mid rows))).
Proof.
  induction rows as [| r rows IH]; simpl; intros H; [constructor |].
  destruct (m_id r =? mid) eqn:Eid; simpl.
  - apply IH. destruct (m_is_active r); [now inversion H | assumption].
  - destruct (m_is_active r); [| now apply IH].
    simpl in *. inversion H as [| ? ? Hnotin Hnd]; subst.
    constructor; [| now apply IH].
    intros Hin. apply Hnotin. apply in_map_iff in Hin. destruct Hin as (x & E & Hx).
    apply deactivate_id_active_incl in Hx. destruct Hx as [Hx _].
    rewrite <- E. now apply in_map.
Qed.

Lemma lookup_by_name_none name w x :
  lookup_member_by_name name w = None ->
  In x (active_members w) -> m_name x <> name.
Proof.
  unfold lookup_member_by_name, active_members. intros Hnone Hx E.
  apply filter_In in Hx. destruct Hx as [Hx Hact].
  pose proof (find_none _ _ Hnone x Hx) as Hf. cbv beta in Hf.
  rewrite Hact, andb_true_r in Hf. apply String.eqb_neq in Hf. contradiction.
Qed.

Lemma fresh_roster mode uuids clock : roster_ok (fresh mode uuids clock).
Proof. constructor; simpl; constructor. Qed.

Lemma run_roster c w r w' :
  run c w = (Ret r, w') -> roster_ok w -> roster_ok w'.
Proof.
  intros H [Hnames Hids]. apply run_members in H.
  destruct H as [Hsame | [(new & Hnone & Hmem) | (mid & Hmem)]].
  - constructor; unfold active_members in *; rewrite Hsame; assumption.
  - constructor; unfold active_members in *; rewrite Hmem; unfold replace_member.
    + rewrite filter_app, map_app. simpl.
      apply NoDup_app.
      * rewrite filter_filter_comm. now apply NoDup_map_filter.
      * repeat constructor. intros [].
      * intros x Hx [<- | []]. apply in_map_iff in Hx. destruct Hx as (y & E & Hy).
        rewrite filter_filter_comm in Hy. apply filter_In in Hy. destruct Hy as [Hy _].
        exact (lookup_by_name_none _ _ _ Hnone Hy E).
    + rewrite map_app. simpl. apply NoDup_app.
      * now apply NoDup_map_filter.
      * repeat constructor. intros [].
      * intros x Hx [<- | []]. apply in_map_iff in Hx. destruct Hx as (y & E & Hy).
        apply filter_In in Hy. destruct Hy as [_ Hy]. apply negb_true_iff in Hy.
        apply String.eqb_neq in Hy. contradiction.
  - constructor; unfold active_members in *; rewrite Hmem.
    + now apply deactivate_id_names_NoDup.
    + now rewrite deactivate_id_ids.
Qed.

Theorem reachable_roster w : reachable w -> roster_ok w.
Proof.
  induction 1 as [mode uuids clock | w c r w' _ IH Hrun].
  - apply fresh_roster.
  - eapply run_roster; eassumption.
Qed.

Lemma find_by_id_unique rows x :
  NoDup (map m_id rows) -> In x rows ->
  find (fun r => m_id r =? m_id x) rows = Some x.
Proof.
  intros Hnd Hx. destruct (find (fun r => m_id r =? m_id x) rows) as [y |] eqn:E.
  - apply find_some in E. destruct E as [Hy E]. apply String.eqb_eq in E.
    f_equal. exact (NoDup_map_eq m_id rows y x Hnd Hy Hx E).
  - pose proof (find_none _ _ E x Hx) as Hf. cbv beta in Hf.
    rewrite String.eqb_refl in Hf. discriminate.
Qed.



(** ** The life of a proposal *)

Lemma find_app_some {A : Type} (f : A -> bool) (l l' : list A) x :
  find f l = Some x -> find f (l ++ l') = Some x.
Proof.
  induction l as [| a l IH]; simpl; [discriminate |].
  destruct (f a); [auto | exact IH].
Qed.

Lemma transition_status w w' cid p :
  transition w w' -> lookup_commit cid w = Some p ->
  exists p', lookup_commit cid w' = Some p' /\ settled (status p) (status p') /\
             p_content p' = p_content p /\ consensus_mode p' = consensus_mode p /\
             timeout_seconds p' = timeout_seconds p.
Proof.
  intros T Hp. unfold lookup_commit in *. destruct T as
    [ evs Hrows _ _ _
    | p0 evs Hrows _ _ _ _ _ _ _
    | cid0 p0 t evs t' Hlk Hst Hrows _ _ _
    | cid0 p0 t e evs t' t'' Hlk Hst Hrows _ _ _ _ _ _ _ _ ].
  - exists p. rewrite Hrows. unfold settled. auto.
  - exists p. rewrite Hrows. split; [now apply find_app_some |]. unfold settled. auto.
  - rewrite Hrows, find_set_status, Hp. simpl.
    destruct (p_id p =? cid0) eqn:E.
    + eexists. split; [reflexivity |]. simpl. repeat split.
      right. apply String.eqb_eq in E.
      pose proof Hp as Hid. apply find_some in Hid. destruct Hid as [_ Hid].
      apply String.eqb_eq in Hid.
      assert (p0 = p) as ->.
      { unfold lookup_commit in Hlk. rewrite <- E, Hid in Hlk. congruence. }
      auto.
    + exists p. unfold settled. auto.
  - rewrite Hrows, find_set_status, Hp. simpl.
    destruct (p_id p =? cid0) eqn:E.
    + eexists. split; [reflexivity |]. simpl. repeat split.
      right. apply String.eqb_eq in E.
      pose proof Hp as Hid. apply find_some in Hid. destruct Hid as [_ Hid].
      apply String.eqb_eq in Hid.
      assert (p0 = p) as ->.
      { unfold lookup_commit in Hlk. rewrite <- E, Hid in Hlk. congruence. }
      auto.
    + exists p. unfold settled. auto.
Qed.

Lemma settled_trans a b c : settled a b -> settled b c -> settled a c.
Proof.
  unfold settled. intros [-> | (-> & Hb)] [-> | (Hb' & Hc)]; auto.
  all: try (destruct Hb as [-> | ->]; discriminate).
Qed.

Lemma run_all_status cs : forall w w' cid p,
  run_all cs w = Some w' -> lookup_commit cid w = Some p ->
  exists p', lookup_commit cid w' = Some p' /\ settled (status p) (status p') /\
             p_content p' = p_content p /\ consensus_mode p' = consensus_mode p /\
             timeout_seconds p' = timeout_seconds p.
Proof.
  induction cs as [| c cs IH]; simpl; intros w w' cid p Hrun Hp.
  - inversion Hrun; subst. exists p. unfold settled. auto.
  - destruct (run c w) as [[r | x] w1] eqn:Hc; [| discriminate].
    apply run_transition in Hc.
    destruct (transition_status w w1 cid p Hc Hp) as (p1 & Hp1 & Hs1 & Hc1 & Hm1 & Ht1).
    destruct (IH w1 w' cid p1 Hrun Hp1) as (p' & Hp' & Hs' & Hc' & Hm' & Ht').
    exists p'. repeat split; try congruence. eapply settled_trans; eassumption.
Qed.

Lemma run_all_reachable cs : forall w w',
  reachable w -> run_all cs w = Some w' -> reachable w'.
Proof.
  induction cs as [| c cs IH]; simpl; intros w w' Hw Hrun.
  - now inversion Hrun; subst.
  - destruct (run c w) as [[r | x] w1] eqn:Hc; [| discriminate].
    eapply IH; [| exact Hrun]. eapply reach_call; eassumption.
Qed.

Lemma vote_on_resolved voter cid ch h w m p :
  lookup_member_by_name voter w = Some m ->
  lookup_commit cid w = Some p ->
  status p <> "pending" ->
  vote voter cid ch h w
  = (Ret (Failure ("Commit '" ^^ cid ^^ "' is already " ^^ status p)), w).
Proof.
  intros Hm Hp Hst. unfold vote.
  step_by ltac:(exact (f_equal (fun o => (Ret o, w)) Hm)).
  step_by ltac:(exact (f_equal (fun o => (Ret o, w)) Hp)).
  apply String.eqb_neq in Hst. rewrite Hst. reflexivity.
Qed.

(** C5: in every world the engine reaches, a proposal has had no
    commit_resolved event while it is pending and exactly one once it is
    resolved; whatever calls follow, its status either stays what it is or
    goes from pending to approved or rejected, so a resolved proposal keeps
    its status for ever; and a vote on a resolved proposal fails and changes
    nothing, with the already-resolved error when the voter is a member. *)
Theorem resolved_once w :
  reachable w ->
  (forall p, In p (commit_proposals w) ->
     resolutions (p_id p) w = if status p =? "pending" then 0 else 1) /\
  (forall cid p cs w',
     lookup_commit cid w = Some p -> run_all cs w = Some w' ->
     exists p', lookup_commit cid w' = Some p' /\
                settled (status p) (status p') /\
                (status p <> "pending" -> status p' = status p)) /\
  (forall voter cid ch h p,
     lookup_commit cid w = Some p ->
     status p <> "pending" ->
     exists err,
       vote voter cid ch h w = (Ret (Failure err), w) /\
       (forall m, lookup_member_by_name voter w = Some m ->
                  err = "Commit '" ^^ cid ^^ "' is already " ^^ status p)).
Proof.
  intros Hreach. split; [| split].
  - exact (one_resolution (reachable_consistent w Hreach)).
  - intros cid p cs w' Hp Hrun.
    destruct (run_all_status cs w w' cid p Hrun Hp) as (p' & Hp' & Hs & _).
    exists p'. repeat split; try assumption.
    intros Hnp. destruct Hs as [E | (E & _)]; [exact E | contradiction].
  - intros voter cid ch h p Hp Hst.
    destruct (lookup_member_by_name voter w) as [m |] eqn:Hm.
    + eexists. split; [exact (vote_on_resolved voter cid ch h w m p Hm Hp Hst) |].
      intros m' _. reflexivity.
    + eexists. split; [| intros m' Hm'; discriminate].
      unfold vote.
      step_by ltac:(exact (f_equal (fun o => (Ret o, w)) Hm)).
      reflexivity.
Qed.




Lemma reachable_after cs w : reachable w -> reachable (after cs w).
Proof.
  intros H. unfold after. destruct (run_all cs w) as [w' |] eqn:E; [| exact H].
  eapply run_all_reachable; eassumption.
Qed.

Lemma roster_ok_members w w' : members w' = members w -> roster_ok w -> roster_ok w'.
Proof.
  intros E [H1 H2]. constructor; unfold active_members in *; rewrite E; assumption.
Qed.


(** ** The theorems at work on the scenarios *)

Lemma veto_scene_reachable : reachable veto_scene.
Proof. apply reachable_after. apply reach_fresh. Qed.

Lemma human_veto_rejects_witness :
  map choice (votes_for "id-6-000" veto_scene) = ["approve"; "approve"] /\
  map m_name (active_members veto_scene) = ["ava"; "ben"; "cy"] /\
  exists v w',
    vote "cy" "id-6-000" "reject" true veto_scene
    = (Ret (Voted v (Resolved "rejected" "human_veto")), w') /\
    status_of "id-6-000" w' = Some "rejected".
Proof.
  split; [vm_compute; reflexivity |]. split; [vm_compute; reflexivity |].
  destruct (human_veto_rejects "cy" "id-6-000" veto_scene
              (the_member "cy" veto_scene) (the_commit "id-6-000" veto_scene))
    as (v & w' & Hv & _ & _ & _ & Hs & _).
  - vm_compute. reflexivity.
  - vm_compute. reflexivity.
  - vm_compute. reflexivity.
  - vm_compute. reflexivity.
  - vm_compute. reflexivity.
  - vm_compute. discriminate.
  - exists v, w'. split; assumption.
Defined.

Lemma majority_rule_witness :
  map choice (votes_for "id-8-000" tie_scene) = ["approve"; "approve"; "reject"; "abstain"] /\
  exists w',
    _evaluate_consensus "id-8-000" tie_scene = (Ret (Resolved "rejected" "no_majority"), w') /\
    status_of "id-8-000" w' = Some "rejected".
Proof.
  split; [vm_compute; reflexivity |].
  destruct (majority_rule "id-8-000" tie_scene (the_commit "id-8-000" tie_scene)) as [_ H].
  - apply roster_ok_members with (w := tie_votes); [vm_compute; reflexivity |].
    apply reachable_roster. apply reachable_after. apply reach_fresh.
  - vm_compute. reflexivity.
  - vm_compute. reflexivity.
  - vm_compute. reflexivity.
  - repeat split; vm_compute; reflexivity.
  - assert (everyone_voted "id-8-000" tie_scene = true) as E by (vm_compute; reflexivity).
    destruct (H E) as (st & reason & w' & Hev & Hs & _ & Hrej).
    destruct Hrej as [-> ->]; [vm_compute; lia |].
    exists w'. split; assumption.
Defined.

Lemma unanimous_rule_witness :
  map choice (votes_for "id-6-000" stall_scene) = ["approve"; "approve"; "abstain"] /\
  List.length (active_members stall_scene) = 3 /\
  approvals_of "id-6-000" stall_scene = 2 /\
  _evaluate_consensus "id-6-000" stall_scene
  = (Ret (StillPending (List.length (votes_for "id-6-000" stall_scene))
                       (List.length (active_members stall_scene))
                       (approvals_of "id-6-000" stall_scene) 0), stall_scene).
Proof.
  split; [vm_compute; reflexivity |]. split; [vm_compute; reflexivity |].
  split; [vm_compute; reflexivity |].
  destruct (unanimous_rule "id-6-000" stall_scene (the_commit "id-6-000" stall_scene))
    as (_ & _ & _ & H).
  - vm_compute. reflexivity.
  - vm_compute. reflexivity.
  - repeat split; vm_compute; reflexivity.
  - apply H; [vm_compute; reflexivity | vm_compute; discriminate].
Defined.


Lemma resolved_once_witness :
  resolutions (p_id (the_commit "id-6-000" ratified_scene)) ratified_scene = 1 /\
  exists err,
    vote "ben" "id-6-000" "reject" true ratified_scene = (Ret (Failure err), ratified_scene).
Proof.
  destruct (resolved_once ratified_scene) as (H1 & _ & H3).
  - apply reachable_after. apply veto_scene_reachable.
  - split.
    + rewrite H1; [vm_compute; reflexivity |]. vm_compute. left. reflexivity.
    + destruct (H3 "ben" "id-6-000" "reject" true (the_commit "id-6-000" ratified_scene))
        as (err & Hv & _).
      * vm_compute. reflexivity.
      * vm_compute. discriminate.
      * exists err. exact Hv.
Defined.




End SquadFacts.

(** * Further facts about the single-squad engine *)

Module SquadMoreFacts.

Import Squad.
Import SquadFacts.
Open Scope string_scope.
Open Scope list_scope.
Open Scope monad_scope.

(** ** Refusals and returns of the five calls *)

Lemma find_after_replace name new rows :
  find (fun r => (m_name r =? name) && m_is_active r) rows = None ->
  m_name new = name ->
  find (fun r => (m_name r =? name) && m_is_active r) (replace_member new rows)
  = Some (stored_member new).
Proof.
  intros Hnone Hname. unfold replace_member.
  induction rows as [| r rows IH]; simpl in *.
  - rewrite Hname, String.eqb_refl. reflexivity.
  - destruct ((m_name r =? name) && m_is_active r) eqn:E; [discriminate |].
    destruct (negb (m_id r =? m_id new)); simpl; [rewrite E |]; apply IH; exact Hnone.
Qed.

Lemma leave_clears_name name w old r w1 :
  roster_ok w ->
  lookup_member_by_name name w = Some old ->
  leave name w = (Ret r, w1) ->
  lookup_member_by_name name w1 = None.
Proof.
  intros [Hnames Hids] Hold Hl. apply leave_inv in Hl.
  destruct Hl as [(err & _ & _ & Hnone) | (old' & msg & Hold' & _ & Hmem1 & _)];
    [congruence |].
  assert (old' = old) by congruence. subst old'.
  destruct (lookup_by_name_active _ _ _ Hold) as (Hin & Hname & Hact).
  unfold lookup_member_by_name.
  destruct (find _ (members w1)) as [x |] eqn:E; [exfalso | reflexivity].
  apply find_some in E. destruct E as [Hx E]. apply andb_true_iff in E.
  destruct E as [E1 E2]. apply String.eqb_eq in E1.
  assert (In x (filter m_is_active (members w1))) as Hx' by (apply filter_In; auto).
  rewrite Hmem1 in Hx'. apply deactivate_id_active_incl in Hx'.
  destruct Hx' as [Hx' Hid].
  assert (x = old) as ->.
  { apply (NoDup_map_eq m_name (filter m_is_active (members w)) x old Hnames);
      [assumption | apply filter_In; auto | congruence]. }
  rewrite String.eqb_refl in Hid. discriminate.
Qed.

Lemma find_deactivated mid rows x :
  find (fun r => m_id r =? mid) rows = Some x ->
  find (fun r => m_id r =? mid) (deactivate_id mid rows) = Some (deactivate x).
Proof.
  unfold deactivate_id. induction rows as [| r rows IH]; simpl; [discriminate |].
  destruct (m_id r =? mid) eqn:E; simpl.
  - rewrite E. intros H. injection H as ->. reflexivity.
  - rewrite E. exact IH.
Qed.

Lemma deactivate_id_active mid rows :
  filter m_is_active (deactivate_id mid rows)
  = filter (fun r => negb (m_id r =? mid)) (filter m_is_active rows).
Proof.
  unfold deactivate_id. induction rows as [| r rows IH]; simpl; [reflexivity |].
  destruct (m_id r =? mid) eqn:E; simpl.
  - destruct (m_is_active r); simpl; rewrite ?E; simpl; exact IH.
  - destruct (m_is_active r); simpl; rewrite ?E; simpl; rewrite IH; reflexivity.
Qed.

(** X1: join refuses a name an active member has, changing nothing; for any
    other name it returns, whenever the identifier of the welcome message is
    not in use, with a new active member whom a lookup by name finds and the
    members' list shows. *)
Theorem join_outcomes name model w :
  (forall m, lookup_member_by_name name w = Some m ->
     join name model w = (Ret (Failure ("'" ^^ name ^^ "' is already in the squad")), w)) /\
  (lookup_member_by_name name w = None ->
   mem_string (uuid4s w 1) (map msg_id (messages w)) = false ->
   exists welcome w',
     let new := mkSquadMember (first8 (uuid4s w 0)) name model (nows w 0) true in
     join name model w = (Ret (Joined new welcome), w') /\
     lookup_member_by_name name w' = Some new /\
     get_members w' = (Ret (filter (fun r => negb (m_id r =? m_id new)) (active_members w)
                            ++ [new]), w') /\
     exists msg t1 t2,
       messages w' = messages w ++ [msg] /\
       sender_type msg = "system" /\
       delivered w' = delivered w ++ [mkEvent "member_joined" (OfMember new) t1;
                                      mkEvent "new_message" (OfMessage msg) t2]).
Proof.
  split.
  - intros m Hm. unfold join.
    step_by ltac:(exact (f_equal (fun o => (Ret o, w)) Hm)).
    destruct (lookup_by_name_active _ _ _ Hm) as (_ & _ & ->). reflexivity.
  - intros Hnone Hfresh. unfold join.
    step_by ltac:(exact (f_equal (fun o => (Ret o, w)) Hnone)).
    step. step. step.
    step_by ltac:(apply add_message_eq; exact Hfresh).
    step. step. eexists _, _. cbv zeta. split; [reflexivity |]. split; [| split].
    + unfold lookup_member_by_name. proj_simpl.
      exact (find_after_replace name
               (mkSquadMember (first8 (uuid4s w 0)) name model (nows w 0) true)
               (members w) Hnone eq_refl).
    + unfold get_members, get_active_members, gets, active_members. proj_simpl.
      rewrite filter_app. simpl. rewrite filter_filter_comm. reflexivity.
    + eexists _, _, _. proj_simpl. split; [reflexivity |]. split; [reflexivity |].
      rewrite <- app_assoc. reflexivity.
Qed.

(** X2: leave refuses a name no active member has, changing nothing; for an
    active member it returns, whenever the identifier of the farewell message
    is not in use, and then the name is free, the member's row is kept,
    inactive, the other active members are as before, and the listeners get
    [member_left] with the member's identifier. *)
Theorem leave_outcomes name w :
  (lookup_member_by_name name w = None ->
     leave name w = (Ret (Failure ("'" ^^ name ^^ "' is not in the squad")), w)) /\
  (forall old,
     roster_ok w ->
     lookup_member_by_name name w = Some old ->
     mem_string (uuid4s w 0) (map msg_id (messages w)) = false ->
     exists w',
       leave name w = (Ret (HasLeft (name ^^ " has left the squad")), w') /\
       lookup_member_by_name name w' = None /\
       lookup_member (m_id old) w' = Some (deactivate old) /\
       active_members w' = filter (fun r => negb (m_id r =? m_id old)) (active_members w) /\
       exists msg t1 t2,
         messages w' = messages w ++ [msg] /\
         delivered w' = delivered w ++ [mkEvent "member_left" (OfLeft name (m_id old)) t1;
                                        mkEvent "new_message" (OfMessage msg) t2]).
Proof.
  split.
  - intros Hnone. unfold leave.
    step_by ltac:(exact (f_equal (fun o => (Ret o, w)) Hnone)). reflexivity.
  - intros old Hroster Hold Hfresh.
    assert (exists w', leave name w = (Ret (HasLeft (name ^^ " has left the squad")), w') /\
              members w' = deactivate_id (m_id old) (members w) /\
              exists msg t1 t2,
                messages w' = messages w ++ [msg] /\
                delivered w' = delivered w ++ [mkEvent "member_left" (OfLeft name (m_id old)) t1;
                                               mkEvent "new_message" (OfMessage msg) t2])
      as (w' & Hl & Hmem & Hrest).
    { unfold leave.
      step_by ltac:(exact (f_equal (fun o => (Ret o, w)) Hold)).
      step. step.
      step_by ltac:(apply add_message_eq; exact Hfresh).
      step. step. eexists. split; [reflexivity |]. split; [reflexivity |].
      eexists _, _, _. proj_simpl. split; [reflexivity |].
      rewrite <- app_assoc. reflexivity. }
    exists w'. split; [exact Hl |]. split; [| split; [| split]].
    + eapply leave_clears_name; eassumption.
    + unfold lookup_member. rewrite Hmem. apply find_deactivated.
      destruct (lookup_by_name_active _ _ _ Hold) as (Hin & _ & _).
      destruct Hroster as [_ Hids]. exact (find_by_id_unique (members w) old Hids Hin).
    + unfold active_members. rewrite Hmem. apply deactivate_id_active.
    + exact Hrest.
Qed.

(** X3: a member who has left is refused by every call made under the old
    name until somebody joins under it: sending, voting, proposing as a
    member and leaving again all fail and change nothing. *)
Theorem departed_member_is_refused name w farewell w1 :
  roster_ok w ->
  leave name w = (Ret (HasLeft farewell), w1) ->
  ~ In name (map m_name (active_members w1)) /\
  (forall content st rt,
     send_message name content st rt w1
     = (Ret (Failure ("'" ^^ name ^^ "' is not in the squad. Join first.")), w1)) /\
  (forall cid ch h,
     vote name cid ch h w1 = (Ret (Failure ("'" ^^ name ^^ "' is not in the squad")), w1)) /\
  (forall content origin,
     origin <> "orchestrator_detected" ->
     propose_commit name content origin w1
     = (Ret (Failure ("'" ^^ name ^^ "' is not in the squad")), w1)) /\
  leave name w1 = (Ret (Failure ("'" ^^ name ^^ "' is not in the squad")), w1).
Proof.
  intros Hroster Hl.
  assert (lookup_member_by_name name w1 = None) as Hnone.
  { pose proof Hl as H. apply leave_inv in H.
    destruct H as [(err & Hr & _) | (old & msg & Hold & _)]; [discriminate |].
    eapply leave_clears_name; eassumption. }
  split; [| split; [| split; [| split]]].
  - intros Hin. apply in_map_iff in Hin. destruct Hin as (x & E & Hx).
    exact (lookup_by_name_none _ _ _ Hnone Hx E).
  - intros content st rt. unfold send_message.
    step_by ltac:(exact (f_equal (fun o => (Ret o, w1)) Hnone)). reflexivity.
  - intros cid ch h. unfold vote.
    step_by ltac:(exact (f_equal (fun o => (Ret o, w1)) Hnone)). reflexivity.
  - intros content origin Ho. unfold propose_commit.
    step_by ltac:(exact (f_equal (fun o => (Ret o, w1)) Hnone)).
    apply String.eqb_neq in Ho. rewrite Ho. reflexivity.
  - unfold leave.
    step_by ltac:(exact (f_equal (fun o => (Ret o, w1)) Hnone)). reflexivity.
Qed.

Lemma add_message_taken msg w :
  mem_string (msg_id msg) (map msg_id (messages w)) = true ->
  add_message msg w = (Raise IntegrityError, w).
Proof. intros H. unfold add_message, bind, gets. rewrite H. reflexivity. Qed.

(** X4: send_message refuses a sender who is not an active member, changing
    nothing; for a member it stores exactly one message, attributed to the
    member's identifier, with the content, kind and reply reference as given,
    sends it to the listeners and touches no other table; if the identifier
    drawn for the message is already stored, the insert raises and neither a
    message nor an event is added. *)
Theorem send_message_outcomes sender content kind rt w :
  (lookup_member_by_name sender w = None ->
     send_message sender content kind rt w
     = (Ret (Failure ("'" ^^ sender ^^ "' is not in the squad. Join first.")), w)) /\
  (forall m,
     lookup_member_by_name sender w = Some m ->
     mem_string (uuid4s w 0) (map msg_id (messages w)) = true ->
     exists w',
       send_message sender content kind rt w = (Raise IntegrityError, w') /\
       messages w' = messages w /\ delivered w' = delivered w) /\
  (forall m,
     lookup_member_by_name sender w = Some m ->
     mem_string (uuid4s w 0) (map msg_id (messages w)) = false ->
     exists w',
       let msg := mkMessage (uuid4s w 0) (m_id m) sender kind content (nows w 0) rt in
       send_message sender content kind rt w = (Ret (Sent (uuid4s w 0) (nows w 0)), w') /\
       messages w' = messages w ++ [msg] /\
       delivered w' = delivered w ++ [mkEvent "new_message" (OfMessage msg) (nows w 1)] /\
       members w' = members w /\ votes w' = votes w /\
       commit_proposals w' = commit_proposals w /\
       context_entries w' = context_entries w).
Proof.
  split; [| split].
  - intros Hnone. unfold send_message.
    step_by ltac:(exact (f_equal (fun o => (Ret o, w)) Hnone)). reflexivity.
  - intros m Hm Hid. unfold send_message.
    step_by ltac:(exact (f_equal (fun o => (Ret o, w)) Hm)).
    step. unfold bind at 1. rewrite add_message_taken by exact Hid.
    eexists. split; [reflexivity |]. split; reflexivity.
  - intros m Hm Hid. unfold send_message.
    step_by ltac:(exact (f_equal (fun o => (Ret o, w)) Hm)).
    step. step_by ltac:(apply add_message_eq; exact Hid). step.
    eexists. split; [reflexivity |]. repeat split; reflexivity.
Qed.

(** X5: what vote refuses, in the order the code checks: a voter who is not
    an active member, then a proposal that is not stored, then a proposal
    that is no longer pending (the error names its status), then a choice
    other than approve, reject and abstain; each refusal changes nothing. *)
Theorem vote_refusals voter cid ch h w :
  (lookup_member_by_name voter w = None ->
     vote voter cid ch h w = (Ret (Failure ("'" ^^ voter ^^ "' is not in the squad")), w)) /\
  (forall m,
     lookup_member_by_name voter w = Some m ->
     lookup_commit cid w = None ->
     vote voter cid ch h w = (Ret (Failure ("Commit '" ^^ cid ^^ "' not found")), w)) /\
  (forall m p,
     lookup_member_by_name voter w = Some m ->
     lookup_commit cid w = Some p ->
     status p <> "pending" ->
     vote voter cid ch h w
     = (Ret (Failure ("Commit '" ^^ cid ^^ "' is already " ^^ status p)), w)) /\
  (forall m p,
     lookup_member_by_name voter w = Some m ->
     lookup_commit cid w = Some p ->
     status p = "pending" ->
     ch <> "approve" -> ch <> "reject" -> ch <> "abstain" ->
     vote voter cid ch h w
     = (Ret (Failure "Choice must be 'approve', 'reject', or 'abstain'"), w)) /\
  (forall r w',
     vote voter cid ch h w = (Ret r, w') ->
     (exists err, r = Failure err) ->
     w' = w /\
     (lookup_member_by_name voter w = None \/ status_of cid w <> Some "pending" \/
      valid_choice ch = false)).
Proof.
  split; [| split; [| split; [| split]]].
  - intros Hnone. unfold vote.
    step_by ltac:(exact (f_equal (fun o => (Ret o, w)) Hnone)). reflexivity.
  - intros m Hm Hp. unfold vote.
    step_by ltac:(exact (f_equal (fun o => (Ret o, w)) Hm)).
    step_by ltac:(exact (f_equal (fun o => (Ret o, w)) Hp)). reflexivity.
  - intros m p Hm Hp Hst. unfold vote.
    step_by ltac:(exact (f_equal (fun o => (Ret o, w)) Hm)).
    step_by ltac:(exact (f_equal (fun o => (Ret o, w)) Hp)).
    apply String.eqb_neq in Hst. rewrite Hst. reflexivity.
  - intros m p Hm Hp Hst H1 H2 H3. unfold vote.
    step_by ltac:(exact (f_equal (fun o => (Ret o, w)) Hm)).
    step_by ltac:(exact (f_equal (fun o => (Ret o, w)) Hp)).
    rewrite Hst. unfold valid_choice.
    apply String.eqb_neq in H1, H2, H3. rewrite H1, H2, H3. reflexivity.
  - intros r w' Hv (err & ->). unfold vote in Hv. minv Hv.
    all: split; [reflexivity |].
    + right. left. unfold status_of, lookup_commit. rewrite Heqo0. simpl.
      apply negb_true_iff in Heqb. apply String.eqb_neq in Heqb. congruence.
    + right. right. apply negb_true_iff. assumption.
    + right. left. unfold status_of, lookup_commit. rewrite Heqo0. discriminate.
    + left. assumption.
Qed.

(** X6: propose_commit refuses a proposer who is not an active member unless
    the origin is orchestrator_detected; otherwise, when the identifiers
    drawn are not in use, it returns with a new pending proposal that a
    lookup finds: the content as given, the engine's consensus mode, a
    timeout of 300 seconds, no resolution time, attributed to the member, or
    to the orchestrator under the name Squad Bot when no member has the
    name. *)
Theorem propose_commit_outcomes proposer content origin w :
  (lookup_member_by_name proposer w = None ->
   origin <> "orchestrator_detected" ->
   propose_commit proposer content origin w
   = (Ret (Failure ("'" ^^ proposer ^^ "' is not in the squad")), w)) /\
  ((lookup_member_by_name proposer w = None -> origin = "orchestrator_detected") ->
   mem_string (first8 (uuid4s w 0)) (map p_id (commit_proposals w)) = false ->
   mem_string (uuid4s w 1) (map msg_id (messages w)) = false ->
   exists note w',
     let p := mkCommitProposal (first8 (uuid4s w 0)) content
                (match lookup_member_by_name proposer w with
                 | Some m => m_id m | None => "orchestrator" end)
                (match lookup_member_by_name proposer w with
                 | Some _ => proposer | None => "Squad Bot" end)
                origin "pending" (nows w 0) None (self_consensus_mode w) 300 in
     propose_commit proposer content origin w = (Ret (Proposed (p_id p) note), w') /\
     commit_proposals w' = commit_proposals w ++ [p] /\
     lookup_commit (p_id p) w' = Some p /\
     votes_for (p_id p) w' = votes_for (p_id p) w /\
     context_entries w' = context_entries w /\
     exists msg t1 t2,
       messages w' = messages w ++ [msg] /\
       delivered w' = delivered w ++ [mkEvent "new_message" (OfMessage msg) t1;
                                      mkEvent "commit_proposed" (OfProposal p) t2]).
Proof.
  split.
  - intros Hnone Ho. unfold propose_commit.
    step_by ltac:(exact (f_equal (fun o => (Ret o, w)) Hnone)).
    apply String.eqb_neq in Ho. rewrite Ho. reflexivity.
  - intros Hallowed Hpid Hmid. unfold propose_commit.
    step.
    change (fst (gets (fun w0 => find (fun r => (m_name r =? proposer) && m_is_active r)
                                    (members w0)) w))
      with (Ret (lookup_member_by_name proposer w)).
    unfold get_member_by_name, gets. cbv beta iota zeta.
    fold (lookup_member_by_name proposer w).
    assert ((match lookup_member_by_name proposer w with
             | Some _ => false
             | None => negb (origin =? "orchestrator_detected")
             end) = false) as ->.
    { destruct (lookup_member_by_name proposer w); [reflexivity |].
      rewrite (Hallowed eq_refl). reflexivity. }
    step. step.
    step_by ltac:(unfold add_commit, bind, gets; proj_simpl; rewrite Hpid; reflexivity).
    step.
    step_by ltac:(apply add_message_eq; exact Hmid).
    step. step.
    eexists _, _. cbv zeta. split; [reflexivity |]. proj_simpl.
    split; [reflexivity |]. split; [| split; [reflexivity | split; [reflexivity |]]].
    + unfold lookup_commit. proj_simpl.
      match goal with
      | |- find _ (_ ++ [?x]) = _ => exact (find_last_fresh p_id (commit_proposals w) x Hpid)
      end.
    + eexists _, _, _. split; [reflexivity |]. rewrite <- app_assoc. reflexivity.
Qed.

(** ** Evaluations that leave the proposal pending *)

Lemma evaluate_pending_inv cid w a b c d w' :
  _evaluate_consensus cid w = (Ret (StillPending a b c d), w') ->
  w' = w /\
  a = List.length (votes_for cid w) /\
  b = List.length (active_members w) /\
  c = approvals_of cid w /\
  d = rejections_of cid w /\
  vetoes_of cid w = [].
Proof.
  intros H. rewrite evaluate_start in H. cbv zeta in H.
  destruct (vetoes_of cid w) eqn:Hv.
  - minv H; repeat split; reflexivity.
  - minv H.
Qed.

Lemma evaluate_keeps cid w r w' :
  _evaluate_consensus cid w = (Ret r, w') ->
  members w' = members w /\ votes w' = votes w /\
  self_consensus_mode w' = self_consensus_mode w /\
  map p_id (commit_proposals w') = map p_id (commit_proposals w).
Proof.
  intros H. apply evaluate_consensus_inv in H.
  destruct H as [(a & b & c0 & d & _ & ->) | [(reason & _ & Hc) | (reason & p' & _ & _ & Hr)]].
  - repeat split; reflexivity.
  - destruct Hc as (m' & t & t1' & t2' & Cmem & _ & _ & Cprop & Cvotes & Cmode & _).
    rewrite Cprop, set_status_ids. auto.
  - destruct Hr as (e & m' & t & t1' & t2' & t3' & Cmem & _ & _ & _ & _ & _ & _ & _ & Cprop
                    & Cvotes & Cmode & _).
    rewrite Cprop, set_status_ids. auto.
Qed.

Lemma vote_conflicts_key v r :
  commit_id r = commit_id v -> voter_id r = voter_id v -> vote_conflicts v r = true.
Proof.
  intros E1 E2. unfold vote_conflicts. rewrite E1, E2, !String.eqb_refl.
  apply orb_true_r.
Qed.

(** X7: a vote that is accepted replaces the voter's earlier vote on the
    proposal: afterwards the member has exactly one vote on it, the one
    returned, carrying the choice and the override flag given; every stored
    vote it is not in conflict with is still there, and nothing else is
    added. *)
Theorem revote_overwrites voter cid ch h w v res w' :
  vote voter cid ch h w = (Ret (Voted v res), w') ->
  filter (fun r => (commit_id r =? cid) && (voter_id r =? voter_id v)) (votes w') = [v] /\
  commit_id v = cid /\ voter_name v = voter /\ choice v = ch /\ is_human_override v = h /\
  lookup_member (voter_id v) w <> None /\
  (forall r, In r (votes w') <-> r = v \/ (In r (votes w) /\ vote_conflicts v r = false)).
Proof.
  intros H. apply vote_inv in H.
  destruct H as [(err & Hr & _) | (m & p & v' & res' & w1 & Hm & Hp & Hst & Hch & Hr & Hv & Hrec & Hev)];
    [discriminate |].
  injection Hr as <- <-.
  destruct Hrec as (msg & t1 & t2 & _ & _ & _ & _ & _ & Rvotes & _).
  apply evaluate_keeps in Hev. destruct Hev as (_ & Evotes & _).
  rewrite Evotes, Rvotes.
  assert (commit_id v = cid /\ voter_id v = m_id m) as [Ec Ev] by (subst v; split; reflexivity).
  split; [| split; [exact Ec | split; [| split; [| split; [| split]]]]].
  - rewrite filter_app. simpl. rewrite Ec, !String.eqb_refl. simpl.
    rewrite filter_none; [reflexivity |].
    intros r Hr. apply filter_In in Hr. destruct Hr as [_ Hr].
    apply negb_true_iff in Hr. unfold vote_conflicts in Hr.
    apply orb_false_iff in Hr. destruct Hr as [_ Hr]. rewrite Ec in Hr. exact Hr.
  - subst v. reflexivity.
  - subst v. reflexivity.
  - subst v. reflexivity.
  - rewrite Ev. destruct (lookup_by_name_active _ _ _ Hm) as (Hin & _ & _).
    unfold lookup_member. intros Hnone.
    pose proof (find_none _ _ Hnone m Hin) as Hf. cbv beta in Hf.
    rewrite String.eqb_refl in Hf. discriminate.
  - intros r. rewrite in_app_iff, filter_In, negb_true_iff. simpl. intuition congruence.
Qed.

(** X8: when a vote leaves the proposal pending, the progress it reports is
    the state stored: the number of votes on the proposal, the number of
    active members, the approvals and the rejections; no rejection carries
    the override flag, and the proposals and the ledger are as before. *)
Theorem pending_vote_snapshot voter cid ch h w v a b c d w' :
  vote voter cid ch h w = (Ret (Voted v (StillPending a b c d)), w') ->
  a = List.length (votes_for cid w') /\
  b = List.length (active_members w') /\
  c = approvals_of cid w' /\
  d = rejections_of cid w' /\
  vetoes_of cid w' = [] /\
  In v (votes_for cid w') /\
  status_of cid w' = Some "pending" /\
  commit_proposals w' = commit_proposals w /\
  context_entries w' = context_entries w /\
  members w' = members w.
Proof.
  intros H. apply vote_inv in H.
  destruct H as [(err & Hr & _) | (m & p & v' & res' & w1 & Hm & Hp & Hst & Hch & Hr & Hv & Hrec & Hev)];
    [discriminate |].
  injection Hr as <- <-.
  destruct Hrec as (msg & t1 & t2 & _ & Rmem & _ & Rctx & Rprop & Rvotes & _).
  apply evaluate_pending_inv in Hev. destruct Hev as (-> & -> & -> & -> & -> & Hveto).
  repeat split; try assumption; try reflexivity.
  - unfold votes_for. rewrite Rvotes. apply filter_In. split.
    + apply in_or_app. right. now left.
    + subst v. apply String.eqb_refl.
  - unfold status_of, lookup_commit. rewrite Rprop. fold (lookup_commit cid w).
    rewrite Hp. simpl. now rewrite Hst.
Qed.

(** X9: a proposal whose stored mode is none of unanimous, majority and
    no_objection is never resolved by counting: with no human veto among the
    votes an evaluation returns the progress and changes nothing, whatever
    the votes are. *)
Theorem unknown_mode_stays_pending cid w p :
  lookup_commit cid w = Some p ->
  consensus_mode p <> "unanimous" ->
  consensus_mode p <> "majority" ->
  consensus_mode p <> "no_objection" ->
  vetoes_of cid w = [] ->
  _evaluate_consensus cid w
  = (Ret (StillPending (List.length (votes_for cid w)) (List.length (active_members w))
                       (approvals_of cid w) (rejections_of cid w)), w).
Proof.
  intros Hp H1 H2 H3 Hveto. rewrite evaluate_start. cbv zeta.
  rewrite Hveto, Hp.
  apply String.eqb_neq in H1, H2, H3. rewrite H1, H2, H3. reflexivity.
Qed.

(** X10: in majority mode the test for all votes being in compares the
    number of votes stored on the proposal with the number of members active
    now: once the stored votes are at least as many, the evaluation resolves,
    approved exactly when the approvals strictly exceed half the active
    members, whoever cast the votes. *)
Theorem majority_closes_on_vote_count cid w p :
  lookup_commit cid w = Some p ->
  consensus_mode p = "majority" ->
  vetoes_of cid w = [] ->
  storage_ready w ->
  List.length (active_members w) <= List.length (votes_for cid w) ->
  exists st reason w',
    _evaluate_consensus cid w = (Ret (Resolved st reason), w') /\
    status_of cid w' = Some st /\
    (st = "approved" /\ List.length (active_members w) < 2 * approvals_of cid w \/
     st = "rejected" /\ reason = "no_majority" /\
     2 * approvals_of cid w <= List.length (active_members w)).
Proof.
  intros Hp Hmode Hveto Hready Hin.
  apply Nat.leb_le in Hin.
  destruct (exceeds_half (approvals_of cid w) (List.length (active_members w))) eqn:Hb.
  - destruct (evaluate_approves cid w
                ("majority (" ^^ str_nat (approvals_of cid w) ^^ "/"
                 ^^ str_nat (List.length (active_members w)) ^^ ")") p) as (w' & Hw' & Hs & _).
    + rewrite evaluate_start. cbv zeta. rewrite Hveto, Hp, Hmode, Hin, Hb. reflexivity.
    + exact Hp.
    + exact Hready.
    + eexists _, _, w'. split; [exact Hw' |]. split; [exact Hs |]. left.
      split; [reflexivity |]. unfold exceeds_half in Hb. apply Nat.ltb_lt in Hb. exact Hb.
  - destruct Hready as (Hm0 & _).
    destruct (evaluate_rejects cid w "no_majority"
                ("🚫 Commit `" ^^ cid ^^ "` **rejected** (" ^^ str_nat (approvals_of cid w) ^^ "/"
                 ^^ str_nat (List.length (active_members w)) ^^ " approved, majority needed)") p)
      as (w' & Hw' & Hs & _).
    + rewrite evaluate_start. cbv zeta. rewrite Hveto, Hp, Hmode, Hin, Hb. reflexivity.
    + exact Hp.
    + exact Hm0.
    + eexists _, _, w'. split; [exact Hw' |]. split; [exact Hs |]. right.
      split; [reflexivity |]. split; [reflexivity |].
      unfold exceeds_half in Hb. apply Nat.ltb_ge in Hb. exact Hb.
Qed.

(** ** What a returning call does to the votes *)

Lemma evaluate_pending_mode cid w a b c d w' p :
  _evaluate_consensus cid w = (Ret (StillPending a b c d), w') ->
  lookup_commit cid w = Some p ->
  consensus_mode p = "unanimous" \/ consensus_mode p = "no_objection" ->
  rejections_of cid w = 0.
Proof.
  intros H Hp Hmode. rewrite evaluate_start in H. cbv zeta in H. rewrite Hp in H.
  destruct (vetoes_of cid w); [| minv H].
  destruct (rejections_of cid w) as [| n]; [reflexivity | exfalso].
  change (0 <? S n)%nat with true in H.
  destruct Hmode as [E | E]; rewrite E in H; cbn in H; minv H.
Qed.

(** An accepted vote: the vote stored, then the verdict. *)
Lemma vote_effect voter cid ch h w v res w' :
  vote voter cid ch h w = (Ret (Voted v res), w') ->
  exists m p,
    lookup_member_by_name voter w = Some m /\
    lookup_commit cid w = Some p /\ status p = "pending" /\
    v = mkVote (first8 (uuid4s w 0)) cid (m_id m) voter ch h (nows w 0) /\
    valid_choice ch = true /\
    members w' = members w /\
    votes w' = filter (fun r => negb (vote_conflicts v r)) (votes w) ++ [v] /\
    ((exists a b c d, res = StillPending a b c d /\
                      commit_proposals w' = commit_proposals w /\
                      vetoes_of cid w' = [] /\
                      (consensus_mode p = "unanimous" \/ consensus_mode p = "no_objection" ->
                       rejections_of cid w' = 0)) \/
     (exists st reason t, res = Resolved st reason /\
                          (st = "approved" \/ st = "rejected") /\
                          commit_proposals w' = set_status cid st t (commit_proposals w))).
Proof.
  intros H. apply vote_inv in H.
  destruct H as [(err & Hr & _) | (m & p & v' & res' & w1 & Hm & Hp & Hst & Hch & Hr & Hv & Hrec & Hev)];
    [discriminate |].
  injection Hr as <- <-.
  destruct Hrec as (msg & t1 & t2 & _ & Rmem & _ & _ & Rprop & Rvotes & _).
  exists m, p. repeat (split; [assumption |]).
  pose proof (evaluate_keeps _ _ _ _ Hev) as (Emem & Evotes & _).
  split; [congruence |]. split; [congruence |].
  destruct res as [st reason | a b c d].
  - right. apply evaluate_consensus_inv in Hev.
    destruct Hev as [(a & b & c0 & d & Hr & _) | [(reason' & Hr & Hc) | (reason' & p' & Hr & Hp' & Hrat)]].
    + discriminate.
    + injection Hr as -> ->.
      destruct Hc as (m' & t & t1' & t2' & _ & _ & _ & Cprop & _).
      exists "rejected", reason', t. rewrite Cprop, Rprop. auto.
    + injection Hr as -> ->.
      destruct Hrat as (e & m' & t & t1' & t2' & t3' & _ & _ & _ & _ & _ & _ & _ & _ & Cprop & _).
      apply lookup_commit_id in Hp'.
      exists "approved", reason', t. rewrite Cprop, Rprop, Hp'. auto.
  - left. pose proof Hev as Hev'.
    apply evaluate_pending_inv in Hev. destruct Hev as (-> & _ & _ & _ & _ & Hveto).
    exists a, b, c, d. split; [reflexivity |]. split; [assumption |]. split; [assumption |].
    intros Hmode. eapply evaluate_pending_mode; [exact Hev' | | exact Hmode].
    unfold lookup_commit. rewrite Rprop. exact Hp.
Qed.

Lemma vote_failure_inv voter cid ch h w err w' :
  vote voter cid ch h w = (Ret (Failure err), w') -> w' = w.
Proof.
  intros H. apply vote_inv in H.
  destruct H as [(err' & _ & ->) | (m & p & v' & res' & w1 & _ & _ & _ & _ & Hr & _)];
    [reflexivity | discriminate].
Qed.

Lemma vote_reply voter cid ch h w r w' :
  vote voter cid ch h w = (Ret r, w') ->
  (exists err, r = Failure err /\ w' = w) \/ (exists v res, r = Voted v res).
Proof.
  intros H. apply vote_inv in H.
  destruct H as [(err' & -> & ->) | (m & p & v' & res' & w1 & _ & _ & _ & _ & -> & _)]; eauto.
Qed.

(** The returning calls other than an accepted vote. *)
Lemma other_calls c w r w' :
  run c w = (Ret r, w') ->
  (forall v res, r <> Voted v res) ->
  votes w' = votes w /\
  context_entries w' = context_entries w /\
  (commit_proposals w' = commit_proposals w /\ proposed_events w' = proposed_events w \/
   exists p, commit_proposals w' = commit_proposals w ++ [p] /\
             proposed_events w' = proposed_events w ++ [p] /\
             status p = "pending" /\ resolved_at p = None /\
             ~ In (p_id p) (map p_id (commit_proposals w)) /\
             known_party w (proposed_by p) /\
             members w' = members w).
Proof.
  intros H Hr. destruct c; simpl in H.
  - clear Hr. unfold join in H. minv H; unfold proposed_events; proj_simpl;
      rewrite ?flat_map_app; simpl; rewrite ?app_nil_r; auto.
  - clear Hr. unfold leave in H. minv H; unfold proposed_events; proj_simpl;
      rewrite ?flat_map_app; simpl; rewrite ?app_nil_r; auto.
  - clear Hr. unfold send_message in H. minv H; unfold proposed_events; proj_simpl;
      rewrite ?flat_map_app; simpl; rewrite ?app_nil_r; auto.
  - clear Hr. unfold propose_commit in H. minv H; unfold proposed_events; proj_simpl;
      rewrite ?flat_map_app; simpl; rewrite ?app_nil_r; auto.
    split; [reflexivity |]. split; [reflexivity |]. right.
    eexists. split; [reflexivity |]. split; [reflexivity |].
    split; [reflexivity |]. split; [reflexivity |].
    split; [apply mem_string_false_iff; assumption |]. split; [| reflexivity].
    unfold known_party. cbn [proposed_by].
    match goal with
    | |- context [find ?f ?l] => destruct (find f l) as [m |] eqn:E
    end; [right | left; reflexivity].
    apply find_some in E. destruct E as [E _]. now apply in_map.
  - destruct (vote_reply _ _ _ _ _ _ _ H) as [(err & -> & ->) | (v & res & ->)].
    + auto.
    + exfalso. exact (Hr v res eq_refl).
Qed.

(** ** The invariant of the votes *)

Lemma run_member_ids c w r w' :
  run c w = (Ret r, w') -> incl (map m_id (members w)) (map m_id (members w')).
Proof.
  intros H. apply run_members in H.
  destruct H as [-> | [(new & _ & ->) | (mid & ->)]].
  - apply incl_refl.
  - intros i Hi. unfold replace_member. rewrite map_app. apply in_or_app.
    destruct (String.eqb_spec i (m_id new)) as [-> | Hne].
    + right. now left.
    + left. apply in_map_iff in Hi. destruct Hi as (x & <- & Hx). apply in_map.
      apply filter_In. split; [assumption |]. apply negb_true_iff. now apply String.eqb_neq.
  - rewrite deactivate_id_ids. apply incl_refl.
Qed.

Lemma voted_is_vote c w v res w' :
  run c w = (Ret (Voted v res), w') ->
  exists voter cid ch h, c = CallVote voter cid ch h.
Proof.
  intros H. destruct c; simpl in H.
  - unfold join in H. minv H.
  - unfold leave in H. minv H.
  - unfold send_message in H. minv H.
  - unfold propose_commit in H. minv H.
  - eauto.
Qed.

Lemma fresh_ballots mode uuids clock : ballots_ok (fresh mode uuids clock).
Proof. constructor; simpl; try constructor; intros ? []. Qed.

Lemma votes_for_replaced q v rows r :
  commit_id v <> q ->
  In r (filter (fun x => commit_id x =? q)
               (filter (fun x => negb (vote_conflicts v x)) rows ++ [v])) ->
  In r (filter (fun x => commit_id x =? q) rows).
Proof.
  intros Hne Hr. apply filter_In in Hr. destruct Hr as [Hr Eq].
  apply in_app_or in Hr. destruct Hr as [Hr | [<- | []]].
  - apply filter_In in Hr. destruct Hr as [Hr _]. apply filter_In. auto.
  - apply String.eqb_eq in Eq. contradiction.
Qed.

Lemma vetoes_nil_iff cid w :
  vetoes_of cid w = [] <-> forall r, In r (votes_for cid w) -> is_human_rejection r = false.
Proof.
  unfold vetoes_of. split.
  - intros H r Hr. destruct (is_human_rejection r) eqn:E; [| reflexivity].
    assert (In r (filter is_human_rejection (votes_for cid w))) as Hin
      by (apply filter_In; auto).
    rewrite H in Hin. destruct Hin.
  - apply filter_none.
Qed.

Lemma pending_after_status cid st t rows p' :
  In p' (set_status cid st t rows) -> status p' = "pending" -> st <> "pending" ->
  In p' rows /\ p_id p' <> cid.
Proof.
  intros Hin Hst Hne. apply In_set_status in Hin. destruct Hin as (q & Hq & ->).
  destruct (p_id q =? cid) eqn:E.
  - simpl in Hst. congruence.
  - apply String.eqb_neq in E. auto.
Qed.

Lemma run_ballots c w r w' :
  run c w = (Ret r, w') ->
  NoDup (map p_id (commit_proposals w)) ->
  ballots_ok w -> ballots_ok w'.
Proof.
  intros H Hnd [B1 B2 B3 B4 B5 B6 B7].
  pose proof (run_member_ids _ _ _ _ H) as Hids.
  assert ((exists v res, r = Voted v res) \/ (forall v res, r <> Voted v res)) as [(v & res & ->) | Hr].
  { destruct r; try (right; intros; discriminate). left. eauto. }
  - destruct (voted_is_vote _ _ _ _ _ H) as (voter & cid & ch & h & ->). simpl in H.
    apply vote_effect in H.
    destruct H as (m & p & Hm & Hp & Hst & Hv & Hch & Hmem & Hvotes & Hres).
    assert (commit_id v = cid) as Ecid by (subst v; reflexivity).
    assert (map p_id (commit_proposals w') = map p_id (commit_proposals w)) as Hpids.
    { destruct Hres as [(a & b & c0 & d & _ & -> & _) | (st & reason & t & _ & _ & ->)];
        [reflexivity | apply set_status_ids]. }
    assert (forall q x, q <> cid -> In x (votes_for q w') -> In x (votes_for q w)) as Hother.
    { intros q x Hne Hx. unfold votes_for in *. rewrite Hvotes in Hx.
      eapply votes_for_replaced; [| exact Hx]. congruence. }
    assert (forall p', In p' (commit_proposals w') -> status p' = "pending" ->
            p_id p' <> cid -> In p' (commit_proposals w)) as Hold.
    { intros p' Hp' Hst' Hne.
      destruct Hres as [(a & b & c0 & d & _ & E & _) | (st & reason & t & _ & Hst2 & E)];
        rewrite E in Hp'; [assumption |].
      apply pending_after_status in Hp'; [tauto | assumption |].
      destruct Hst2; subst st; discriminate. }
    assert (forall p', In p' (commit_proposals w') -> status p' = "pending" ->
            p_id p' = cid ->
            vetoes_of cid w' = [] /\
            (consensus_mode p' = "unanimous" \/ consensus_mode p' = "no_objection" ->
             rejections_of cid w' = 0)) as Hsame.
    { intros p' Hp' Hst' Hid.
      destruct Hres as [(a & b & c0 & d & _ & E & Hveto & Hrej) | (st & reason & t & _ & Hst2 & E)].
      - split; [assumption |]. intros Hmode. apply Hrej.
        rewrite E in Hp'.
        assert (p' = p) as ->; [| assumption].
        apply (NoDup_map_eq p_id (commit_proposals w) p' p Hnd Hp').
        + eapply lookup_commit_In; eassumption.
        + apply lookup_commit_id in Hp. congruence.
      - rewrite E in Hp'. apply pending_after_status in Hp'; [| assumption |].
        + tauto.
        + destruct Hst2; subst st; discriminate. }
    constructor.
    + rewrite Hvotes, map_app. apply NoDup_app.
      * now apply NoDup_map_filter.
      * repeat constructor. intros [].
      * intros k Hk [<- | []]. apply in_map_iff in Hk. destruct Hk as (x & E & Hx).
        apply filter_In in Hx. destruct Hx as [_ Hx]. apply negb_true_iff in Hx.
        unfold vote_key in E. injection E as E1 E2.
        rewrite (vote_conflicts_key v x E1 E2) in Hx. discriminate.
    + rewrite Hvotes, map_app. apply NoDup_app.
      * now apply NoDup_map_filter.
      * repeat constructor. intros [].
      * intros k Hk [<- | []]. apply in_map_iff in Hk. destruct Hk as (x & E & Hx).
        apply filter_In in Hx. destruct Hx as [_ Hx]. apply negb_true_iff in Hx.
        unfold vote_conflicts in Hx. rewrite E, String.eqb_refl in Hx. discriminate.
    + intros x Hx. rewrite Hvotes in Hx. apply in_app_or in Hx.
      destruct Hx as [Hx | [<- | []]].
      * apply filter_In in Hx. apply B3. tauto.
      * subst v. exact Hch.
    + intros x Hx. rewrite Hpids. rewrite Hvotes in Hx. apply in_app_or in Hx.
      destruct Hx as [Hx | [<- | []]].
      * apply filter_In in Hx. apply B4. tauto.
      * rewrite Ecid. apply lookup_commit_id in Hp as Hid. rewrite <- Hid.
        apply in_map. eapply lookup_commit_In; eassumption.
    + intros x Hx. rewrite Hmem. rewrite Hvotes in Hx. apply in_app_or in Hx.
      destruct Hx as [Hx | [<- | []]].
      * apply filter_In in Hx. apply B5. tauto.
      * subst v. cbn [voter_id]. apply in_map.
        now destruct (lookup_by_name_active _ _ _ Hm).
    + intros p' Hp' Hst'.
      destruct (String.eqb_spec (p_id p') cid) as [E | Hne].
      * rewrite E. now apply Hsame with (p' := p').
      * apply vetoes_nil_iff. intros x Hx. apply Hother in Hx; [| assumption].
        specialize (B6 p' (Hold p' Hp' Hst' Hne) Hst').
        rewrite vetoes_nil_iff in B6. now apply B6.
    + intros p' Hp' Hst' Hmode.
      destruct (String.eqb_spec (p_id p') cid) as [E | Hne].
      * rewrite E. now apply (Hsame p').
      * apply count_zero_iff. intros x Hx. apply Hother in Hx; [| assumption].
        specialize (B7 p' (Hold p' Hp' Hst' Hne) Hst' Hmode).
        unfold rejections_of in B7. rewrite count_zero_iff in B7. now apply B7.
  - destruct (other_calls _ _ _ _ H Hr) as (Hvotes & _ & Hprops).
    assert (forall q, votes_for q w' = votes_for q w) as Hvf
      by (intros q; unfold votes_for; now rewrite Hvotes).
    assert (forall q, vetoes_of q w' = vetoes_of q w) as Hvt
      by (intros q; unfold vetoes_of; now rewrite Hvf).
    assert (forall q, rejections_of q w' = rejections_of q w) as Hrj
      by (intros q; unfold rejections_of; now rewrite Hvf).
    assert (forall p', In p' (commit_proposals w') ->
            In p' (commit_proposals w) \/ votes_for (p_id p') w = []) as Hcases.
    { intros p' Hp'.
      destruct Hprops as [(E & _) | (p & E & _ & _ & _ & Hfresh & _)]; rewrite E in Hp'.
      - now left.
      - apply in_app_or in Hp'. destruct Hp' as [Hp' | [<- | []]]; [now left | right].
        apply filter_none. intros x Hx. apply String.eqb_neq. intros Ex.
        apply Hfresh. rewrite <- Ex. now apply B4. }
    constructor.
    + now rewrite Hvotes.
    + now rewrite Hvotes.
    + intros x Hx. rewrite Hvotes in Hx. now apply B3.
    + intros x Hx. rewrite Hvotes in Hx. apply B4 in Hx.
      destruct Hprops as [(E & _) | (p & E & _)]; rewrite E; [assumption |].
      rewrite map_app. apply in_or_app. now left.
    + intros x Hx. rewrite Hvotes in Hx. apply Hids. now apply B5.
    + intros p' Hp' Hst'. rewrite Hvt.
      destruct (Hcases p' Hp') as [Hin | Hnil]; [now apply B6 |].
      unfold vetoes_of. now rewrite Hnil.
    + intros p' Hp' Hst' Hmode. rewrite Hrj.
      destruct (Hcases p' Hp') as [Hin | Hnil]; [now apply B7 |].
      unfold rejections_of. now rewrite Hnil.
Qed.

Lemma reachable_ballots w : reachable w -> ballots_ok w.
Proof.
  intros H. induction H as [mode uuids clock | w c r w' Hw IH Hrun].
  - apply fresh_ballots.
  - eapply run_ballots; [exact Hrun | | exact IH].
    exact (ids_unique (reachable_consistent w Hw)).
Qed.

(** ** The invariant of the messages and of the records of who did what *)

Lemma NoDup_snoc {A B : Type} (f : A -> B) (l : list A) (x : A) :
  NoDup (map f l) -> ~ In (f x) (map f l) -> NoDup (map f (l ++ [x])).
Proof.
  intros Hnd Hx. rewrite map_app. apply NoDup_app.
  - assumption.
  - repeat constructor. intros [].
  - intros k Hk [<- | []]. contradiction.
Qed.

Lemma logs_refl w : logs [] w w.
Proof.
  unfold logs. rewrite !app_nil_r. repeat split; auto. intros m [].
Qed.

Lemma logs_trans ms1 ms2 w w1 w' :
  logs ms1 w w1 -> logs ms2 w1 w' ->
  incl (map m_id (members w1)) (map m_id (members w')) ->
  logs (ms1 ++ ms2) w w'.
Proof.
  intros (A1 & A2 & A3 & A4 & A5) (B1 & B2 & B3 & B4 & B5) Hincl.
  unfold logs. rewrite B1, A1, B2, A2, B3, A3, !app_assoc.
  repeat split; try reflexivity.
  - intros m Hm. apply in_app_or in Hm. destruct Hm as [Hm | Hm]; [| now apply B4].
    destruct (A4 m Hm) as [E | Hin]; [now left | right]. now apply Hincl.
  - intros Hnd. rewrite <- A1, <- B1. auto.
Qed.

Ltac log_solve :=
  unfold logs, announced, proposed_events, known_party; proj_simpl;
  rewrite ?flat_map_app; simpl; rewrite ?app_nil_r, <- ?app_assoc;
  repeat split; try reflexivity;
  [ intros ? [<- | []]; simpl; auto
  | intros ?; apply NoDup_snoc; [assumption | apply mem_string_false_iff; assumption] ].

Lemma resolve_commit_logs cid st ann w u w' :
  _resolve_commit cid st ann w = (Ret u, w') -> exists m, logs [m] w w'.
Proof.
  intros H. unfold _resolve_commit in H. minv H. eexists. log_solve.
Qed.

Lemma commit_to_context_logs p w u w' :
  _commit_to_context p w = (Ret u, w') -> exists m, logs [m] w w'.
Proof.
  intros H. unfold _commit_to_context in H.
  apply bind_inv in H. destruct H as (a & w1 & H1 & H). minv H1.
  apply bind_inv in H. destruct H as (e0 & w2 & H2 & H). minv H2.
  apply bind_inv in H. destruct H as (e & w3 & H3 & H). minv H3.
  apply bind_inv in H. destruct H as (u1 & w4 & H4 & H).
  apply resolve_commit_logs in H4. destruct H4 as (m & L1 & L2 & L3 & L4 & L5).
  minv H. exists m. revert L1 L2 L3 L4 L5.
  unfold logs, announced, proposed_events, known_party. proj_simpl.
  rewrite ?flat_map_app. simpl. rewrite ?app_nil_r.
  intros -> -> -> L4 L5. auto.
Qed.

Lemma commit_to_context_entry p w u w' :
  _commit_to_context p w = (Ret u, w') ->
  exists e, context_entries w' = context_entries w ++ [e] /\
            entry_commit_id e = p_id p /\
            committed_by e = proposed_by_name p /\
            entry_origin e = p_origin p /\
            entry_content e = p_content p.
Proof.
  intros H. unfold _commit_to_context in H.
  apply bind_inv in H. destruct H as (a & w1 & H1 & H). minv H1.
  apply bind_inv in H. destruct H as (e0 & w2 & H2 & H). minv H2.
  apply bind_inv in H. destruct H as (e & w3 & H3 & H). minv H3.
  apply bind_inv in H. destruct H as (u1 & w4 & H4 & H).
  apply resolve_commit_inv in H4. destruct H4 as (m & t1 & t2 & _ & _ & Hctx & _).
  minv H. proj_simpl. eexists. split; [exact Hctx |]. repeat split.
Qed.

Lemma evaluate_logs cid w r w' :
  _evaluate_consensus cid w = (Ret r, w') ->
  (exists ms, logs ms w w') /\
  (context_entries w' = context_entries w \/
   exists p e, lookup_commit cid w = Some p /\
               context_entries w' = context_entries w ++ [e] /\
               entry_commit_id e = p_id p /\
               committed_by e = proposed_by_name p /\
               entry_origin e = p_origin p).
Proof.
  intros H. unfold _evaluate_consensus in H. minv H.
  all: try (split; [exists []; apply logs_refl | left; reflexivity]).
  all: match goal with
       | H : _resolve_commit _ _ _ _ = _ |- _ =>
           pose proof (resolve_commit_logs _ _ _ _ _ _ H) as (m & L);
           apply resolve_commit_inv in H; destruct H as (? & ? & ? & _ & _ & Hctx & _);
           split; [exists [m]; exact L | left; exact Hctx]
       | H : _commit_to_context _ _ = _ |- _ =>
           pose proof (commit_to_context_logs _ _ _ _ H) as (m & L);
           apply commit_to_context_entry in H;
           destruct H as (e & Hctx & E1 & E2 & E3 & _);
           split; [exists [m]; exact L | right; eexists _, e; split; [eassumption |]; auto]
       end.
Qed.

Lemma vote_logs voter cid ch h w r w' :
  vote voter cid ch h w = (Ret r, w') ->
  (exists ms, logs ms w w') /\
  (context_entries w' = context_entries w \/
   exists p e, lookup_commit cid w = Some p /\
               context_entries w' = context_entries w ++ [e] /\
               entry_commit_id e = p_id p /\
               committed_by e = proposed_by_name p /\
               entry_origin e = p_origin p).
Proof.
  intros H. unfold vote in H. minv H.
  all: try (split; [exists []; apply logs_refl | left; reflexivity]).
  match goal with
  | H : _evaluate_consensus _ ?w1 = _ |- _ =>
      pose proof (evaluate_keeps _ _ _ _ H) as (Hmem & _);
      apply evaluate_logs in H; destruct H as ((ms & L) & Hent);
      assert (exists m, logs [m] w w1) as (m & L0) by (eexists; log_solve)
  end.
  split.
  - exists ([m] ++ ms). eapply logs_trans; [exact L0 | exact L |].
    rewrite Hmem. apply incl_refl.
  - exact Hent.
Qed.

Lemma run_logs c w r w' :
  run c w = (Ret r, w') ->
  (forall v res, r <> Voted v res) ->
  exists ms, messages w' = messages w ++ ms /\
             announced w' = announced w ++ ms /\
             (forall m, In m ms -> known_party w' (sender_id m)) /\
             (NoDup (map msg_id (messages w)) -> NoDup (map msg_id (messages w'))).
Proof.
  intros H Hr. destruct c; simpl in H.
  - clear Hr. unfold join in H. minv H.
    + exists []. rewrite !app_nil_r. repeat split; auto. intros m [].
    + eexists (_ :: nil). unfold announced, known_party. proj_simpl.
      rewrite ?flat_map_app. simpl. rewrite ?app_nil_r, <- ?app_assoc.
      repeat split; try reflexivity.
      * intros ? [<- | []]; simpl; auto.
      * intros ?; apply NoDup_snoc; [assumption | apply mem_string_false_iff; assumption].
  - clear Hr. unfold leave in H. minv H.
    + eexists (_ :: nil). unfold announced, known_party. proj_simpl.
      rewrite ?flat_map_app. simpl. rewrite ?app_nil_r, <- ?app_assoc.
      repeat split; try reflexivity.
      * intros ? [<- | []]; simpl; auto.
      * intros ?; apply NoDup_snoc; [assumption | apply mem_string_false_iff; assumption].
    + exists []. rewrite !app_nil_r. repeat split; auto. intros m [].
  - clear Hr. unfold send_message in H. minv H.
    + eexists (_ :: nil). unfold announced, known_party. proj_simpl.
      rewrite ?flat_map_app. simpl. rewrite ?app_nil_r, <- ?app_assoc.
      repeat split; try reflexivity.
      * intros ? [<- | []]; simpl. right. apply in_map.
        match goal with
        | E : find _ _ = Some _ |- _ => apply find_some in E; tauto
        end.
      * intros ?; apply NoDup_snoc; [assumption | apply mem_string_false_iff; assumption].
    + exists []. rewrite !app_nil_r. repeat split; auto. intros m [].
  - clear Hr. unfold propose_commit in H. minv H.
    + exists []. rewrite !app_nil_r. repeat split; auto. intros m [].
    + eexists (_ :: nil). unfold announced, known_party. proj_simpl.
      rewrite ?flat_map_app. simpl. rewrite ?app_nil_r, <- ?app_assoc.
      repeat split; try reflexivity.
      * intros ? [<- | []]; simpl; auto.
      * intros ?; apply NoDup_snoc; [assumption | apply mem_string_false_iff; assumption].
  - destruct (vote_logs _ _ _ _ _ _ _ H) as ((ms & L1 & L2 & _ & L4 & L5) & _).
    exists ms. auto.
Qed.

Lemma reply_cases (r : Reply) :
  (exists v res, r = Voted v res) \/ (forall v res, r <> Voted v res).
Proof. destruct r; try (right; intros; discriminate). left. eauto. Qed.

Lemma run_proposals c w r w' :
  run c w = (Ret r, w') ->
  (commit_proposals w' = commit_proposals w /\ proposed_events w' = proposed_events w) \/
  (exists p, commit_proposals w' = commit_proposals w ++ [p] /\
             proposed_events w' = proposed_events w ++ [p] /\
             status p = "pending" /\ resolved_at p = None /\
             known_party w (proposed_by p)) \/
  (exists cid st t, (st = "approved" \/ st = "rejected") /\
                    commit_proposals w' = set_status cid st t (commit_proposals w) /\
                    proposed_events w' = proposed_events w).
Proof.
  intros H. destruct (reply_cases r) as [(v & res & ->) | Hr].
  - destruct (voted_is_vote _ _ _ _ _ H) as (voter & cid & ch & h & ->). simpl in H.
    destruct (vote_logs _ _ _ _ _ _ _ H) as ((ms & _ & _ & Hpe & _) & _).
    apply vote_effect in H.
    destruct H as (m & p & _ & _ & _ & _ & _ & _ & _ & Hres).
    destruct Hres as [(a & b & c0 & d & _ & E & _) | (st & reason & t & _ & Hst & E)].
    + left. auto.
    + right. right. exists cid, st, t. auto.
  - destruct (other_calls _ _ _ _ H Hr) as (_ & _ & [Hsame | (p & E1 & E2 & E3 & E4 & _ & E5 & _)]).
    + left. exact Hsame.
    + right. left. exists p. auto.
Qed.

Lemma run_entries c w r w' :
  run c w = (Ret r, w') ->
  context_entries w' = context_entries w \/
  exists p e, In p (commit_proposals w) /\
              context_entries w' = context_entries w ++ [e] /\
              entry_commit_id e = p_id p /\
              committed_by e = proposed_by_name p /\
              entry_origin e = p_origin p.
Proof.
  intros H. destruct (reply_cases r) as [(v & res & ->) | Hr].
  - destruct (voted_is_vote _ _ _ _ _ H) as (voter & cid & ch & h & ->). simpl in H.
    destruct (vote_logs _ _ _ _ _ _ _ H) as (_ & [E | (p & e & Hp & E)]).
    + now left.
    + right. exists p, e. split; [eapply lookup_commit_In; eassumption | exact E].
  - left. now destruct (other_calls _ _ _ _ H Hr) as (_ & E & _).
Qed.

Lemma run_keeps_proposal c w r w' p :
  run c w = (Ret r, w') -> In p (commit_proposals w) ->
  exists p', In p' (commit_proposals w') /\ p_id p' = p_id p /\
             proposed_by p' = proposed_by p /\
             proposed_by_name p' = proposed_by_name p /\ p_origin p' = p_origin p.
Proof.
  intros H Hp. apply run_proposals in H.
  destruct H as [(E & _) | [(q & E & _) | (cid & st & t & _ & E & _)]]; rewrite E.
  - exists p. auto.
  - exists p. split; [apply in_or_app; now left | auto].
  - exists (if p_id p =? cid then with_status p st t else p). split.
    + unfold set_status. apply in_map_iff. exists p. auto.
    + destruct (p_id p =? cid); auto.
Qed.

Lemma known_party_grows c w r w' i :
  run c w = (Ret r, w') -> known_party w i -> known_party w' i.
Proof.
  intros H [E | Hin]; [now left | right]. eapply run_member_ids; eassumption.
Qed.

Lemma fresh_tidy mode uuids clock : tidy (fresh mode uuids clock).
Proof. constructor; simpl; try (intros ? []); try reflexivity; constructor. Qed.

Lemma run_tidy c w r w' :
  run c w = (Ret r, w') -> tidy w -> tidy w'.
Proof.
  intros H [T1 T2 T3 T4 T5 T6 T7].
  assert (exists ms, messages w' = messages w ++ ms /\
                     announced w' = announced w ++ ms /\
                     (forall m, In m ms -> known_party w' (sender_id m)) /\
                     (NoDup (map msg_id (messages w)) -> NoDup (map msg_id (messages w'))))
    as (ms & L1 & L2 & L3 & L4).
  { destruct (reply_cases r) as [(v & res & ->) | Hr].
    - destruct (voted_is_vote _ _ _ _ _ H) as (voter & cid & ch & h & ->). simpl in H.
      destruct (vote_logs _ _ _ _ _ _ _ H) as ((ms & A1 & A2 & _ & A4 & A5) & _).
      exists ms. auto.
    - eapply run_logs; eassumption. }
  pose proof (run_proposals _ _ _ _ H) as Hprops.
  constructor.
  - auto.
  - rewrite L2, L1, T2. reflexivity.
  - destruct Hprops as [(E1 & E2) | [(q & E1 & E2 & _) | (cid & st & t & _ & E1 & E2)]];
      rewrite E1, E2.
    + exact T3.
    + unfold proposed_events in *. rewrite !map_app, T3. reflexivity.
    + rewrite set_status_ids. exact T3.
  - intros m Hm. rewrite L1 in Hm. apply in_app_or in Hm. destruct Hm as [Hm | Hm].
    + eapply known_party_grows; [exact H | now apply T4].
    + now apply L3.
  - intros p Hp.
    destruct Hprops as [(E1 & _) | [(q & E1 & _ & _ & _ & Hq) | (cid & st & t & _ & E1 & _)]];
      rewrite E1 in Hp.
    + eapply known_party_grows; [exact H | now apply T5].
    + apply in_app_or in Hp. destruct Hp as [Hp | [<- | []]];
        (eapply known_party_grows; [exact H |]); [now apply T5 | exact Hq].
    + apply In_set_status in Hp. destruct Hp as (q & Hq & ->).
      eapply known_party_grows; [exact H |].
      destruct (p_id q =? cid); [cbn [proposed_by with_status] |]; now apply T5.
  - intros p Hp.
    destruct Hprops as [(E1 & _) | [(q & E1 & _ & Hst & Hres & _) | (cid & st & t & Hst & E1 & _)]];
      rewrite E1 in Hp.
    + now apply T6.
    + apply in_app_or in Hp. destruct Hp as [Hp | [<- | []]]; [now apply T6 |].
      rewrite Hst, Hres. tauto.
    + apply In_set_status in Hp. destruct Hp as (q & Hq & ->).
      destruct (p_id q =? cid); [| now apply T6].
      cbn [resolved_at status with_status].
      split; [discriminate |]. destruct Hst; subst st; discriminate.
  - intros e He.
    assert (exists p, In p (commit_proposals w) /\ p_id p = entry_commit_id e /\
                      committed_by e = proposed_by_name p /\ entry_origin e = p_origin p)
      as (p & Hp & E1 & E2 & E3).
    { destruct (run_entries _ _ _ _ H) as [E | (p & e' & Hp & E & A1 & A2 & A3)];
        rewrite E in He.
      - now apply T7.
      - apply in_app_or in He. destruct He as [He | [<- | []]]; [now apply T7 |].
        exists p. auto. }
    destruct (run_keeps_proposal _ _ _ _ p H Hp) as (p' & Hp' & K1 & _ & K2 & K3).
    exists p'. split; [assumption |]. repeat split; congruence.
Qed.

Lemma reachable_tidy w : reachable w -> tidy w.
Proof.
  intros H. induction H as [mode uuids clock | w c r w' Hw IH Hrun].
  - apply fresh_tidy.
  - eapply run_tidy; eassumption.
Qed.

(** ** Reading the messages *)

Lemma ltb_lt a b : String.ltb a b = true <-> String_as_OT.lt a b.
Proof.
  unfold String.ltb. rewrite <- String_as_OT.cmp_lt. unfold String_as_OT.cmp.
  destruct (String.compare a b); split; congruence.
Qed.

Lemma ltb_trans a b c : String.ltb a b = true -> String.ltb b c = true -> String.ltb a c = true.
Proof. rewrite !ltb_lt. apply String_as_OT.lt_trans. Qed.

Lemma ltb_asym a b : String.ltb a b = true -> String.ltb b a = false.
Proof.
  unfold String.ltb. rewrite (String.compare_antisym b a).
  destruct (String.compare a b); simpl; congruence.
Qed.

Lemma timestamp_le_lt_trans x m y :
  String.ltb (timestamp m) (timestamp x) = true -> timestamp_le x y -> timestamp_le m y.
Proof.
  unfold timestamp_le. intros Hmx Hxy.
  destruct (String.ltb (timestamp y) (timestamp m)) eqn:E; [| reflexivity].
  rewrite (ltb_trans _ _ _ E Hmx) in Hxy. discriminate.
Qed.

Lemma insert_by_timestamp_perm m l : Permutation (insert_by_timestamp m l) (m :: l).
Proof.
  induction l as [| x l IH]; simpl; [reflexivity |].
  destruct (String.ltb (timestamp m) (timestamp x)); [reflexivity |].
  rewrite IH. apply perm_swap.
Qed.

Lemma order_by_timestamp_perm l : Permutation (order_by_timestamp l) l.
Proof.
  unfold order_by_timestamp.
  assert (forall acc, Permutation (fold_left (fun acc m => insert_by_timestamp m acc) l acc)
                                  (acc ++ l)) as H.
  { induction l as [| x l IH]; intros acc; simpl.
    - now rewrite app_nil_r.
    - rewrite IH, insert_by_timestamp_perm. apply Permutation_middle. }
  apply (H []).
Qed.

Lemma insert_by_timestamp_sorted m l :
  StronglySorted timestamp_le l -> StronglySorted timestamp_le (insert_by_timestamp m l).
Proof.
  induction l as [| x l IH]; simpl; intros H.
  - repeat constructor.
  - inversion H as [| ? ? Hs Hall]; subst.
    destruct (String.ltb (timestamp m) (timestamp x)) eqn:E.
    + constructor; [assumption |]. constructor.
      * unfold timestamp_le. now apply ltb_asym.
      * rewrite Forall_forall in *. intros y Hy.
        eapply timestamp_le_lt_trans; [exact E | now apply Hall].
    + constructor; [now apply IH |].
      rewrite Forall_forall in *. intros y Hy.
      apply (Permutation_in _ (insert_by_timestamp_perm m l)) in Hy.
      destruct Hy as [<- | Hy]; [exact E | now apply Hall].
Qed.

Lemma order_by_timestamp_sorted l : StronglySorted timestamp_le (order_by_timestamp l).
Proof.
  unfold order_by_timestamp.
  assert (forall acc, StronglySorted timestamp_le acc ->
            StronglySorted timestamp_le
              (fold_left (fun acc m => insert_by_timestamp m acc) l acc)) as H.
  { induction l as [| x l IH]; intros acc Hacc; simpl; [assumption |].
    apply IH. now apply insert_by_timestamp_sorted. }
  apply H. constructor.
Qed.

Lemma sorted_app_inv {A : Type} (R : A -> A -> Prop) (a b : list A) :
  StronglySorted R (a ++ b) ->
  StronglySorted R a /\ StronglySorted R b /\ (forall x y, In x a -> In y b -> R x y).
Proof.
  induction a as [| h a IH]; simpl; intros H.
  - split; [constructor |]. split; [assumption |]. intros x y [].
  - inversion H as [| ? ? Hs Hall]; subst.
    destruct (IH Hs) as (Ha & Hb & Hab). rewrite Forall_forall in Hall.
    split; [| split].
    + constructor; [assumption |]. apply Forall_forall. intros y Hy.
      apply Hall. apply in_or_app. now left.
    + assumption.
    + intros x y [<- | Hx] Hy; [| now apply Hab].
      apply Hall. apply in_or_app. now right.
Qed.

Lemma last_rows {A : Type} (n : nat) (l : list A) :
  rev (firstn n (rev l)) = skipn (List.length l - n) l.
Proof. rewrite firstn_rev. apply rev_involutive. Qed.

(** X11: the window of messages read_messages returns.  A limit beyond the
    64-bit integers raises OverflowError.  Otherwise the call returns, and
    changes nothing; the result is in ascending order of timestamp; with a
    non-empty [since] it holds the oldest messages later than [since], and
    without one the newest messages of all, up to the limit in both cases;
    a negative limit is no limit. *)
Theorem read_messages_window since limit w :
  ((sqlite_max_int < limit \/ limit < sqlite_min_int)%Z ->
     read_messages since limit w = (Raise OverflowError, w)) /\
  ((sqlite_min_int <= limit <= sqlite_max_int)%Z ->
   exists result rest,
     read_messages since limit w = (Ret result, w) /\
     StronglySorted timestamp_le result /\
     List.length result
     = (if (limit <? 0)%Z then List.length (result ++ rest)
        else Nat.min (Z.to_nat limit) (List.length (result ++ rest))) /\
     if truthy since
     then Permutation (result ++ rest) (filter (newer_than since) (messages w)) /\
          (forall x y, In x result -> In y rest -> timestamp_le x y)
     else Permutation (rest ++ result) (messages w) /\
          (forall x y, In x rest -> In y result -> timestamp_le x y)).
Proof.
  split.
  - intros Hout. unfold read_messages, get_messages.
    assert ((sqlite_max_int <? limit)%Z || (limit <? sqlite_min_int)%Z = true) as ->.
    { apply orb_true_iff. rewrite !Z.ltb_lt. exact Hout. }
    reflexivity.
  - intros Hin. unfold read_messages, get_messages.
    assert ((sqlite_max_int <? limit)%Z || (limit <? sqlite_min_int)%Z = false) as ->.
    { apply orb_false_iff. rewrite !Z.ltb_ge. lia. }
    assert (forall rows : list Message,
              exists rest,
                StronglySorted timestamp_le (limit_rows limit (order_by_timestamp rows)) /\
                List.length (limit_rows limit (order_by_timestamp rows))
                = (if (limit <? 0)%Z
                   then List.length (limit_rows limit (order_by_timestamp rows) ++ rest)
                   else Nat.min (Z.to_nat limit)
                          (List.length (limit_rows limit (order_by_timestamp rows) ++ rest))) /\
                Permutation (limit_rows limit (order_by_timestamp rows) ++ rest) rows /\
                (forall x y, In x (limit_rows limit (order_by_timestamp rows)) -> In y rest ->
                             timestamp_le x y)) as Hfirst.
    { intros rows. unfold limit_rows.
      pose proof (order_by_timestamp_sorted rows) as Hs.
      pose proof (order_by_timestamp_perm rows) as Hp.
      destruct (limit <? 0)%Z.
      - exists []. rewrite app_nil_r. repeat split; auto. intros x y _ [].
      - exists (skipn (Z.to_nat limit) (order_by_timestamp rows)).
        rewrite firstn_skipn.
        rewrite <- (firstn_skipn (Z.to_nat limit) (order_by_timestamp rows)) in Hs.
        apply sorted_app_inv in Hs. destruct Hs as (Ha & _ & Hab).
        repeat split; auto. apply length_firstn. }
    assert (exists rest,
              StronglySorted timestamp_le
                (rev (limit_rows limit (rev (order_by_timestamp (messages w))))) /\
              List.length (rev (limit_rows limit (rev (order_by_timestamp (messages w)))))
              = (if (limit <? 0)%Z
                 then List.length (rev (limit_rows limit (rev (order_by_timestamp (messages w))))
                                   ++ rest)
                 else Nat.min (Z.to_nat limit)
                        (List.length
                           (rev (limit_rows limit (rev (order_by_timestamp (messages w))))
                            ++ rest))) /\
              Permutation (rest ++ rev (limit_rows limit (rev (order_by_timestamp (messages w)))))
                          (messages w) /\
              (forall x y, In x rest ->
                           In y (rev (limit_rows limit (rev (order_by_timestamp (messages w))))) ->
                           timestamp_le x y)) as Hlast.
    { unfold limit_rows.
      pose proof (order_by_timestamp_sorted (messages w)) as Hs.
      pose proof (order_by_timestamp_perm (messages w)) as Hp.
      destruct (limit <? 0)%Z.
      - exists []. rewrite rev_involutive, app_nil_r. repeat split; auto. intros x y [].
      - rewrite last_rows.
        set (S := order_by_timestamp (messages w)) in *.
        exists (firstn (List.length S - Z.to_nat limit) S).
        rewrite firstn_skipn.
        rewrite <- (firstn_skipn (List.length S - Z.to_nat limit) S) in Hs.
        apply sorted_app_inv in Hs. destruct Hs as (_ & Hb & Hab).
        repeat split; auto.
        rewrite length_app, length_skipn, length_firstn. lia. }
    destruct since as [s |]; unfold truthy; cbv beta iota.
    + destruct (negb (s =? "")).
      * destruct (Hfirst (filter (fun r => String.ltb s (timestamp r)) (messages w)))
          as (rest & H1 & H2 & H3 & H4).
        eexists _, rest. split; [reflexivity |]. repeat split; assumption.
      * destruct Hlast as (rest & H1 & H2 & H3 & H4).
        eexists _, rest. split; [reflexivity |]. repeat split; assumption.
    + destruct Hlast as (rest & H1 & H2 & H3 & H4).
      eexists _, rest. split; [reflexivity |]. repeat split; assumption.
Qed.

(** ** Counting proposals, entries and votes *)

Lemma filter_split_length {A : Type} (f : A -> bool) (l : list A) :
  List.length l = List.length (filter f l) + List.length (filter (fun x => negb (f x)) l).
Proof.
  induction l as [| a l IH]; simpl; [reflexivity |].
  destruct (f a); simpl; lia.
Qed.

Lemma entries_by_proposal (ps : list CommitProposal) : forall es : list ContextEntry,
  NoDup (map p_id ps) ->
  (forall e, In e es -> In (entry_commit_id e) (map p_id ps)) ->
  List.length es
  = list_sum (map (fun p => List.length (filter (fun e => entry_commit_id e =? p_id p) es)) ps).
Proof.
  induction ps as [| p ps IH]; intros es Hnd Hown; simpl.
  - destruct es as [| e es]; [reflexivity |]. destruct (Hown e (or_introl eq_refl)).
  - inversion Hnd as [| ? ? Hnotin Hnd']; subst.
    rewrite (filter_split_length (fun e => entry_commit_id e =? p_id p) es). f_equal.
    rewrite (IH (filter (fun x => negb (entry_commit_id x =? p_id p)) es) Hnd').
    + f_equal. apply map_ext_in. intros q Hq. f_equal.
      clear - Hq Hnotin. induction es as [| e es IHes]; simpl; [reflexivity |].
      destruct (entry_commit_id e =? p_id p) eqn:E1; simpl.
      * apply String.eqb_eq in E1.
        destruct (entry_commit_id e =? p_id q) eqn:E2; [| exact IHes].
        apply String.eqb_eq in E2. exfalso. apply Hnotin. rewrite <- E1, E2. now apply in_map.
      * destruct (entry_commit_id e =? p_id q); simpl; now rewrite IHes.
    + intros e He. apply filter_In in He. destruct He as [He Hne].
      destruct (Hown e He) as [E | Hin]; [| assumption].
      rewrite E, String.eqb_refl in Hne. discriminate.
Qed.

Lemma approved_count w :
  consistent w ->
  List.length (context_entries w) = with_status_count "approved" w.
Proof.
  intros C.
  rewrite (entries_by_proposal (commit_proposals w) (context_entries w)
             (ids_unique C) (entries_owned C)).
  unfold with_status_count, count.
  pose proof (entries_of_approved C) as H.
  induction (commit_proposals w) as [| p ps IH]; simpl; [reflexivity |].
  rewrite IH by (intros q Hq; apply H; now right).
  specialize (H p (or_introl eq_refl)).
  rewrite <- (length_map entry_content), H.
  destruct (status p =? "approved"); reflexivity.
Qed.

Lemma status_partition w :
  consistent w ->
  with_status_count "pending" w + with_status_count "approved" w
  + with_status_count "rejected" w = List.length (commit_proposals w).
Proof.
  intros C. unfold with_status_count, count.
  pose proof (statuses_known C) as H.
  induction (commit_proposals w) as [| p ps IH]; simpl; [reflexivity |].
  specialize (IH (fun q Hq => H q (or_intror Hq))).
  destruct (H p (or_introl eq_refl)) as [E | [E | E]]; rewrite E; simpl; lia.
Qed.

Lemma insert_by_created_at_perm p l : Permutation (insert_by_created_at p l) (p :: l).
Proof.
  induction l as [| x l IH]; simpl; [reflexivity |].
  destruct (String.ltb (created_at p) (created_at x)); [reflexivity |].
  rewrite IH. apply perm_swap.
Qed.

Lemma order_by_created_at_perm l : Permutation (order_by_created_at l) l.
Proof.
  unfold order_by_created_at.
  assert (forall acc, Permutation (fold_left (fun acc p => insert_by_created_at p acc) l acc)
                                  (acc ++ l)) as H.
  { induction l as [| x l IH]; intros acc; simpl.
    - now rewrite app_nil_r.
    - rewrite IH, insert_by_created_at_perm. apply Permutation_middle. }
  apply (H []).
Qed.

Lemma choices_partition (vs : list Vote) :
  (forall v, In v vs -> valid_choice (choice v) = true) ->
  count (fun v => choice v =? "approve") vs + count (fun v => choice v =? "reject") vs
  + count (fun v => choice v =? "abstain") vs = List.length vs.
Proof.
  unfold count. induction vs as [| v vs IH]; simpl; intros H; [reflexivity |].
  specialize (IH (fun x Hx => H x (or_intror Hx))).
  specialize (H v (or_introl eq_refl)). unfold valid_choice in H.
  destruct (choice v =? "approve") eqn:E1.
  - apply String.eqb_eq in E1. rewrite E1. simpl. lia.
  - destruct (choice v =? "reject") eqn:E2.
    + apply String.eqb_eq in E2. rewrite E2. simpl. lia.
    + simpl in H. rewrite H. simpl. lia.
Qed.

Lemma voters_distinct cid w :
  NoDup (map vote_key (votes w)) -> NoDup (map voter_id (votes_for cid w)).
Proof.
  unfold votes_for. induction (votes w) as [| v vs IH]; simpl; intros H; [constructor |].
  inversion H as [| ? ? Hnotin Hnd]; subst.
  destruct (commit_id v =? cid) eqn:E; [| now apply IH].
  simpl. constructor; [| now apply IH].
  intros Hin. apply in_map_iff in Hin. destruct Hin as (x & Ex & Hx).
  apply filter_In in Hx. destruct Hx as [Hx Ec].
  apply String.eqb_eq in E, Ec. apply Hnotin. apply in_map_iff. exists x.
  split; [| assumption]. unfold vote_key. congruence.
Qed.

Lemma votes_bounded cid w :
  ballots_ok w -> List.length (votes_for cid w) <= List.length (members w).
Proof.
  intros B.
  rewrite <- (length_map voter_id (votes_for cid w)), <- (length_map m_id (members w)).
  apply NoDup_incl_length.
  - apply voters_distinct. exact (vote_keys_unique B).
  - intros i Hi. apply in_map_iff in Hi. destruct Hi as (v & <- & Hv).
    apply filter_In in Hv. destruct Hv as [Hv _]. exact (voters_known B v Hv).
Qed.

Lemma with_votes_eq w : forall commits,
  with_votes commits w
  = (Ret (map (fun c => mkPendingCommit c (votes_for (p_id c) w)
                          (summarize (votes_for (p_id c) w))) commits), w).
Proof.
  induction commits as [| c rest IH]; simpl; [reflexivity |].
  unfold bind at 1. unfold get_votes_for_commit, gets.
  unfold bind. rewrite IH. reflexivity.
Qed.

(** X12: at most one vote per member on a proposal.  In every world the engine
    reaches, the voters of a proposal are pairwise distinct and are stored
    members, so the votes on it are no more than the members ever stored;
    every choice is approve, reject or abstain, and the three counts add up
    to the number of votes. *)
Theorem one_vote_per_member w cid :
  reachable w ->
  NoDup (map voter_id (votes_for cid w)) /\
  (forall v, In v (votes_for cid w) ->
     lookup_member (voter_id v) w <> None /\ valid_choice (choice v) = true) /\
  List.length (votes_for cid w) <= List.length (members w) /\
  approvals_of cid w + rejections_of cid w
  + count (fun v => choice v =? "abstain") (votes_for cid w)
  = List.length (votes_for cid w).
Proof.
  intros Hreach. pose proof (reachable_ballots w Hreach) as B.
  split; [| split; [| split]].
  - apply voters_distinct. exact (vote_keys_unique B).
  - intros v Hv. apply filter_In in Hv. destruct Hv as [Hv _]. split.
    + pose proof (voters_known B v Hv) as Hin. apply in_map_iff in Hin.
      destruct Hin as (m & E & Hm). unfold lookup_member. intros Hnone.
      pose proof (find_none _ _ Hnone m Hm) as Hf. cbv beta in Hf.
      rewrite E, String.eqb_refl in Hf. discriminate.
    + exact (choices_valid B v Hv).
  - now apply votes_bounded.
  - apply choices_partition. intros v Hv. apply filter_In in Hv.
    apply (choices_valid B). tauto.
Qed.

(** X13: what a pending proposal's votes can be.  In every world the engine
    reaches, no vote on a pending proposal is a rejection with the override
    flag, and a pending proposal in unanimous or no_objection mode has no
    rejection at all: such a vote resolved the proposal in the call that
    cast it. *)
Theorem pending_has_no_objection w cid p :
  reachable w ->
  lookup_commit cid w = Some p ->
  status p = "pending" ->
  vetoes_of cid w = [] /\
  (consensus_mode p = "unanimous" \/ consensus_mode p = "no_objection" ->
   rejections_of cid w = 0).
Proof.
  intros Hreach Hp Hst. pose proof (reachable_ballots w Hreach) as B.
  pose proof (lookup_commit_In _ _ _ Hp) as Hin.
  apply lookup_commit_id in Hp. subst cid. split.
  - exact (pending_unvetoed B p Hin Hst).
  - exact (pending_unopposed B p Hin Hst).
Qed.

(** X14: the status snapshot adds up.  In every world the engine reaches,
    get_status returns and changes nothing; its member count is the number
    of active members, its context version the number of approved
    proposals, its pending count the number of pending proposals, and
    pending, approved and rejected proposals are all the proposals there
    are. *)
Theorem status_adds_up w :
  reachable w ->
  exists s,
    get_status w = (Ret s, w) /\
    st_members s = active_members w /\
    st_member_count s = List.length (active_members w) /\
    st_context_version s = Z.of_nat (with_status_count "approved" w) /\
    st_pending_commits s = with_status_count "pending" w /\
    st_consensus_mode s = self_consensus_mode w /\
    with_status_count "pending" w + with_status_count "approved" w
    + with_status_count "rejected" w = List.length (commit_proposals w).
Proof.
  intros Hreach. pose proof (reachable_consistent w Hreach) as C.
  eexists. split; [reflexivity |]. cbn [st_members st_member_count st_context_version
                                        st_pending_commits st_consensus_mode].
  split; [reflexivity |]. split; [reflexivity |]. split; [| split; [| split]].
  - fold (currentVersion w). rewrite (currentVersion_dense w (versions_dense C)).
    f_equal. now apply approved_count.
  - rewrite (Permutation_length (order_by_created_at_perm _)). reflexivity.
  - reflexivity.
  - now apply status_partition.
Qed.

(** X15: the list of pending proposals with their votes.  In every world the
    engine reaches it returns, changing nothing, the pending proposals and
    no others, each with the votes stored on it; in each summary approvals,
    rejections and abstentions add up to the total, and the total is no more
    than the members ever stored. *)
Theorem pending_list_summaries w :
  reachable w ->
  exists l,
    pending_commits_with_votes w = (Ret l, w) /\
    Permutation (map pc_commit l)
                (filter (fun p => status p =? "pending") (commit_proposals w)) /\
    Forall (fun pc =>
              status (pc_commit pc) = "pending" /\
              pc_votes pc = votes_for (p_id (pc_commit pc)) w /\
              sum_approvals (pc_vote_summary pc) + sum_rejections (pc_vote_summary pc)
              + sum_abstentions (pc_vote_summary pc) = sum_total (pc_vote_summary pc) /\
              sum_total (pc_vote_summary pc) = List.length (pc_votes pc) /\
              sum_total (pc_vote_summary pc) <= List.length (members w)) l.
Proof.
  intros Hreach. pose proof (reachable_ballots w Hreach) as B.
  unfold pending_commits_with_votes.
  erewrite bind_fwd by reflexivity. rewrite with_votes_eq.
  eexists. split; [reflexivity |]. split.
  - rewrite map_map. cbn [pc_commit]. rewrite map_id. apply order_by_created_at_perm.
  - apply Forall_forall. intros pc Hpc. apply in_map_iff in Hpc.
    destruct Hpc as (c & <- & Hc). cbn [pc_commit pc_votes pc_vote_summary summarize
                                         sum_approvals sum_rejections sum_abstentions sum_total].
    apply (Permutation_in _ (order_by_created_at_perm _)) in Hc.
    apply filter_In in Hc. destruct Hc as [_ Hc]. apply String.eqb_eq in Hc.
    split; [assumption |]. split; [reflexivity |]. split; [| split; [reflexivity |]].
    + apply choices_partition. intros v Hv. apply filter_In in Hv.
      apply (choices_valid B). tauto.
    + now apply votes_bounded.
Qed.

(** ** What the records say *)

Lemma lookup_commit_unique w p :
  NoDup (map p_id (commit_proposals w)) -> In p (commit_proposals w) ->
  lookup_commit (p_id p) w = Some p.
Proof.
  intros Hnd Hp. unfold lookup_commit.
  destruct (find (fun r => p_id r =? p_id p) (commit_proposals w)) as [q |] eqn:E.
  - apply find_some in E. destruct E as [Hq E]. apply String.eqb_eq in E.
    f_equal. exact (NoDup_map_eq p_id _ q p Hnd Hq Hp E).
  - pose proof (find_none _ _ E p Hp) as Hf. cbv beta in Hf.
    rewrite String.eqb_refl in Hf. discriminate.
Qed.

(** X16: every record names who made it.  In every world the engine reaches,
    the sender of each message and the proposer of each proposal is the
    orchestrator or a stored member, active or not; each vote is by a stored
    member on a stored proposal; each ledger entry carries the name of the
    proposer and the origin of the proposal it was committed from. *)
Theorem records_are_attributed w :
  reachable w ->
  (forall m, In m (messages w) -> known_party w (sender_id m)) /\
  (forall p, In p (commit_proposals w) -> known_party w (proposed_by p)) /\
  (forall v, In v (votes w) ->
     lookup_member (voter_id v) w <> None /\ lookup_commit (commit_id v) w <> None) /\
  (forall e, In e (context_entries w) ->
     exists p, lookup_commit (entry_commit_id e) w = Some p /\
               committed_by e = proposed_by_name p /\ entry_origin e = p_origin p).
Proof.
  intros Hreach.
  pose proof (reachable_tidy w Hreach) as T.
  pose proof (reachable_ballots w Hreach) as B.
  pose proof (reachable_consistent w Hreach) as C.
  split; [exact (senders_known T) |]. split; [exact (proposers_known T) |]. split.
  - intros v Hv. split.
    + pose proof (voters_known B v Hv) as Hin. apply in_map_iff in Hin.
      destruct Hin as (m & E & Hm). unfold lookup_member. intros Hnone.
      pose proof (find_none _ _ Hnone m Hm) as Hf. cbv beta in Hf.
      rewrite E, String.eqb_refl in Hf. discriminate.
    + pose proof (votes_on_proposals B v Hv) as Hin. apply in_map_iff in Hin.
      destruct Hin as (p & E & Hp). rewrite <- E.
      rewrite (lookup_commit_unique w p (ids_unique C) Hp). discriminate.
  - intros e He. destruct (entries_attributed T e He) as (p & Hp & E1 & E2 & E3).
    exists p. rewrite <- E1. split; [| auto].
    exact (lookup_commit_unique w p (ids_unique C) Hp).
Qed.

(** X17: the listeners have seen everything stored.  In every world the engine
    reaches, the messages sent to the listeners as new_message are exactly
    the stored messages, in the order stored, each under its own
    identifier; the proposals sent as commit_proposed are the stored
    proposals, in order; and a proposal has a resolution time exactly when
    it is no longer pending. *)
Theorem listeners_saw_everything w :
  reachable w ->
  announced w = messages w /\
  NoDup (map msg_id (messages w)) /\
  map p_id (proposed_events w) = map p_id (commit_proposals w) /\
  (forall p, In p (commit_proposals w) -> (resolved_at p = None <-> status p = "pending")).
Proof.
  intros Hreach. pose proof (reachable_tidy w Hreach) as T.
  split; [exact (all_announced T) |]. split; [exact (message_ids_unique T) |].
  split; [exact (all_proposed T) | exact (resolved_at_set T)].
Qed.

Lemma run_mode c w r w' :
  run c w = (Ret r, w') -> self_consensus_mode w' = self_consensus_mode w.
Proof.
  intros H. destruct c; simpl in H.
  - unfold join in H. minv H; reflexivity.
  - unfold leave in H. minv H; reflexivity.
  - unfold send_message in H. minv H; reflexivity.
  - unfold propose_commit in H. minv H; reflexivity.
  - apply vote_inv in H.
    destruct H as [(err & _ & ->) | (m & p & v & res & w1 & _ & _ & _ & _ & _ & _ & Hrec & Hev)];
      [reflexivity |].
    destruct Hrec as (msg & t1 & t2 & _ & _ & _ & _ & _ & _ & Rmode & _).
    apply evaluate_keeps in Hev. destruct Hev as (_ & _ & Emode & _). congruence.
Qed.

Lemma run_delivered c w r w' :
  run c w = (Ret r, w') -> exists evs, delivered w' = delivered w ++ evs.
Proof.
  intros H. apply run_transition in H.
  destruct H as [evs _ _ E _ | p evs _ _ _ _ _ _ E _ | cid p t evs t' _ _ _ _ E _
                | cid p t e evs t' t'' _ _ _ _ _ _ _ _ _ E _]; rewrite E; eauto.
Qed.

Lemma run_history c w r w' :
  run c w = (Ret r, w') ->
  (exists ms, messages w' = messages w ++ ms) /\
  (exists es, context_entries w' = context_entries w ++ es) /\
  (exists ids, map p_id (commit_proposals w') = map p_id (commit_proposals w) ++ ids) /\
  (exists evs, delivered w' = delivered w ++ evs) /\
  incl (map m_id (members w)) (map m_id (members w')) /\
  self_consensus_mode w' = self_consensus_mode w.
Proof.
  intros H. split; [| split; [| split; [| split; [| split]]]].
  - destruct (reply_cases r) as [(v & res & ->) | Hr].
    + destruct (voted_is_vote _ _ _ _ _ H) as (voter & cid & ch & h & ->). simpl in H.
      destruct (vote_logs _ _ _ _ _ _ _ H) as ((ms & A1 & _) & _). eauto.
    + destruct (run_logs _ _ _ _ H Hr) as (ms & A1 & _). eauto.
  - destruct (run_entries _ _ _ _ H) as [E | (p & e & _ & E & _)]; rewrite E.
    + exists []. now rewrite app_nil_r.
    + eauto.
  - destruct (run_proposals _ _ _ _ H) as [(E & _) | [(q & E & _) | (cid & st & t & _ & E & _)]];
      rewrite E.
    + exists []. now rewrite app_nil_r.
    + rewrite map_app. eauto.
    + rewrite set_status_ids. exists []. now rewrite app_nil_r.
  - eapply run_delivered; eassumption.
  - eapply run_member_ids; eassumption.
  - eapply run_mode; eassumption.
Qed.

(** X18: nothing is taken back.  Whatever calls return, the messages, the
    ledger, the identifiers of the proposals and what the listeners were
    sent only grow at the end; no member row is ever removed; and the
    engine's consensus mode stays what it was. *)
Theorem history_is_kept cs : forall w w',
  run_all cs w = Some w' ->
  (exists ms, messages w' = messages w ++ ms) /\
  (exists es, context_entries w' = context_entries w ++ es) /\
  (exists ids, map p_id (commit_proposals w') = map p_id (commit_proposals w) ++ ids) /\
  (exists evs, delivered w' = delivered w ++ evs) /\
  incl (map m_id (members w)) (map m_id (members w')) /\
  self_consensus_mode w' = self_consensus_mode w.
Proof.
  induction cs as [| c cs IH]; simpl; intros w w' Hrun.
  - injection Hrun as <-. repeat split; try (exists []; now rewrite app_nil_r).
    apply incl_refl.
  - destruct (run c w) as [[r | x] w1] eqn:Hc; [| discriminate].
    destruct (run_history _ _ _ _ Hc)
      as ((ms1 & A1) & (es1 & A2) & (ids1 & A3) & (evs1 & A4) & A5 & A6).
    destruct (IH w1 w' Hrun)
      as ((ms2 & B1) & (es2 & B2) & (ids2 & B3) & (evs2 & B4) & B5 & B6).
    rewrite B1, B2, B3, B4, B6, A1, A2, A3, A4, A6, <- !app_assoc.
    repeat split; eauto. eapply incl_tran; eassumption.
Qed.

Lemma filter_all {A : Type} (f : A -> bool) (l : list A) :
  (forall x, In x l -> f x = true) -> filter f l = l.
Proof.
  induction l as [| a l IH]; simpl; intros H; [reflexivity |].
  rewrite (H a (or_introl eq_refl)). f_equal. apply IH. intros x Hx. apply H. now right.
Qed.

(** X19: a vote on one proposal leaves the others alone.  After a returning
    vote on one proposal, any other proposal is stored as before, and its
    votes are as before provided the identifier drawn for the new vote is
    not that of one of them. *)
Theorem vote_touches_one_proposal voter cid ch h w r w' other :
  vote voter cid ch h w = (Ret r, w') ->
  other <> cid ->
  lookup_commit other w' = lookup_commit other w /\
  (~ In (first8 (uuid4s w 0)) (map vote_id (votes_for other w)) ->
   votes_for other w' = votes_for other w) /\
  (forall v, In v (votes_for other w') -> In v (votes_for other w)).
Proof.
  intros H Hne.
  destruct (vote_reply _ _ _ _ _ _ _ H) as [(err & -> & ->) | (v & res & ->)]; [auto |].
  apply vote_effect in H.
  destruct H as (m & p & _ & _ & _ & Hv & _ & _ & Hvotes & Hres).
  assert (commit_id v = cid) as Ecid by (subst v; reflexivity).
  split; [| split].
  - unfold lookup_commit.
    destruct Hres as [(a & b & c0 & d & _ & E & _) | (st & reason & t & _ & _ & E)]; rewrite E;
      [reflexivity |].
    rewrite find_set_status.
    destruct (find (fun r => p_id r =? other) (commit_proposals w)) as [q |] eqn:Eq;
      [| reflexivity].
    simpl. apply find_some in Eq. destruct Eq as [_ Eq]. apply String.eqb_eq in Eq.
    assert ((p_id q =? cid) = false) as -> by (apply String.eqb_neq; congruence).
    reflexivity.
  - intros Hfresh. unfold votes_for in *. rewrite Hvotes, filter_app. simpl.
    assert ((commit_id v =? other) = false) as -> by (apply String.eqb_neq; congruence).
    rewrite app_nil_r, filter_filter_comm.
    apply filter_all. intros x Hx. apply filter_In in Hx. destruct Hx as [Hx Ex].
    apply String.eqb_eq in Ex. apply negb_true_iff. unfold vote_conflicts. rewrite Ecid, Ex.
    assert ((other =? cid) = false) as -> by (now apply String.eqb_neq).
    rewrite orb_false_r.
    destruct (String.eqb_spec (vote_id x) (vote_id v)) as [E | _]; [exfalso | reflexivity].
    apply Hfresh. replace (first8 (uuid4s w 0)) with (vote_id v) by (subst v; reflexivity).
    rewrite <- E. apply in_map. apply filter_In. split; [assumption |].
    now apply String.eqb_eq.
  - intros x Hx. unfold votes_for in *. rewrite Hvotes in Hx.
    eapply votes_for_replaced; [| exact Hx]. congruence.
Qed.

(** ** The further theorems at work on the scenarios *)

Lemma join_outcomes_witness :
  join "ava" "claude" ava_scene
  = (Ret (Failure ("'" ^^ "ava" ^^ "' is already in the squad")), ava_scene) /\
  exists new welcome w',
    join "cy" "gemini" ava_scene = (Ret (Joined new welcome), w') /\
    lookup_member_by_name "cy" w' = Some new.
Proof.
  split.
  - apply (proj1 (join_outcomes "ava" "claude" ava_scene) (the_member "ava" ava_scene)).
    vm_compute. reflexivity.
  - destruct (proj2 (join_outcomes "cy" "gemini" ava_scene)) as (welcome & w' & H1 & H2 & _).
    + vm_compute. reflexivity.
    + vm_compute. reflexivity.
    + eexists _, welcome, w'. split; [exact H1 | exact H2].
Defined.

Lemma leave_outcomes_witness :
  leave "zed" ava_scene = (Ret (Failure ("'" ^^ "zed" ^^ "' is not in the squad")), ava_scene) /\
  exists w',
    leave "ava" ava_scene = (Ret (HasLeft ("ava" ^^ " has left the squad")), w') /\
    lookup_member_by_name "ava" w' = None.
Proof.
  split.
  - apply (proj1 (leave_outcomes "zed" ava_scene)). vm_compute. reflexivity.
  - destruct (proj2 (leave_outcomes "ava" ava_scene) (the_member "ava" ava_scene))
      as (w' & H1 & H2 & _).
    + apply reachable_roster. apply reachable_after. apply reach_fresh.
    + vm_compute. reflexivity.
    + vm_compute. reflexivity.
    + exists w'. split; [exact H1 | exact H2].
Defined.

Lemma departed_member_is_refused_witness :
  vote "ava" "id-5-000" "reject" true (snd (leave "ava" ava_scene))
  = (Ret (Failure ("'" ^^ "ava" ^^ "' is not in the squad")), snd (leave "ava" ava_scene)).
Proof.
  destruct (departed_member_is_refused "ava" ava_scene "ava has left the squad"
              (snd (leave "ava" ava_scene))) as (_ & _ & H & _).
  - apply reachable_roster. apply reachable_after. apply reach_fresh.
  - vm_compute. reflexivity.
  - apply H.
Defined.

Lemma send_message_outcomes_witness :
  send_message "zed" "hello" "agent" None ava_scene
  = (Ret (Failure ("'" ^^ "zed" ^^ "' is not in the squad. Join first.")), ava_scene) /\
  exists w',
    send_message "ben" "hello" "agent" None ava_scene
    = (Ret (Sent (uuid4s ava_scene 0) (nows ava_scene 0)), w') /\
    List.length (messages w') = S (List.length (messages ava_scene)).
Proof.
  split.
  - apply (proj1 (send_message_outcomes "zed" "hello" "agent" None ava_scene)).
    vm_compute. reflexivity.
  - destruct (send_message_outcomes "ben" "hello" "agent" None ava_scene) as (_ & _ & H).
    destruct (H (the_member "ben" ava_scene)) as (w' & H1 & H2 & _).
    + vm_compute. reflexivity.
    + vm_compute. reflexivity.
    + exists w'. split; [exact H1 |]. rewrite H2, length_app. apply Nat.add_1_r.
Defined.

Lemma vote_refusals_witness :
  vote "zed" "id-6-000" "approve" false veto_scene
  = (Ret (Failure ("'" ^^ "zed" ^^ "' is not in the squad")), veto_scene) /\
  vote "cy" "nope" "approve" false veto_scene
  = (Ret (Failure ("Commit '" ^^ "nope" ^^ "' not found")), veto_scene) /\
  vote "cy" "id-6-000" "reject" true ratified_scene
  = (Ret (Failure ("Commit '" ^^ "id-6-000" ^^ "' is already "
                   ^^ status (the_commit "id-6-000" ratified_scene))), ratified_scene) /\
  vote "cy" "id-6-000" "maybe" false veto_scene
  = (Ret (Failure "Choice must be 'approve', 'reject', or 'abstain'"), veto_scene).
Proof.
  split; [| split; [| split]].
  - apply (proj1 (vote_refusals "zed" "id-6-000" "approve" false veto_scene)).
    vm_compute. reflexivity.
  - destruct (vote_refusals "cy" "nope" "approve" false veto_scene) as (_ & H & _).
    apply (H (the_member "cy" veto_scene)); vm_compute; reflexivity.
  - destruct (vote_refusals "cy" "id-6-000" "reject" true ratified_scene) as (_ & _ & H & _).
    apply (H (the_member "cy" ratified_scene) (the_commit "id-6-000" ratified_scene)).
    + vm_compute. reflexivity.
    + vm_compute. reflexivity.
    + vm_compute. discriminate.
  - destruct (vote_refusals "cy" "id-6-000" "maybe" false veto_scene) as (_ & _ & _ & H & _).
    apply (H (the_member "cy" veto_scene) (the_commit "id-6-000" veto_scene)).
    + vm_compute. reflexivity.
    + vm_compute. reflexivity.
    + vm_compute. reflexivity.
    + discriminate.
    + discriminate.
    + discriminate.
Defined.

Lemma propose_commit_outcomes_witness :
  propose_commit "zed" "Use Rocq" "agent_nominated" ava_scene
  = (Ret (Failure ("'" ^^ "zed" ^^ "' is not in the squad")), ava_scene) /\
  exists note w' p,
    propose_commit "zed" "Use Rocq" "orchestrator_detected" ava_scene
    = (Ret (Proposed (p_id p) note), w') /\
    lookup_commit (p_id p) w' = Some p /\
    proposed_by p = "orchestrator" /\ proposed_by_name p = "Squad Bot" /\
    status p = "pending".
Proof.
  split.
  - apply (proj1 (propose_commit_outcomes "zed" "Use Rocq" "agent_nominated" ava_scene)).
    + vm_compute. reflexivity.
    + discriminate.
  - destruct (proj2 (propose_commit_outcomes "zed" "Use Rocq" "orchestrator_detected" ava_scene))
      as (note & w' & H1 & _ & H3 & _).
    + reflexivity.
    + vm_compute. reflexivity.
    + vm_compute. reflexivity.
    + eexists note, w', _. split; [exact H1 |]. split; [exact H3 |].
      split; [vm_compute; reflexivity |]. split; [vm_compute; reflexivity |].
      vm_compute. reflexivity.
Defined.

Lemma revote_overwrites_witness :
  map choice (votes_for "id-6-000" veto_scene) = ["approve"; "approve"] /\
  exists v res w',
    vote "ava" "id-6-000" "abstain" false veto_scene = (Ret (Voted v res), w') /\
    map choice (votes_for "id-6-000" w') = ["approve"; "abstain"] /\
    filter (fun r => (commit_id r =? "id-6-000") && (voter_id r =? voter_id v)) (votes w') = [v].
Proof.
  split; [vm_compute; reflexivity |].
  destruct (vote "ava" "id-6-000" "abstain" false veto_scene) as [[r | e] w'] eqn:E.
  - pose proof E as E0. vm_compute in E0.
    destruct r; try discriminate E0.
    pose proof (revote_overwrites "ava" "id-6-000" "abstain" false veto_scene _ _ _ E)
      as (H1 & _).
    eexists _, _, _. split; [reflexivity |]. split; [| exact H1].
    injection E0 as _ _ <-. vm_compute. reflexivity.
  - vm_compute in E. discriminate E.
Defined.

Lemma pending_vote_snapshot_witness :
  exists v w',
    vote "cy" "id-6-000" "abstain" false veto_scene
    = (Ret (Voted v (StillPending 3 3 2 0)), w') /\
    List.length (votes_for "id-6-000" w') = 3 /\
    approvals_of "id-6-000" w' = 2 /\
    status_of "id-6-000" w' = Some "pending".
Proof.
  destruct (vote "cy" "id-6-000" "abstain" false veto_scene) as [[r | e] w'] eqn:E.
  - pose proof E as E0. vm_compute in E0.
    destruct r as [| | | | | v res]; try discriminate E0.
    assert (res = StillPending 3 3 2 0) as -> by (injection E0 as _ <- _; reflexivity).
    clear E0.
    pose proof (pending_vote_snapshot "cy" "id-6-000" "abstain" false veto_scene _ _ _ _ _ _ E)
      as (H1 & _ & H3 & _ & _ & _ & H7 & _).
    exists v, w'. split; [reflexivity |]. auto.
  - vm_compute in E. discriminate E.
Defined.

Lemma unknown_mode_stays_pending_witness :
  map m_name (active_members odd_mode_scene) = ["ava"] /\
  map (fun v => (voter_name v, choice v)) (votes_for "id-2-000" odd_mode_scene)
  = [("ava", "approve")] /\
  _evaluate_consensus "id-2-000" odd_mode_scene = (Ret (StillPending 1 1 1 0), odd_mode_scene).
Proof.
  split; [vm_compute; reflexivity |]. split; [vm_compute; reflexivity |].
  rewrite (unknown_mode_stays_pending "id-2-000" odd_mode_scene
             (the_commit "id-2-000" odd_mode_scene)).
  - vm_compute. reflexivity.
  - vm_compute. reflexivity.
  - vm_compute. discriminate.
  - vm_compute. discriminate.
  - vm_compute. discriminate.
  - vm_compute. reflexivity.
Defined.

Lemma majority_closes_on_vote_count_witness :
  map m_name (active_members departed_scene) = ["ben"; "cy"] /\
  map (fun v => (voter_name v, choice v)) (votes_for "id-6-000" departed_scene)
  = [("ava", "reject"); ("ben", "abstain")] /\
  everyone_voted "id-6-000" departed_scene = false /\
  exists w',
    _evaluate_consensus "id-6-000" departed_scene
    = (Ret (Resolved "rejected" "no_majority"), w') /\
    status_of "id-6-000" w' = Some "rejected".
Proof.
  split; [vm_compute; reflexivity |]. split; [vm_compute; reflexivity |].
  split; [vm_compute; reflexivity |].
  destruct (majority_closes_on_vote_count "id-6-000" departed_scene
              (the_commit "id-6-000" departed_scene))
    as (st & reason & w' & Hev & Hs & [(_ & Hlt) | (-> & -> & _)]).
  - vm_compute. reflexivity.
  - vm_compute. reflexivity.
  - vm_compute. reflexivity.
  - repeat split; vm_compute; reflexivity.
  - vm_compute. lia.
  - exfalso. vm_compute in Hlt. lia.
  - exists w'. split; assumption.
Defined.

Lemma read_messages_window_witness :
  read_messages None (sqlite_max_int + 1) ava_scene = (Raise OverflowError, ava_scene) /\
  List.length (messages ava_scene) = 5 /\
  (exists result rest,
     read_messages None 2 ava_scene = (Ret result, ava_scene) /\
     List.length result = 2 /\
     Permutation (rest ++ result) (messages ava_scene) /\
     forall x y, In x rest -> In y result -> timestamp_le x y) /\
  (exists result rest,
     read_messages (Some (nows (fresh "unanimous" sample_uuid sample_clock) 1)) 2 ava_scene
     = (Ret result, ava_scene) /\
     forall x y, In x result -> In y rest -> timestamp_le x y).
Proof.
  split; [| split; [vm_compute; reflexivity | split]].
  - apply (proj1 (read_messages_window None (sqlite_max_int + 1) ava_scene)).
    left. vm_compute. reflexivity.
  - destruct (proj2 (read_messages_window None 2 ava_scene))
      as (result & rest & H1 & _ & H3 & H4 & H5).
    + vm_compute. split; discriminate.
    + exists result, rest. split; [exact H1 |]. split; [| split; assumption].
      cbv beta iota in H4, H5. change (2 <? 0)%Z with false in H3. cbv iota in H3.
      rewrite H3, length_app, Nat.add_comm, <- length_app, (Permutation_length H4).
      vm_compute. reflexivity.
  - destruct (proj2 (read_messages_window
                       (Some (nows (fresh "unanimous" sample_uuid sample_clock) 1)) 2 ava_scene))
      as (result & rest & H1 & _ & _ & H4).
    + vm_compute. split; discriminate.
    + exists result, rest. split; [exact H1 |].
      assert (truthy (Some (nows (fresh "unanimous" sample_uuid sample_clock) 1)) = true) as E
        by (vm_compute; reflexivity).
      rewrite E in H4. exact (proj2 H4).
Defined.

Lemma one_vote_per_member_witness :
  NoDup (map voter_id (votes_for "id-6-000" veto_scene)) /\
  List.length (votes_for "id-6-000" veto_scene) <= List.length (members veto_scene).
Proof.
  destruct (one_vote_per_member veto_scene "id-6-000") as (H1 & _ & H3 & _).
  - apply veto_scene_reachable.
  - split; assumption.
Defined.

Lemma pending_has_no_objection_witness :
  status_of "id-6-000" veto_scene = Some "pending" /\
  rejections_of "id-6-000" veto_scene = 0.
Proof.
  split; [vm_compute; reflexivity |].
  destruct (pending_has_no_objection veto_scene "id-6-000" (the_commit "id-6-000" veto_scene))
    as (_ & H).
  - apply veto_scene_reachable.
  - vm_compute. reflexivity.
  - vm_compute. reflexivity.
  - apply H. left. vm_compute. reflexivity.
Defined.

Lemma status_adds_up_witness :
  exists s,
    get_status ratified_scene = (Ret s, ratified_scene) /\
    st_context_version s = 1%Z /\ st_pending_commits s = 0 /\ st_member_count s = 3.
Proof.
  destruct (status_adds_up ratified_scene) as (s & H1 & _ & H3 & H4 & H5 & _).
  - apply reachable_after. apply veto_scene_reachable.
  - exists s. split; [exact H1 |]. rewrite H3, H4, H5. vm_compute. auto.
Defined.

Lemma pending_list_summaries_witness :
  exists l,
    pending_commits_with_votes veto_scene = (Ret l, veto_scene) /\
    Permutation (map pc_commit l)
                (filter (fun p => status p =? "pending") (commit_proposals veto_scene)).
Proof.
  destruct (pending_list_summaries veto_scene) as (l & H1 & H2 & _).
  - apply veto_scene_reachable.
  - exists l. split; assumption.
Defined.

Lemma records_are_attributed_witness :
  exists e p,
    context_entries ratified_scene = [e] /\
    lookup_commit (entry_commit_id e) ratified_scene = Some p /\
    committed_by e = proposed_by_name p /\ entry_origin e = p_origin p /\
    proposed_by_name p = "ava".
Proof.
  destruct (records_are_attributed ratified_scene) as (_ & _ & _ & H).
  - apply reachable_after. apply veto_scene_reachable.
  - destruct (context_entries ratified_scene) as [| e l] eqn:E;
      [vm_compute in E; discriminate E |].
    destruct (H e (or_introl eq_refl)) as (p & H1 & H2 & H3).
    assert (l = []) as -> by (vm_compute in E; now injection E).
    exists e, p. split; [reflexivity |]. split; [exact H1 |]. split; [exact H2 |].
    split; [exact H3 |]. rewrite <- H2. vm_compute in E. injection E as <-. reflexivity.
Defined.

Lemma listeners_saw_everything_witness :
  announced ratified_scene = messages ratified_scene /\
  List.length (messages ratified_scene) = 8.
Proof.
  destruct (listeners_saw_everything ratified_scene) as (H & _).
  - apply reachable_after. apply veto_scene_reachable.
  - split; [exact H | vm_compute; reflexivity].
Defined.

Lemma history_is_kept_witness :
  exists ms, messages ratified_scene = messages veto_scene ++ ms.
Proof.
  destruct (history_is_kept [CallVote "cy" "id-6-000" "approve" false] veto_scene ratified_scene)
    as (H & _).
  - vm_compute. reflexivity.
  - exact H.
Defined.

Lemma vote_touches_one_proposal_witness :
  map p_id (commit_proposals two_proposals_scene) = ["id-5-000"; "id-9-000"] /\
  exists r w',
    vote "ben" "id-9-000" "reject" true two_proposals_scene = (Ret r, w') /\
    status_of "id-9-000" w' = Some "rejected" /\
    lookup_commit "id-5-000" w' = lookup_commit "id-5-000" two_proposals_scene /\
    votes_for "id-5-000" w' = votes_for "id-5-000" two_proposals_scene.
Proof.
  split; [vm_compute; reflexivity |].
  destruct (vote "ben" "id-9-000" "reject" true two_proposals_scene) as [[r | e] w'] eqn:E.
  - destruct (vote_touches_one_proposal "ben" "id-9-000" "reject" true two_proposals_scene
                r w' "id-5-000" E) as (H1 & H2 & _).
    + discriminate.
    + exists r, w'. split; [reflexivity |]. split; [| split].
      * vm_compute in E. injection E as _ <-. vm_compute. reflexivity.
      * exact H1.
      * apply H2. vm_compute. intros [H | []]. discriminate H.
  - vm_compute in E. discriminate E.
Defined.

End SquadMoreFacts.

(** * Facts about the multi-squad engine *)

Module SquadServerFacts.

Import SquadServer.
Open Scope string_scope.
Open Scope list_scope.
Open Scope monad_scope.

Ltac unfold_server_prim H :=
  first
    [ progress unfold new_SquadMember in H | progress unfold new_Message in H
    | progress unfold new_ContextEntry in H | progress unfold new_CommitProposal in H
    | progress unfold new_Vote in H
    | progress unfold add_member in H | progress unfold get_member_by_name in H
    | progress unfold get_active_members in H | progress unfold add_message in H
    | progress unfold add_context_entry in H | progress unfold add_commit in H
    | progress unfold update_commit_status in H | progress unfold get_commit in H
    | progress unfold add_vote in H | progress unfold get_votes_for_commit in H
    | progress unfold get_squad in H | progress unfold update_squad in H
    | progress unfold get_member_role in H | progress unfold is_admin in H
    | progress unfold log_security_event in H
    | progress unfold _broadcast in H ].

Ltac sinv H :=
  cbv beta zeta in H;
  lazymatch type of H with
  | bind _ _ _ = (Ret _, _) =>
      let a := fresh "a" in
      let w1 := fresh "w" in
      let H1 := fresh "Hm" in
      let H2 := fresh "Hk" in
      apply bind_inv in H; destruct H as (a & w1 & H1 & H2);
      sinv H1; sinv H2
  | ret _ _ = _ => unfold ret in H; inversion H; subst; clear H
  | gets _ _ = _ => unfold gets in H; inversion H; subst; clear H
  | modify _ _ = _ => unfold modify in H; inversion H; subst; clear H
  | raise _ _ = _ => unfold raise in H; discriminate H
  | uuid4 _ = _ => unfold uuid4 in H; inversion H; subst; clear H
  | utcnow _ = _ => unfold utcnow in H; inversion H; subst; clear H
  | (if ?c then _ else _) _ = _ => destruct c eqn:?; sinv H
  | (match ?o with Some _ => _ | None => _ end) _ = _ => destruct o eqn:?; sinv H
  | (match ?l with nil => _ | cons _ _ => _ end) _ = _ => destruct l eqn:?; sinv H
  | _ => unfold_server_prim H; sinv H
  end.

Ltac server_simpl :=
  cbn [members messages context_entries commit_proposals votes squads member_roles
       security_log self_consensus_mode delivered uuid4s nows
       set_members set_messages set_context_entries set_commit_proposals set_votes
       set_squads set_member_roles set_security_log set_delivered drop_uuid drop_now] in *.

(** What a proposal is created with: the orchestrator's own consensus mode
    and the default timeout, whatever the row of the squad says. *)
Theorem propose_commit_stores_engine_mode n c o sid w pid msg w' :
  propose_commit n c o sid w = (Ret (Proposed pid msg), w') ->
  exists p,
    lookup_commit pid w' = Some (mkScoped sid p) /\
    status p = "pending" /\
    consensus_mode p = self_consensus_mode w /\
    timeout_seconds p = 300%Z /\
    squads w' = squads w.
Proof.
  intros H. unfold propose_commit in H. sinv H. server_simpl.
  eexists. split.
  - unfold lookup_commit. server_simpl.
    match goal with
    | Hf : mem_string _ _ = false |- find _ (_ ++ [?x]) = _ =>
        exact (find_last_fresh (fun r => p_id (row r)) _ x Hf)
    end.
  - repeat split.
Qed.

(** A change of the squad's settings touches the squads table and the
    security log, nothing the evaluation of a proposal reads. *)
Theorem settings_leave_proposals sid admin kw w r w' :
  update_squad_settings sid admin kw w = (Ret r, w') ->
  commit_proposals w' = commit_proposals w /\
  votes w' = votes w /\
  members w' = members w /\
  context_entries w' = context_entries w /\
  self_consensus_mode w' = self_consensus_mode w.
Proof.
  intros H. unfold update_squad_settings in H. sinv H; server_simpl; repeat split.
Qed.

(** C8, at a concrete input: Alice belongs to squad alpha only; her vote,
    made with squad id alpha, on the proposal Bob made in squad beta is
    accepted, resolves beta's proposal approved (alpha has one active
    member) and writes beta's content to alpha's ledger. *)
Theorem vote_reaches_other_squad :
  map m_name (members_of "alpha" two_squads) = ["alice"] /\
  map m_name (members_of "beta" two_squads) = ["bob"] /\
  map (fun p => (p_id p, status p)) (proposals_of "alpha" two_squads) = [] /\
  map (fun p => (p_id p, status p)) (proposals_of "beta" two_squads) = [("id-4-000", "pending")] /\
  (exists v, fst (vote "alice" "id-4-000" "approve" false "alpha" two_squads)
             = Ret (Voted v (Resolved "approved" "majority (1/1)"))) /\
  map (fun p => (p_id p, status p))
      (proposals_of "beta" (snd (vote "alice" "id-4-000" "approve" false "alpha" two_squads)))
  = [("id-4-000", "approved")] /\
  map entry_content
      (entries_of "alpha" (snd (vote "alice" "id-4-000" "approve" false "alpha" two_squads)))
  = ["Ship it"] /\
  entries_of "beta" (snd (vote "alice" "id-4-000" "approve" false "alpha" two_squads)) = [].
Proof.
  repeat split; try (vm_compute; reflexivity).
  eexists. vm_compute. reflexivity.
Qed.

(** C6, at a concrete input: the squad's consensus mode is unanimous, the
    orchestrator was built with majority; the proposal is created with
    majority and the default timeout, and two approvals out of three members
    resolve it approved. *)
Theorem proposal_ignores_squad_mode :
  option_map squad_consensus_mode (lookup_squad "default" unanimous_squad) = Some "unanimous" /\
  self_consensus_mode unanimous_squad = "majority" /\
  (exists msg, fst (propose_commit "ann" "X" "agent_nominated" "default" unanimous_squad)
               = Ret (Proposed "id-8-000" msg)) /\
  option_map (fun r => (consensus_mode (row r), timeout_seconds (row r)))
    (lookup_commit "id-8-000"
       (snd (propose_commit "ann" "X" "agent_nominated" "default" unanimous_squad)))
  = Some ("majority", 300%Z) /\
  (exists v, fst (vote "ben" "id-8-000" "approve" false "default"
                    (after [CallProposeCommit "ann" "X" "agent_nominated" "default";
                            CallVote "ann" "id-8-000" "approve" false "default"]
                           unanimous_squad))
             = Ret (Voted v (Resolved "approved" "early_majority (2/3)"))).
Proof.
  repeat split; try (vm_compute; reflexivity).
  - eexists. vm_compute. reflexivity.
  - eexists. vm_compute. reflexivity.
Qed.

End SquadServerFacts.

(** * Further facts about the multi-squad engine *)

Module SquadServerMoreFacts.

Import SquadServer.
Import SquadServerFacts.
Open Scope string_scope.
Open Scope list_scope.
Open Scope monad_scope.

Ltac sstep := erewrite bind_fwd by reflexivity; cbv beta iota zeta.
Ltac sstep_by tac := erewrite bind_fwd by tac; cbv beta iota zeta.

(** ** Settings and roles *)

Lemma is_admin_eq sid mid w : is_admin sid mid w = (Ret (holds_admin sid mid w), w).
Proof. reflexivity. Qed.

Lemma find_map_same_key {A : Type} (key : A -> bool) (g : A -> A) (rows : list A) :
  (forall r, key (g r) = key r) ->
  find key (map g rows) = option_map g (find key rows).
Proof.
  intros Hk. induction rows as [| r rows IH]; simpl; [reflexivity |].
  rewrite Hk. destruct (key r); [reflexivity | exact IH].
Qed.

Lemma find_map_untouched {A : Type} (key : A -> bool) (g : A -> A) (rows : list A) :
  (forall r, key (g r) = key r) -> (forall r, key r = true -> g r = r) ->
  find key (map g rows) = find key rows.
Proof.
  intros Hk Hg. rewrite find_map_same_key by exact Hk.
  destruct (find key rows) as [r |] eqn:E; [| reflexivity].
  simpl. f_equal. apply Hg. apply find_some in E. tauto.
Qed.

Lemma apply_setting_id s r : squad_id (apply_setting s r) = squad_id r.
Proof. destruct s; reflexivity. Qed.

Lemma apply_settings_id ss : forall r,
  squad_id (fold_left (fun r s => apply_setting s r) ss r) = squad_id r.
Proof.
  induction ss as [| s ss IH]; intros r; simpl; [reflexivity |].
  rewrite IH. apply apply_setting_id.
Qed.

Lemma apply_settings_active ss : forall r,
  forallb orch_allowed ss = true ->
  squad_is_active (fold_left (fun r s => apply_setting s r) ss r) = squad_is_active r /\
  squad_created_at (fold_left (fun r s => apply_setting s r) ss r) = squad_created_at r /\
  squad_created_by (fold_left (fun r s => apply_setting s r) ss r) = squad_created_by r.
Proof.
  induction ss as [| s ss IH]; intros r H; simpl; [auto |].
  simpl in H. apply andb_true_iff in H. destruct H as [Hs Hss].
  destruct (IH (apply_setting s r) Hss) as (E1 & E2 & E3). rewrite E1, E2, E3.
  destruct s; try discriminate; auto.
Qed.

Lemma filter_db_allowed kw : filter db_allowed (filter orch_allowed kw) = filter orch_allowed kw.
Proof.
  induction kw as [| s kw IH]; simpl; [reflexivity |].
  destruct s; simpl; rewrite ?IH; reflexivity.
Qed.

Lemma existsb_find_squad sid w :
  existsb (fun s => squad_id s =? sid) (squads w)
  = match lookup_squad sid w with Some _ => true | None => false end.
Proof.
  unfold lookup_squad. induction (squads w) as [| s rows IH]; simpl; [reflexivity |].
  destruct (squad_id s =? sid); [reflexivity | exact IH].
Qed.

(** X20: update_squad_settings refuses a caller who is not an admin of the
    squad, and a call none of whose settings is a name, a consensus mode, a
    session lifetime or a fingerprint mode; both change nothing.  For an
    admin and an unknown squad it reports no success and logs nothing.
    Otherwise it applies the accepted settings to the squad's row and to no
    other, keeps the row's identifier, active flag and creation data, and
    appends one settings_changed entry, with the admin and the changes, to
    the security log. *)
Theorem update_squad_settings_outcomes sid admin kw w :
  (holds_admin sid admin w = false ->
     update_squad_settings sid admin kw w = (Ret (Failure "Admin access required"), w)) /\
  (holds_admin sid admin w = true ->
   filter orch_allowed kw = [] ->
     update_squad_settings sid admin kw w = (Ret (Failure "No valid settings to update"), w)) /\
  (holds_admin sid admin w = true ->
   filter orch_allowed kw <> [] ->
   lookup_squad sid w = None ->
   exists w',
     update_squad_settings sid admin kw w
     = (Ret (SettingsReply false (filter orch_allowed kw)), w') /\
     squads w' = squads w /\ security_log w' = security_log w) /\
  (forall s,
   holds_admin sid admin w = true ->
   filter orch_allowed kw <> [] ->
   lookup_squad sid w = Some s ->
   mem_string (uuid4s w 0) (map log_id (security_log w)) = false ->
   exists w',
     let s' := fold_left (fun r k => apply_setting k r) (filter orch_allowed kw) s in
     update_squad_settings sid admin kw w
     = (Ret (SettingsReply true (filter orch_allowed kw)), w') /\
     lookup_squad sid w' = Some s' /\
     squad_id s' = squad_id s /\ squad_is_active s' = squad_is_active s /\
     squad_created_at s' = squad_created_at s /\ squad_created_by s' = squad_created_by s /\
     (forall other, other <> sid -> lookup_squad other w' = lookup_squad other w) /\
     security_log w'
     = security_log w ++ [mkSecurityLogEntry (uuid4s w 0) (Some sid) "settings_changed"
                            (Some admin) (Some (filter orch_allowed kw)) None None (nows w 0)] /\
     member_roles w' = member_roles w).
Proof.
  split; [| split; [| split]].
  - intros Hadm. unfold update_squad_settings.
    sstep_by ltac:(apply is_admin_eq). rewrite Hadm. reflexivity.
  - intros Hadm Hnone. unfold update_squad_settings.
    sstep_by ltac:(apply is_admin_eq). rewrite Hadm, Hnone. reflexivity.
  - intros Hadm Hsome Hsq. unfold update_squad_settings.
    sstep_by ltac:(apply is_admin_eq). rewrite Hadm. cbn [negb].
    destruct (filter orch_allowed kw) as [| k ks] eqn:Ef; [congruence |].
    rewrite <- Ef.
    assert (update_squad sid (filter orch_allowed kw) w
            = (Ret false,
               set_squads (map (fun r => if squad_id r =? sid
                                         then fold_left (fun r s => apply_setting s r)
                                                (filter orch_allowed kw) r
                                         else r)) w)) as Hup.
    { unfold update_squad. rewrite filter_db_allowed, Ef. rewrite <- Ef.
      unfold bind, gets, modify, ret. rewrite existsb_find_squad, Hsq. reflexivity. }
    sstep_by ltac:(exact Hup). sstep.
    eexists. split; [reflexivity |]. server_simpl. split; [| reflexivity].
    unfold lookup_squad in Hsq. clear - Hsq.
    induction (squads w) as [| r rows IH]; simpl in *; [reflexivity |].
    destruct (squad_id r =? sid); [discriminate |]. f_equal. now apply IH.
  - intros s Hadm Hsome Hsq Hfresh. unfold update_squad_settings.
    sstep_by ltac:(apply is_admin_eq). rewrite Hadm. cbn [negb].
    destruct (filter orch_allowed kw) as [| k ks] eqn:Ef; [congruence |].
    rewrite <- Ef.
    assert (update_squad sid (filter orch_allowed kw) w
            = (Ret true,
               set_squads (map (fun r => if squad_id r =? sid
                                         then fold_left (fun r s => apply_setting s r)
                                                (filter orch_allowed kw) r
                                         else r)) w)) as Hup.
    { unfold update_squad. rewrite filter_db_allowed, Ef. rewrite <- Ef.
      unfold bind, gets, modify, ret. rewrite existsb_find_squad, Hsq. reflexivity. }
    sstep_by ltac:(exact Hup).
    sstep_by ltac:(unfold log_security_event, bind, uuid4, utcnow, gets, modify, ret;
                   server_simpl; cbn [log_id]; rewrite Hfresh; reflexivity).
    eexists. cbv zeta. split; [reflexivity |]. server_simpl.
    assert (forallb orch_allowed (filter orch_allowed kw) = true) as Hall.
    { apply forallb_forall. intros x Hx. apply filter_In in Hx. tauto. }
    destruct (apply_settings_active (filter orch_allowed kw) s Hall) as (A1 & A2 & A3).
    split; [| split; [apply apply_settings_id | split; [exact A1 | split; [exact A2 |
              split; [exact A3 | split; [| split; reflexivity]]]]]].
    + unfold lookup_squad in *. server_simpl.
      rewrite find_map_same_key.
      * rewrite Hsq. simpl. apply find_some in Hsq. destruct Hsq as [_ E]. now rewrite E.
      * intros r. destruct (squad_id r =? sid) eqn:E; [| exact E].
        rewrite apply_settings_id. exact E.
    + intros other Hne. unfold lookup_squad. server_simpl.
      apply find_map_untouched.
      * intros r. destruct (squad_id r =? sid); [| reflexivity].
        now rewrite apply_settings_id.
      * intros r Hr. apply String.eqb_eq in Hr.
        assert ((squad_id r =? sid) = false) as -> by (apply String.eqb_neq; congruence).
        reflexivity.
Qed.

Lemma set_member_role_effect sid mid role_name by_whom w :
  (lookup_role sid mid w = None ->
   mem_string (first8 (uuid4s w 0)) (map role_id (member_roles w)) = false) ->
  exists r w',
    set_member_role sid mid role_name by_whom w = (Ret r, w') /\
    lookup_role sid mid w' = Some r /\
    role r = role_name /\ granted_by r = by_whom /\ granted_at r = nows w 0 /\
    (forall sid' mid', (sid', mid') <> (sid, mid) ->
       lookup_role sid' mid' w' = lookup_role sid' mid' w) /\
    members w' = members w /\ squads w' = squads w /\ messages w' = messages w /\
    security_log w' = security_log w /\ delivered w' = delivered w.
Proof.
  intros Hfresh. unfold set_member_role.
  sstep. sstep. unfold lookup_role in *. server_simpl.
  destruct (find (fun r => (role_squad_id r =? sid) && (role_member_id r =? mid))
                 (member_roles w)) as [old |] eqn:E.
  - sstep. eexists _, _. split; [reflexivity |]. server_simpl.
    split; [| split; [reflexivity | split; [reflexivity | split; [reflexivity | split]]]].
    + rewrite find_map_same_key.
      * rewrite E. simpl. pose proof (find_some _ _ E) as [_ Ek]. rewrite Ek.
        apply andb_true_iff in Ek. destruct Ek as [E1 E2].
        apply String.eqb_eq in E1, E2. now rewrite E1, E2.
      * intros r. destruct ((role_squad_id r =? sid) && (role_member_id r =? mid)) eqn:Ek;
          [exact Ek | exact Ek].
    + intros sid' mid' Hne. apply find_map_untouched.
      * intros r. destruct ((role_squad_id r =? sid) && (role_member_id r =? mid));
          reflexivity.
      * intros r Hr. apply andb_true_iff in Hr. destruct Hr as [E1 E2].
        apply String.eqb_eq in E1, E2.
        destruct ((role_squad_id r =? sid) && (role_member_id r =? mid)) eqn:Ek;
          [| reflexivity].
        apply andb_true_iff in Ek. destruct Ek as [E3 E4].
        apply String.eqb_eq in E3, E4. exfalso. apply Hne. congruence.
    + repeat split.
  - specialize (Hfresh eq_refl).
    sstep.
    sstep_by ltac:(unfold gets; server_simpl; cbn [role_id]; rewrite Hfresh; reflexivity).
    sstep. eexists _, _. split; [reflexivity |]. server_simpl.
    split; [| split; [reflexivity | split; [reflexivity | split; [reflexivity | split]]]].
    + clear Hfresh. induction (member_roles w) as [| r rows IH]; simpl in *.
      * now rewrite !String.eqb_refl.
      * destruct ((role_squad_id r =? sid) && (role_member_id r =? mid)); [discriminate |].
        now apply IH.
    + intros sid' mid' Hne. clear Hfresh E.
      induction (member_roles w) as [| r rows IH]; simpl.
      * destruct (String.eqb_spec sid sid') as [<- | _]; [| reflexivity].
        destruct (String.eqb_spec mid mid') as [<- | _]; [| reflexivity].
        exfalso. now apply Hne.
      * destruct ((role_squad_id r =? sid') && (role_member_id r =? mid')); [reflexivity |].
        exact IH.
    + repeat split.
Qed.

(** X21: the orchestrator's set_member_role refuses a caller who is not an
    admin of the squad, then a name no active member of the squad has, then a
    role other than admin and member, changing nothing.  Otherwise the
    member is an admin afterwards exactly when the role given is admin, the
    grant names the caller, and nobody else's role in any squad changes.
    The member may be the caller. *)
Theorem set_member_role_outcomes sid member_name role_name admin w :
  (holds_admin sid admin w = false ->
     orchestrator_set_member_role sid member_name role_name admin w
     = (Ret (Refused "Admin access required"), w)) /\
  (holds_admin sid admin w = true ->
   lookup_member_by_name member_name sid w = None ->
     orchestrator_set_member_role sid member_name role_name admin w
     = (Ret (Refused ("'" ^^ member_name ^^ "' is not in the squad")), w)) /\
  (forall m,
   holds_admin sid admin w = true ->
   lookup_member_by_name member_name sid w = Some m ->
   role_name <> "admin" -> role_name <> "member" ->
     orchestrator_set_member_role sid member_name role_name admin w
     = (Ret (Refused "Role must be 'admin' or 'member'"), w)) /\
  (forall m,
   holds_admin sid admin w = true ->
   lookup_member_by_name member_name sid w = Some m ->
   role_name = "admin" \/ role_name = "member" ->
   (lookup_role sid (m_id m) w = None ->
    mem_string (first8 (uuid4s w 0)) (map role_id (member_roles w)) = false) ->
   exists w',
     orchestrator_set_member_role sid member_name role_name admin w
     = (Ret (Done (member_name ^^ " is now a " ^^ role_name)), w') /\
     holds_admin sid (m_id m) w' = (role_name =? "admin") /\
     option_map granted_by (lookup_role sid (m_id m) w') = Some (Some admin) /\
     (forall sid' mid', (sid', mid') <> (sid, m_id m) ->
        holds_admin sid' mid' w' = holds_admin sid' mid' w) /\
     members w' = members w /\ squads w' = squads w).
Proof.
  split; [| split; [| split]].
  - intros Hadm. unfold orchestrator_set_member_role.
    sstep_by ltac:(apply is_admin_eq). rewrite Hadm. reflexivity.
  - intros Hadm Hm. unfold orchestrator_set_member_role.
    sstep_by ltac:(apply is_admin_eq). rewrite Hadm. cbn [negb].
    sstep_by ltac:(exact (f_equal (fun o => (Ret o, w)) Hm)). reflexivity.
  - intros m Hadm Hm H1 H2. unfold orchestrator_set_member_role.
    sstep_by ltac:(apply is_admin_eq). rewrite Hadm. cbn [negb].
    sstep_by ltac:(exact (f_equal (fun o => (Ret o, w)) Hm)).
    apply String.eqb_neq in H1, H2. rewrite H1, H2. reflexivity.
  - intros m Hadm Hm Hrole Hfresh. unfold orchestrator_set_member_role.
    sstep_by ltac:(apply is_admin_eq). rewrite Hadm. cbn [negb].
    sstep_by ltac:(exact (f_equal (fun o => (Ret o, w)) Hm)).
    assert (negb ((role_name =? "admin") || (role_name =? "member")) = false) as ->.
    { destruct Hrole as [-> | ->]; reflexivity. }
    destruct (set_member_role_effect sid (m_id m) role_name (Some admin) w Hfresh)
      as (r & w' & Hset & Hlook & Hr & Hby & _ & Hother & Hmem & Hsq & _).
    sstep_by ltac:(exact Hset).
    exists w'. split; [reflexivity |]. split; [| split; [| split; [| split]]].
    + unfold holds_admin. fold (lookup_role sid (m_id m) w'). rewrite Hlook, Hr. reflexivity.
    + rewrite Hlook. simpl. now rewrite Hby.
    + intros sid' mid' Hne. unfold holds_admin.
      fold (lookup_role sid' mid' w'). fold (lookup_role sid' mid' w).
      now rewrite Hother.
    + exact Hmem.
    + exact Hsq.
Qed.

(** ** The squads do not see each other's calls *)

Ltac sinv_stop H :=
  cbv beta zeta in H;
  lazymatch type of H with
  | bind _ _ _ = (Ret _, _) =>
      let a := fresh "a" in
      let w1 := fresh "w" in
      let H1 := fresh "Hm" in
      let H2 := fresh "Hk" in
      apply bind_inv in H; destruct H as (a & w1 & H1 & H2);
      sinv_stop H1; sinv_stop H2
  | ret _ _ = _ => unfold ret in H; inversion H; subst; clear H
  | gets _ _ = _ => unfold gets in H; inversion H; subst; clear H
  | modify _ _ = _ => unfold modify in H; inversion H; subst; clear H
  | raise _ _ = _ => unfold raise in H; discriminate H
  | uuid4 _ = _ => unfold uuid4 in H; inversion H; subst; clear H
  | utcnow _ = _ => unfold utcnow in H; inversion H; subst; clear H
  | (if ?c then _ else _) _ = _ => destruct c eqn:?; sinv_stop H
  | (match ?o with Some _ => _ | None => _ end) _ = _ => destruct o eqn:?; sinv_stop H
  | (match ?l with nil => _ | cons _ _ => _ end) _ = _ => destruct l eqn:?; sinv_stop H
  | _resolve_commit _ _ _ _ _ = _ => idtac
  | _commit_to_context _ _ _ = _ => idtac
  | _evaluate_consensus _ _ _ = _ => idtac
  | _ => unfold_server_prim H; sinv_stop H
  end.

Section Elementary.

Variable sid : string.
Variable w0 : World.

Ltac same_tables :=
  intros [I1 I2 I3 I4 I5 I6 I7 I8]; constructor;
  unfold messages_of, entries_of, members_of, votes_of, proposals_of, lookup_squad in *;
  server_simpl; try assumption.

Lemma iso_refl : isolated sid w0 w0.
Proof.
  constructor; try reflexivity; try (intros; apply incl_refl).
  exists []. rewrite app_nil_r. split; [reflexivity | intros e []].
Qed.

Lemma iso_drop_uuid w : isolated sid w0 w -> isolated sid w0 (drop_uuid w).
Proof. same_tables. Qed.

Lemma iso_drop_now w : isolated sid w0 w -> isolated sid w0 (drop_now w).
Proof. same_tables. Qed.

Lemma filter_other {A : Type} (other : string) (rows : list (Scoped A)) (x : A) :
  other <> sid ->
  filter (fun r => in_squad r =? other) (rows ++ [mkScoped sid x])
  = filter (fun r => in_squad r =? other) rows.
Proof.
  intros Hne. rewrite filter_app. simpl.
  assert ((sid =? other) = false) as -> by (apply String.eqb_neq; congruence).
  apply app_nil_r.
Qed.

Lemma iso_add_message w m :
  isolated sid w0 w ->
  isolated sid w0 (set_messages (fun rows => rows ++ [mkScoped sid m]) w).
Proof.
  same_tables. intros other Hne. rewrite filter_other by assumption. now apply I1.
Qed.

Lemma iso_add_entry w e :
  isolated sid w0 w ->
  isolated sid w0 (set_context_entries (fun rows => rows ++ [mkScoped sid e]) w).
Proof.
  same_tables. intros other Hne. rewrite filter_other by assumption. now apply I2.
Qed.

Lemma iso_add_commit w p :
  isolated sid w0 w ->
  isolated sid w0 (set_commit_proposals (fun rows => rows ++ [mkScoped sid p]) w).
Proof.
  same_tables. intros other Hne. rewrite filter_other by assumption. now apply I5.
Qed.

Lemma iso_add_member w m :
  isolated sid w0 w ->
  isolated sid w0
    (set_members (fun rows => filter (fun r => negb (m_id (row r) =? m_id m)) rows
                              ++ [mkScoped sid (stored_member m)]) w).
Proof.
  same_tables. intros other Hne. rewrite filter_other by assumption.
  intros x Hx. apply (I3 other Hne). apply in_map_iff in Hx. destruct Hx as (r & <- & Hr).
  apply in_map. apply filter_In in Hr. destruct Hr as [Hr Ho]. apply filter_In in Hr.
  apply filter_In. tauto.
Qed.

Lemma iso_add_vote w v :
  isolated sid w0 w ->
  isolated sid w0
    (set_votes (fun rows => filter (fun r => negb (vote_conflicts v (row r))) rows
                            ++ [mkScoped sid v]) w).
Proof.
  same_tables. intros other Hne. rewrite filter_other by assumption.
  intros x Hx. apply (I4 other Hne). apply in_map_iff in Hx. destruct Hx as (r & <- & Hr).
  apply in_map. apply filter_In in Hr. destruct Hr as [Hr Ho]. apply filter_In in Hr.
  apply filter_In. tauto.
Qed.

Lemma iso_update_status w cid st t :
  isolated sid w0 w ->
  isolated sid w0
    (set_commit_proposals
       (map (fun r => if p_id (row r) =? cid
                      then mkScoped (in_squad r) (with_status (row r) st t)
                      else r)) w).
Proof.
  same_tables. intros other Hne. rewrite <- (I5 other Hne).
  clear. induction (commit_proposals w) as [| r rows IH]; simpl; [reflexivity |].
  destruct (p_id (row r) =? cid); simpl; destruct (in_squad r =? other); simpl;
    rewrite ?IH; reflexivity.
Qed.

Lemma iso_broadcast w t d ts :
  isolated sid w0 w ->
  isolated sid w0 (set_delivered (fun evs => evs ++ [mkEvent t d sid ts]) w).
Proof.
  same_tables. destruct I8 as (evs & E & Hall).
  exists (evs ++ [mkEvent t d sid ts]). rewrite E, app_assoc. split; [reflexivity |].
  intros e He. apply in_app_or in He. destruct He as [He | [<- | []]]; [now apply Hall |].
  reflexivity.
Qed.

Lemma iso_update_squad w g :
  (forall r, squad_id (g r) = squad_id r) ->
  isolated sid w0 w ->
  isolated sid w0 (set_squads (map (fun r => if squad_id r =? sid then g r else r)) w).
Proof.
  intros Hg. same_tables. intros other Hne. rewrite <- (I6 other Hne).
  apply find_map_untouched.
  - intros r. destruct (squad_id r =? sid); [| reflexivity]. now rewrite Hg.
  - intros r Hr. apply String.eqb_eq in Hr.
    assert ((squad_id r =? sid) = false) as -> by (apply String.eqb_neq; congruence).
    reflexivity.
Qed.

Lemma iso_log w f : isolated sid w0 w -> isolated sid w0 (set_security_log f w).
Proof. same_tables. Qed.

End Elementary.

Ltac iso_steps :=
  repeat first
    [ assumption
    | apply iso_drop_uuid | apply iso_drop_now | apply iso_add_message
    | apply iso_add_entry | apply iso_add_commit
    | match goal with
      | |- isolated _ _ (set_members (fun rows => _ ++ [mkScoped _ (stored_member ?m)]) _) =>
          apply (iso_add_member _ _ _ m)
      end
    | apply iso_add_vote | apply iso_update_status | apply iso_broadcast
    | apply iso_log ].

Lemma resolve_commit_isolated cid st ann sid w0 w u w' :
  isolated sid w0 w -> _resolve_commit cid st ann sid w = (Ret u, w') -> isolated sid w0 w'.
Proof. intros I H. unfold _resolve_commit in H. sinv_stop H. iso_steps. Qed.

Lemma commit_to_context_isolated p sid w0 w u w' :
  isolated sid w0 w -> _commit_to_context p sid w = (Ret u, w') -> isolated sid w0 w'.
Proof.
  intros I H. unfold _commit_to_context in H. sinv_stop H.
  iso_steps. eapply resolve_commit_isolated; [| eassumption]. iso_steps.
Qed.

Ltac iso_inner :=
  first [ eapply resolve_commit_isolated; [| eassumption]; iso_steps
        | eapply commit_to_context_isolated; [| eassumption]; iso_steps ].

Lemma evaluate_isolated cid sid w0 w r w' :
  isolated sid w0 w -> _evaluate_consensus cid sid w = (Ret r, w') -> isolated sid w0 w'.
Proof.
  intros I H. unfold _evaluate_consensus in H. sinv_stop H; first [solve [iso_steps] | iso_inner].
Qed.

Lemma join_isolated name model sid w0 r w' :
  join name model sid w0 = (Ret r, w') -> isolated sid w0 w'.
Proof.
  intros H. pose proof (iso_refl sid w0) as I.
  unfold join in H. sinv_stop H; iso_steps.
Qed.

Lemma propose_commit_isolated n c o sid w0 r w' :
  propose_commit n c o sid w0 = (Ret r, w') -> isolated sid w0 w'.
Proof.
  intros H. pose proof (iso_refl sid w0) as I.
  unfold propose_commit in H. sinv_stop H; iso_steps.
Qed.

Lemma vote_isolated n c ch h sid w0 r w' :
  vote n c ch h sid w0 = (Ret r, w') -> isolated sid w0 w'.
Proof.
  intros H. pose proof (iso_refl sid w0) as I.
  unfold vote in H. sinv_stop H; try solve [iso_steps].
  eapply evaluate_isolated; [| eassumption]. iso_steps.
Qed.

Lemma update_squad_settings_isolated sid admin kw w0 r w' :
  update_squad_settings sid admin kw w0 = (Ret r, w') -> isolated sid w0 w'.
Proof.
  intros H. pose proof (iso_refl sid w0) as I.
  unfold update_squad_settings in H. sinv_stop H; iso_steps.
  all: apply iso_update_squad;
    [intros r0; cbn [fold_left]; now rewrite ?apply_settings_id, ?apply_setting_id | assumption].
Qed.

(** X22: a returning call made for one squad leaves the other squads'
    messages, ledgers and rows of the squads table as they were, adds no
    member, vote or proposal to them, changes no role, and sends the
    listeners only events stamped with its own squad. *)
Theorem calls_stay_in_their_squad c w r w' :
  run c w = (Ret r, w') -> isolated (squad_of c) w w'.
Proof.
  destruct c; simpl; intros H.
  - eapply join_isolated; eassumption.
  - eapply propose_commit_isolated; eassumption.
  - eapply vote_isolated; eassumption.
  - eapply update_squad_settings_isolated; eassumption.
Qed.

(** ** Each squad's ledger *)

Lemma server_max_version_seq rows : forall a,
  map version rows = map Z.of_nat (seq a (List.length rows)) ->
  max_version rows = match rows with
                     | [] => None
                     | _ :: _ => Some (Z.of_nat (a + List.length rows - 1))
                     end.
Proof.
  induction rows as [| r rest IH]; intros a H; [reflexivity |].
  simpl in H. injection H as Hr Hrest.
  simpl. rewrite (IH (S a) Hrest). destruct rest as [| r' rest'].
  - rewrite Hr. f_equal. f_equal. simpl. lia.
  - rewrite Hr. f_equal. simpl List.length. lia.
Qed.

Lemma next_version_dense sid w :
  dense w -> next_version sid w = Z.of_nat (S (List.length (entries_of sid w))).
Proof.
  intros D. specialize (D sid). unfold next_version, Squad.versions_upto in *.
  rewrite (server_max_version_seq _ 1 D).
  destruct (entries_of sid w) as [| r rest]; [reflexivity |].
  unfold or_zero. simpl List.length.
  replace (1 + S (List.length rest) - 1) with (S (List.length rest)) by lia.
  destruct (Z.of_nat (S (List.length rest)) =? 0)%Z eqn:E; [| lia].
  apply Z.eqb_eq in E. lia.
Qed.

Lemma ledger_step_dense sid w w' : ledger_step sid w w' -> dense w -> dense w'.
Proof.
  intros [E | (e & E & Hv)] D sid'; unfold entries_of in *; rewrite E; [apply D |].
  rewrite filter_app. simpl.
  destruct (sid =? sid') eqn:Es.
  - apply String.eqb_eq in Es. subst sid'.
    rewrite map_app, map_app, length_app, length_map. simpl.
    rewrite Nat.add_1_r, SquadFacts.versions_upto_S.
    rewrite <- (length_map row). fold (entries_of sid w).
    rewrite (D sid), Hv, (next_version_dense sid w D).
    unfold entries_of. rewrite length_map. reflexivity.
  - rewrite app_nil_r. apply D.
Qed.

Ltac ledger_same := left; server_simpl; reflexivity.

Lemma resolve_commit_ledger cid st ann sid w u w' :
  _resolve_commit cid st ann sid w = (Ret u, w') -> context_entries w' = context_entries w.
Proof. intros H. unfold _resolve_commit in H. sinv_stop H. reflexivity. Qed.

Lemma commit_to_context_ledger p sid w u w' :
  _commit_to_context p sid w = (Ret u, w') -> ledger_step sid w w'.
Proof.
  intros H. unfold _commit_to_context in H. sinv_stop H.
  match goal with
  | H : _resolve_commit _ _ _ _ _ = _ |- _ => apply resolve_commit_ledger in H
  end.
  right. server_simpl. eexists. split; [eassumption |]. reflexivity.
Qed.

Lemma evaluate_ledger cid sid w r w' :
  _evaluate_consensus cid sid w = (Ret r, w') -> ledger_step sid w w'.
Proof.
  intros H. unfold _evaluate_consensus in H. sinv_stop H.
  all: try (left; reflexivity).
  all: try (left; eapply resolve_commit_ledger; eassumption).
  all: eapply commit_to_context_ledger; eassumption.
Qed.

Lemma run_ledger c w r w' : run c w = (Ret r, w') -> ledger_step (squad_of c) w w'.
Proof.
  destruct c; simpl; intros H.
  - unfold join in H. sinv_stop H; ledger_same.
  - unfold propose_commit in H. sinv_stop H; ledger_same.
  - unfold vote in H. sinv_stop H; try ledger_same.
    match goal with
    | H : _evaluate_consensus _ _ _ = _ |- _ => apply evaluate_ledger in H; exact H
    end.
  - unfold update_squad_settings in H. sinv_stop H; ledger_same.
Qed.

Lemma fresh_dense mode uuids clock : dense (fresh mode uuids clock).
Proof. intros sid. reflexivity. Qed.

Lemma run_all_dense cs : forall w w', run_all cs w = Some w' -> dense w -> dense w'.
Proof.
  induction cs as [| c cs IH]; simpl; intros w w' Hrun D.
  - now injection Hrun as <-.
  - destruct (run c w) as [[r | x] w1] eqn:Hc; [| discriminate].
    eapply IH; [exact Hrun |]. eapply ledger_step_dense; [| exact D].
    eapply run_ledger. exact Hc.
Qed.

(** X23: after any run of calls on a new database, each squad's ledger
    holds the versions 1..n in the order stored, get_context_version returns
    n, and a further call adds to a squad's ledger at most one entry, with
    version n+1, and only if it is made for that squad. *)
Theorem squad_ledgers_are_dense cs mode uuids clock w' sid :
  run_all cs (fresh mode uuids clock) = Some w' ->
  map version (entries_of sid w') = Squad.versions_upto (List.length (entries_of sid w')) /\
  get_context_version sid w' = (Ret (Z.of_nat (List.length (entries_of sid w'))), w') /\
  (forall c r w'',
     run c w' = (Ret r, w'') ->
     entries_of sid w'' = entries_of sid w' \/
     exists e, sid = squad_of c /\ entries_of sid w'' = entries_of sid w' ++ [e] /\
               version e = Z.of_nat (S (List.length (entries_of sid w')))).
Proof.
  intros Hrun.
  pose proof (run_all_dense cs _ _ Hrun (fresh_dense mode uuids clock)) as D.
  split; [apply D |]. split.
  - unfold get_context_version, gets. f_equal. f_equal.
    pose proof (next_version_dense sid w' D) as Hn. unfold next_version in Hn. lia.
  - intros c r w'' Hc. apply run_ledger in Hc.
    destruct Hc as [E | (e & E & Hv)]; unfold entries_of; rewrite E; [now left |].
    rewrite filter_app. simpl. destruct (squad_of c =? sid) eqn:Es.
    + apply String.eqb_eq in Es. right. exists e. split; [now symmetry |].
      rewrite map_app. split; [reflexivity |].
      rewrite Hv, Es, (next_version_dense sid w' D). reflexivity.
    + left. now rewrite app_nil_r.
Qed.



(** ** Names are per squad *)

Lemma server_add_message_eq msg sid w :
  mem_string (msg_id msg) (map (fun r => msg_id (row r)) (messages w)) = false ->
  add_message msg sid w = (Ret msg, set_messages (fun rows => rows ++ [mkScoped sid msg]) w).
Proof. intros H. unfold add_message, bind, gets. rewrite H. reflexivity. Qed.

Lemma find_member_after_add name sid other new rows :
  m_name new = name ->
  (forall r, In r rows -> m_id (row r) <> m_id new) ->
  find (fun r => (m_name (row r) =? name) && (in_squad r =? other) && m_is_active (row r))
       (filter (fun r => negb (m_id (row r) =? m_id new)) rows
        ++ [mkScoped sid (stored_member new)])
  = match find (fun r => (m_name (row r) =? name) && (in_squad r =? other)
                         && m_is_active (row r)) rows with
    | Some r => Some r
    | None => if sid =? other then Some (mkScoped sid (stored_member new)) else None
    end.
Proof.
  intros Hname Hfresh. induction rows as [| r rows IH]; simpl.
  - rewrite Hname, String.eqb_refl. simpl. rewrite andb_true_r. reflexivity.
  - assert ((m_id (row r) =? m_id new) = false) as ->
      by (apply String.eqb_neq; apply Hfresh; now left).
    simpl.
    destruct ((m_name (row r) =? name) && (in_squad r =? other) && m_is_active (row r));
      [reflexivity |].
    apply IH. intros x Hx. apply Hfresh. now right.
Qed.

Lemma server_filter_all {A : Type} (f : A -> bool) (l : list A) :
  (forall x, In x l -> f x = true) -> filter f l = l.
Proof.
  induction l as [| a l IH]; simpl; intros H; [reflexivity |].
  rewrite (H a (or_introl eq_refl)). f_equal. apply IH. intros x Hx. apply H. now right.
Qed.

(** X24: join refuses a name only if an active member of the same squad
    has it.  Otherwise, when the identifiers drawn are not in use, it
    returns with a new member of that squad, found by a lookup there, and
    the lookups by that name in every other squad give what they gave
    before: one name can be active in several squads at once. *)
Theorem join_is_per_squad name model sid w :
  (forall m, lookup_member_by_name name sid w = Some m ->
     join name model sid w = (Ret (Failure ("'" ^^ name ^^ "' is already in the squad")), w)) /\
  (lookup_member_by_name name sid w = None ->
   mem_string (uuid4s w 1) (map (fun r => msg_id (row r)) (messages w)) = false ->
   mem_string (first8 (uuid4s w 0)) (map (fun r => m_id (row r)) (members w)) = false ->
   exists welcome w',
     let new := mkSquadMember (first8 (uuid4s w 0)) name model (nows w 0) true None in
     join name model sid w = (Ret (Joined new welcome), w') /\
     lookup_member_by_name name sid w' = Some new /\
     (forall other, other <> sid ->
        lookup_member_by_name name other w' = lookup_member_by_name name other w) /\
     members w' = members w ++ [mkScoped sid new]).
Proof.
  split.
  - intros m Hm. unfold join.
    sstep_by ltac:(exact (f_equal (fun o => (Ret o, w)) Hm)).
    unfold lookup_member_by_name in Hm.
    destruct (find _ (members w)) as [r |] eqn:E; [| discriminate].
    apply find_some in E. destruct E as [_ E]. apply andb_true_iff in E.
    injection Hm as <-. destruct E as [_ ->]. reflexivity.
  - intros Hnone Hmsg Hid0.
    assert (forall r, In r (members w) -> m_id (row r) <> first8 (uuid4s w 0)) as Hid.
    { intros r Hr E. apply mem_string_false_iff in Hid0. apply Hid0. rewrite <- E.
      apply (in_map (fun r => m_id (row r))). exact Hr. }
    clear Hid0. unfold join.
    sstep_by ltac:(exact (f_equal (fun o => (Ret o, w)) Hnone)).
    sstep. sstep. sstep.
    sstep_by ltac:(apply server_add_message_eq; exact Hmsg).
    sstep. sstep. eexists _, _. cbv zeta. split; [reflexivity |].
    unfold lookup_member_by_name in *. server_simpl.
    pose proof (find_member_after_add name sid) as Hfind.
    split; [| split].
    + rewrite (Hfind sid (mkSquadMember (first8 (uuid4s w 0)) name model (nows w 0) true None)
                 (members w) eq_refl Hid).
      destruct (find (fun r => (m_name (row r) =? name) && (in_squad r =? sid)
                               && m_is_active (row r)) (members w)); [discriminate |].
      rewrite String.eqb_refl. reflexivity.
    + intros other Hne.
      rewrite (Hfind other (mkSquadMember (first8 (uuid4s w 0)) name model (nows w 0) true None)
                 (members w) eq_refl Hid).
      destruct (find (fun r => (m_name (row r) =? name) && (in_squad r =? other)
                               && m_is_active (row r)) (members w)); [reflexivity |].
      assert ((sid =? other) = false) as -> by (apply String.eqb_neq; congruence).
      reflexivity.
    + f_equal. apply server_filter_all. intros r Hr. apply negb_true_iff.
      apply String.eqb_neq. now apply Hid.
Qed.

(** ** The further theorems at work on the scenarios *)

Lemma set_member_role_outcomes_witness :
  holds_admin "default" "id-0-000" unanimous_squad = true /\
  (exists w',
     orchestrator_set_member_role "default" "ann" "member" "id-0-000" unanimous_squad
     = (Ret (Done ("ann" ^^ " is now a " ^^ "member")), w') /\
     holds_admin "default" "id-0-000" w' = false) /\
  update_squad_settings "default" "id-0-000" [SetConsensusMode "majority"] demoted_squad
  = (Ret (Failure "Admin access required"), demoted_squad) /\
  orchestrator_set_member_role "default" "ann" "admin" "id-0-000" demoted_squad
  = (Ret (Refused "Admin access required"), demoted_squad).
Proof.
  split; [vm_compute; reflexivity |]. split; [| split].
  - destruct (set_member_role_outcomes "default" "ann" "member" "id-0-000" unanimous_squad)
      as (_ & _ & _ & H).
    destruct (H (the_member "ann" "default" unanimous_squad)) as (w' & H1 & H2 & _).
    + vm_compute. reflexivity.
    + vm_compute. reflexivity.
    + right. reflexivity.
    + intros Hnone. vm_compute in Hnone. discriminate Hnone.
    + exists w'. split; [exact H1 |].
      change "id-0-000" with (m_id (the_member "ann" "default" unanimous_squad)) at 1.
      rewrite H2. reflexivity.
  - apply (proj1 (update_squad_settings_outcomes "default" "id-0-000"
                    [SetConsensusMode "majority"] demoted_squad)).
    vm_compute. reflexivity.
  - apply (proj1 (set_member_role_outcomes "default" "ann" "admin" "id-0-000" demoted_squad)).
    vm_compute. reflexivity.
Defined.

Lemma update_squad_settings_outcomes_witness :
  (exists w',
     update_squad_settings "default" "id-0-000"
       [SetIsActive false; SetName "Core"; SetOther "owner"] unanimous_squad
     = (Ret (SettingsReply true [SetName "Core"]), w') /\
     option_map (fun s => (squad_name s, squad_consensus_mode s, squad_is_active s))
                (lookup_squad "default" w')
     = Some ("Core", "unanimous", true)) /\
  update_squad_settings "default" "id-0-000" [SetIsActive false] unanimous_squad
  = (Ret (Failure "No valid settings to update"), unanimous_squad) /\
  update_squad_settings "default" "id-2-000" [SetName "Core"] unanimous_squad
  = (Ret (Failure "Admin access required"), unanimous_squad).
Proof.
  split; [| split].
  - destruct (update_squad_settings_outcomes "default" "id-0-000"
                [SetIsActive false; SetName "Core"; SetOther "owner"] unanimous_squad)
      as (_ & _ & _ & H).
    destruct (lookup_squad "default" unanimous_squad) as [s |] eqn:Es;
      [| vm_compute in Es; discriminate Es].
    destruct (H s) as (w' & H1 & H2 & _).
    + vm_compute. reflexivity.
    + vm_compute. discriminate.
    + reflexivity.
    + vm_compute. reflexivity.
    + exists w'. split; [exact H1 |]. rewrite H2.
      vm_compute in Es. injection Es as <-. vm_compute. reflexivity.
  - destruct (update_squad_settings_outcomes "default" "id-0-000" [SetIsActive false]
                unanimous_squad) as (_ & H & _).
    apply H; vm_compute; reflexivity.
  - apply (proj1 (update_squad_settings_outcomes "default" "id-2-000" [SetName "Core"]
                    unanimous_squad)).
    vm_compute. reflexivity.
Defined.

Lemma calls_stay_in_their_squad_witness :
  exists r w',
    vote "alice" "id-4-000" "approve" false "alpha" two_squads = (Ret r, w') /\
    messages_of "beta" w' = messages_of "beta" two_squads /\
    entries_of "beta" w' = entries_of "beta" two_squads /\
    map p_id (proposals_of "beta" w') = map p_id (proposals_of "beta" two_squads) /\
    List.length (messages_of "alpha" w') = 2 + List.length (messages_of "alpha" two_squads).
Proof.
  destruct (vote "alice" "id-4-000" "approve" false "alpha" two_squads) as [[r | e] w'] eqn:E.
  - pose proof (calls_stay_in_their_squad
                  (CallVote "alice" "id-4-000" "approve" false "alpha") two_squads r w' E)
      as [I1 I2 _ _ I5 _ _ _].
    exists r, w'. split; [reflexivity |].
    split; [apply I1; discriminate |]. split; [apply I2; discriminate |].
    split; [apply I5; discriminate |].
    vm_compute in E. injection E as _ <-. vm_compute. reflexivity.
  - vm_compute in E. discriminate E.
Defined.

Lemma squad_ledgers_are_dense_witness :
  map (fun r => (in_squad r, version (row r), entry_content (row r)))
      (context_entries two_ledgers)
  = [("alpha", 1%Z, "Ship alpha"); ("beta", 1%Z, "Ship beta")] /\
  map version (entries_of "beta" two_ledgers)
  = Squad.versions_upto (List.length (entries_of "beta" two_ledgers)) /\
  get_context_version "beta" two_ledgers
  = (Ret (Z.of_nat (List.length (entries_of "beta" two_ledgers))), two_ledgers).
Proof.
  split; [vm_compute; reflexivity |].
  destruct (squad_ledgers_are_dense
              [CallJoin "alice" "claude" "alpha";
               CallJoin "bob" "gpt" "beta";
               CallProposeCommit "bob" "Ship it" "agent_nominated" "beta";
               CallProposeCommit "alice" "Ship alpha" "agent_nominated" "alpha";
               CallVote "alice" "id-6-000" "approve" false "alpha";
               CallProposeCommit "bob" "Ship beta" "agent_nominated" "beta";
               CallVote "bob" "id-12-00" "approve" false "beta"]
              "majority" sample_uuid sample_clock two_ledgers "beta") as (H1 & H2 & _).
  - vm_compute. reflexivity.
  - split; assumption.
Defined.

Lemma join_is_per_squad_witness :
  option_map m_id (lookup_member_by_name "bob" "beta" two_squads) = Some "id-2-000" /\
  exists new welcome w',
    join "bob" "llama" "alpha" two_squads = (Ret (Joined new welcome), w') /\
    lookup_member_by_name "bob" "alpha" w' = Some new /\
    m_id new = "id-6-000" /\
    lookup_member_by_name "bob" "beta" w' = lookup_member_by_name "bob" "beta" two_squads.
Proof.
  split; [vm_compute; reflexivity |].
  destruct (proj2 (join_is_per_squad "bob" "llama" "alpha" two_squads))
    as (welcome & w' & H1 & H2 & H3 & _).
  - vm_compute. reflexivity.
  - vm_compute. reflexivity.
  - vm_compute. reflexivity.
  - eexists _, welcome, w'. split; [exact H1 |]. split; [exact H2 |].
    split; [vm_compute; reflexivity |]. apply H3. discriminate.
Defined.

End SquadServerMoreFacts.

(** * Facts about the names of shared files *)

Module FileNamesFacts.

Import FileNames.
Open Scope string_scope.
Open Scope list_scope.

Lemma prefix_iff sub : forall s, prefix sub s = true <-> exists b, s = sub ^^ b.
Proof.
  induction sub as [| c sub IH]; intros s; simpl.
  - destruct s; (split; [intros _; eexists; reflexivity | intros _; reflexivity]).
  - destruct s as [| d s]; simpl.
    + split; [discriminate | intros (b & H); discriminate].
    + destruct (ascii_dec c d) as [-> | Hne].
      * rewrite IH. split; intros (b & H); exists b; [now rewrite H | now injection H].
      * split; [discriminate | intros (b & H); injection H as H1 H2; congruence].
Qed.

Lemma contains_iff sub : forall s,
  contains sub s = true <-> exists a b, s = a ^^ sub ^^ b.
Proof.
  induction s as [| c s IH]; cbn [contains].
  - rewrite orb_false_r, prefix_iff. split.
    + intros (b & H). exists "", b. exact H.
    + intros (a & b & H). destruct a as [| x a]; [exists b; exact H | discriminate].
  - rewrite orb_true_iff, prefix_iff, IH. split.
    + intros [(b & H) | (a & b & H)].
      * exists "", b. exact H.
      * exists (String c a), b. simpl. now rewrite H.
    + intros (a & b & H). destruct a as [| x a]; simpl in H.
      * left. exists b. exact H.
      * right. injection H as _ H. exists a, b. exact H.
Qed.

Lemma contains_false_iff sub s :
  contains sub s = false <-> forall a b, s <> a ^^ sub ^^ b.
Proof.
  split.
  - intros H a b E. assert (contains sub s = true) by (apply contains_iff; eauto). congruence.
  - intros H. destruct (contains sub s) eqn:E; [| reflexivity].
    apply contains_iff in E. destruct E as (a & b & E). exfalso. exact (H a b E).
Qed.

Lemma alnum_not c : alnum c = true -> c <> "/"%char /\ c <> "."%char /\ c <> ascii_of_nat 92.
Proof.
  intros H. repeat split; intros ->; vm_compute in H; discriminate.
Qed.

Lemma name_char_not c :
  name_char c = true -> c <> "/"%char /\ c <> ascii_of_nat 92 /\ c <> newline.
Proof.
  intros H. repeat split; intros ->; vm_compute in H; discriminate.
Qed.

(** What the pattern accepts, character by character. *)
Lemma tail_matches_chars s :
  tail_matches s = true ->
  forall a c b, s = a ^^ String c b -> name_char c = true \/ (c = newline /\ b = "").
Proof.
  induction s as [| x s IH]; intros H a c b E.
  - destruct a; discriminate.
  - simpl in H. destruct a as [| y a]; simpl in E; injection E as -> E.
    + subst b. destruct (name_char c); [now left | right].
      apply andb_true_iff in H. destruct H as [H1 H2].
      apply Ascii.eqb_eq in H1. apply String.eqb_eq in H2. auto.
    + destruct (name_char y).
      * exact (IH H a c b E).
      * apply andb_true_iff in H. destruct H as [_ H2]. apply String.eqb_eq in H2.
        subst s. destruct a; discriminate.
Qed.

Lemma matches_chars s :
  matches_FILENAME_PATTERN s = true ->
  (exists c rest, s = String c rest /\ alnum c = true) /\
  forall a c b, s = a ^^ String c b -> name_char c = true \/ (c = newline /\ b = "").
Proof.
  destruct s as [| x s]; simpl; [discriminate |]. intros H.
  apply andb_true_iff in H. destruct H as [H1 H2]. split; [eauto |].
  intros a c b E. destruct a as [| y a]; simpl in E; injection E as -> E.
  - left. unfold name_char. now rewrite H1.
  - exact (tail_matches_chars s H2 a c b E).
Qed.

Lemma matches_no_char s x :
  matches_FILENAME_PATTERN s = true -> name_char x = false -> x <> newline ->
  contains (String x "") s = false.
Proof.
  intros H Hx Hn. apply contains_false_iff. intros a b E.
  destruct (matches_chars s H) as [_ Hall].
  destruct (Hall a x b E) as [Hc | [Hc _]]; congruence.
Qed.

(** X25: validate_filename accepts exactly the names of at most
    MAX_FILENAME_LENGTH characters that match FILENAME_PATTERN and hold no
    two dots in a row.  An accepted name starts with a letter or a digit;
    each of its characters is a letter, a digit, a dot, an underscore or a
    hyphen, except that one newline may end the name; it holds no slash and
    no backslash. *)
Theorem validate_filename_safe s :
  (validate_filename s = true <->
   matches_FILENAME_PATTERN s = true /\ String.length s <= MAX_FILENAME_LENGTH /\
   forall a b, s <> a ^^ ".." ^^ b) /\
  (validate_filename s = true ->
   (exists c rest, s = String c rest /\ alnum c = true) /\
   (forall a c b, s = a ^^ String c b -> name_char c = true \/ (c = newline /\ b = "")) /\
   (forall a b, s <> a ^^ "/" ^^ b) /\
   (forall a b, s <> a ^^ backslash ^^ b)).
Proof.
  assert (validate_filename s = true <->
          matches_FILENAME_PATTERN s = true /\ String.length s <= MAX_FILENAME_LENGTH /\
          forall a b, s <> a ^^ ".." ^^ b) as Hiff.
  { unfold validate_filename. split.
    - intros H.
      destruct ((s =? "") || (MAX_FILENAME_LENGTH <? String.length s)%nat) eqn:E1;
        [discriminate |].
      apply orb_false_iff in E1. destruct E1 as [_ E1]. apply Nat.ltb_ge in E1.
      destruct (matches_FILENAME_PATTERN s) eqn:E2; [| discriminate]. simpl in H.
      destruct (contains ".." s) eqn:E3; [discriminate |].
      split; [reflexivity |]. split; [exact E1 |]. now apply contains_false_iff.
    - intros (H1 & H2 & H3).
      assert ((s =? "") = false) as ->.
      { apply String.eqb_neq. intros ->. discriminate. }
      apply Nat.ltb_ge in H2. rewrite H2, H1. simpl.
      apply contains_false_iff in H3. rewrite H3. unfold backslash.
      rewrite (matches_no_char s "/" H1), (matches_no_char s (ascii_of_nat 92) H1);
        try reflexivity; discriminate. }
  split; [exact Hiff |]. intros H. apply Hiff in H. destruct H as (H1 & _ & _).
  destruct (matches_chars s H1) as [Hfirst Hall].
  split; [exact Hfirst |]. split; [exact Hall |].
  unfold backslash.
  split; apply contains_false_iff; apply matches_no_char; try assumption;
    try reflexivity; discriminate.
Qed.

Lemma append_empty s : s ^^ "" = s.
Proof. induction s as [| c s IH]; simpl; [reflexivity | now rewrite IH]. Qed.

Lemma chars_app a b : chars (a ^^ b) = chars a ++ chars b.
Proof. unfold chars. induction a as [| c a IH]; simpl; [reflexivity | now rewrite IH]. Qed.

Lemma chars_split s x :
  In x (chars s) <-> exists a b, s = a ^^ String x b.
Proof.
  induction s as [| c s IH]; simpl.
  - split; [intros [] | intros (a & b & E); destruct a; discriminate].
  - rewrite IH. split.
    + intros [-> | (a & b & ->)]; [exists "", s | exists (String c a), b]; reflexivity.
    + intros (a & b & E). destruct a as [| y a]; simpl in E; injection E as -> E.
      * now left.
      * right. eauto.
Qed.

Lemma rstrip_slash_app s : rstrip_slash (s ^^ "/") = rstrip_slash s.
Proof.
  induction s as [| c s IH]; simpl; [reflexivity |]. now rewrite IH.
Qed.

Lemma rstrip_slash_decomp s :
  exists r, s = rstrip_slash s ^^ r /\ forall c, In c (chars r) -> c = "/"%char.
Proof.
  induction s as [| c s (r & E & Hr)]; simpl.
  - exists "". split; [reflexivity | intros c []].
  - destruct ((c =? "/")%char && (rstrip_slash s =? "")) eqn:Ec.
    + apply andb_true_iff in Ec. destruct Ec as [E1 E2].
      apply Ascii.eqb_eq in E1. apply String.eqb_eq in E2. rewrite E2 in E. simpl in E.
      exists (String c s). split; [reflexivity |].
      intros x [<- | Hx]; [assumption |]. apply Hr. now rewrite <- E.
    + exists r. split; [simpl; now rewrite <- E | exact Hr].
Qed.

Lemma split_slash_nonempty s : split_slash s <> [].
Proof.
  destruct s as [| c s]; simpl; [discriminate |].
  destruct (c =? "/")%char; [discriminate |].
  destruct (split_slash s); discriminate.
Qed.

Lemma concat_split_slash s : String.concat "/" (split_slash s) = s.
Proof.
  induction s as [| c s IH]; [reflexivity |]. simpl.
  destruct (c =? "/")%char eqn:Ec.
  - apply Ascii.eqb_eq in Ec. subst c.
    pose proof (split_slash_nonempty s) as Hne.
    destruct (split_slash s) as [| h t] eqn:Es; [contradiction |].
    change (String.concat "/" ("" :: h :: t)) with ("" ^^ "/" ^^ String.concat "/" (h :: t)).
    now rewrite IH.
  - pose proof (split_slash_nonempty s) as Hne.
    destruct (split_slash s) as [| h t] eqn:Es; [contradiction |].
    destruct t as [| h' t]; simpl in *; now rewrite <- IH.
Qed.

Lemma dotdot_across u : forall a v b,
  u ^^ "/" ^^ v = a ^^ ".." ^^ b ->
  contains ".." u = true \/ contains ".." v = true.
Proof.
  induction u as [| y u IH]; intros a v b E.
  - destruct a as [| x a]; simpl in E; [discriminate |].
    injection E as _ E. right. apply contains_iff. exists a, b. exact E.
  - destruct a as [| x a]; simpl in E.
    + injection E as -> E. destruct u as [| z u]; simpl in E; [discriminate |].
      injection E as -> E. left. apply contains_iff. exists "", u. reflexivity.
    + injection E as _ E. destruct (IH a v b E) as [H | H]; [left | now right].
      apply contains_iff in H. destruct H as (a' & b' & ->).
      apply contains_iff. exists (String y a'), b'. reflexivity.
Qed.

Lemma valid_parts_no_dotdot parts :
  valid_parts parts = true -> contains ".." (String.concat "/" parts) = false.
Proof.
  induction parts as [| h t IH]; [reflexivity |]. cbn [valid_parts].
  destruct ((h =? "") || negb (matches_FILENAME_PATTERN h)); [discriminate |].
  destruct (contains ".." h) eqn:Eh; [discriminate |]. intros Ht.
  specialize (IH Ht). destruct t as [| h' t]; [exact Eh |].
  change (String.concat "/" (h :: h' :: t)) with (h ^^ "/" ^^ String.concat "/" (h' :: t)).
  destruct (contains ".." (h ^^ "/" ^^ String.concat "/" (h' :: t))) eqn:E; [| reflexivity].
  apply contains_iff in E. destruct E as (a & b & E).
  destruct (dotdot_across h a _ b E); congruence.
Qed.

Lemma valid_parts_chars parts :
  valid_parts parts = true ->
  forall c, In c (chars (String.concat "/" parts)) ->
            name_char c = true \/ c = newline \/ c = "/"%char.
Proof.
  induction parts as [| h t IH]; [intros _ c [] |]. cbn [valid_parts].
  destruct ((h =? "") || negb (matches_FILENAME_PATTERN h)) eqn:Eh; [discriminate |].
  destruct (contains ".." h); [discriminate |]. intros Ht.
  apply orb_false_iff in Eh. destruct Eh as [_ Eh]. apply negb_false_iff in Eh.
  assert (forall c, In c (chars h) -> name_char c = true \/ c = newline \/ c = "/"%char) as Hh.
  { intros c Hc. apply chars_split in Hc. destruct Hc as (a & b & E).
    destruct (matches_chars h Eh) as [_ Hall].
    destruct (Hall a c b E) as [H | [H _]]; auto. }
  destruct t as [| h' t]; [exact Hh |].
  change (String.concat "/" (h :: h' :: t)) with (h ^^ "/" ^^ String.concat "/" (h' :: t)).
  intros c Hc. rewrite !chars_app in Hc. apply in_app_or in Hc.
  destruct Hc as [Hc | Hc]; [now apply Hh |].
  apply in_app_or in Hc. destruct Hc as [[<- | []] | Hc]; [auto |].
  now apply (IH Ht).
Qed.

Lemma slashes_no_dotdot r :
  (forall c, In c (chars r) -> c = "/"%char) -> contains ".." r = false.
Proof.
  intros H. apply contains_false_iff. intros a b E.
  assert (In "."%char (chars r)) as Hin.
  { apply chars_split. exists a, (String "." b). rewrite E. reflexivity. }
  apply H in Hin. discriminate.
Qed.

(** X26: a path that validate_path accepts holds no two dots in a row; each
    of its characters is a letter, a digit, a dot, an underscore, a hyphen,
    a newline or a slash; if it starts with a slash it is made of slashes
    only; and, once the slashes that end it are removed, it has at most
    MAX_PATH_DEPTH parts.  One more slash at the end of a path does not
    change the answer. *)
Theorem validate_path_safe p :
  (validate_path p = true ->
   (forall a b, p <> a ^^ ".." ^^ b) /\
   (forall c, In c (chars p) -> name_char c = true \/ c = newline \/ c = "/"%char) /\
   (forall b, p = "/" ^^ b -> forall c, In c (chars p) -> c = "/"%char) /\
   List.length (split_slash (rstrip_slash p)) <= MAX_PATH_DEPTH) /\
  validate_path (p ^^ "/") = validate_path p.
Proof.
  split.
  - unfold validate_path. intros H.
    destruct (rstrip_slash_decomp p) as (r & Ep & Hr).
    destruct (p =? "") eqn:E0.
    { apply String.eqb_eq in E0. subst p. repeat split.
      - intros a b E. destruct a; discriminate.
      - intros c [].
      - intros b E. discriminate.
      - simpl. unfold MAX_PATH_DEPTH. lia. }
    cbv zeta in H. destruct (rstrip_slash p =? "") eqn:E1.
    { apply String.eqb_eq in E1. rewrite E1 in *. simpl in Ep. subst r.
      repeat split.
      - apply contains_false_iff. now apply slashes_no_dotdot.
      - intros c Hc. right. right. now apply Hr.
      - intros b _. exact Hr.
      - simpl. unfold MAX_PATH_DEPTH. lia. }
    destruct (MAX_PATH_DEPTH <? List.length (split_slash (rstrip_slash p)))%nat eqn:E2;
      [discriminate |].
    apply Nat.ltb_ge in E2.
    pose proof (valid_parts_no_dotdot _ H) as Hdd.
    pose proof (valid_parts_chars _ H) as Hch.
    rewrite concat_split_slash in Hdd, Hch.
    split; [| split; [| split]].
    + apply contains_false_iff.
      destruct r as [| x r']; [rewrite Ep, append_empty; exact Hdd |].
      assert (x = "/"%char) as -> by (apply Hr; now left).
      destruct (contains ".." p) eqn:Ec; [| reflexivity].
      apply contains_iff in Ec. destruct Ec as (a & b & Ec). rewrite Ep in Ec.
      destruct (dotdot_across (rstrip_slash p) a r' b Ec) as [Hq | Hq]; [congruence |].
      rewrite slashes_no_dotdot in Hq; [discriminate |].
      intros c Hc. apply Hr. now right.
    + intros c Hc. rewrite Ep, chars_app in Hc. apply in_app_or in Hc.
      destruct Hc as [Hc | Hc]; [now apply Hch | right; right; now apply Hr].
    + intros b Eb. exfalso. subst p. simpl in H, E1.
      destruct (rstrip_slash b =? "") eqn:Eb; [simpl in E1; discriminate |].
      simpl in H. discriminate.
    + exact E2.
  - unfold validate_path. rewrite rstrip_slash_app.
    destruct p as [| c p]; [reflexivity |]. reflexivity.
Qed.

Lemma no_slash_cons c s :
  contains "/" (String c s) = false -> (c =? "/")%char = false /\ contains "/" s = false.
Proof.
  cbn [contains]. intros H. apply orb_false_iff in H. destruct H as [H1 H2].
  split; [| exact H2]. simpl in H1.
  destruct (Ascii.eqb_spec c "/") as [-> | Hne]; [| reflexivity].
  destruct (ascii_dec "/" "/") as [_ | n]; [| now elim n].
  destruct s; discriminate.
Qed.

Lemma rstrip_slash_plain s : contains "/" s = false -> rstrip_slash s = s.
Proof.
  induction s as [| c s IH]; [reflexivity |]. intros H.
  apply no_slash_cons in H. destruct H as [Hc Hs]. simpl.
  rewrite Hc, (IH Hs). reflexivity.
Qed.

Lemma split_slash_plain s : contains "/" s = false -> split_slash s = [s].
Proof.
  induction s as [| c s IH]; [reflexivity |]. intros H.
  apply no_slash_cons in H. destruct H as [Hc Hs]. simpl.
  rewrite Hc, (IH Hs). reflexivity.
Qed.

(** X27: a name that validate_filename accepts is also accepted by
    validate_path, as a path of one part, with or without a slash after
    it. *)
Theorem valid_name_is_valid_path s :
  validate_filename s = true ->
  validate_path s = true /\ validate_path (s ^^ "/") = true.
Proof.
  unfold validate_filename. intros H.
  destruct ((s =? "") || (MAX_FILENAME_LENGTH <? String.length s)%nat) eqn:E0; [discriminate |].
  destruct (matches_FILENAME_PATTERN s) eqn:Em; [| discriminate]. simpl in H.
  destruct (contains ".." s) eqn:Ed; [discriminate |].
  destruct (contains "/" s) eqn:Es; [discriminate |]. clear H.
  apply orb_false_iff in E0. destruct E0 as [E0 _].
  assert (validate_path s = true) as Hp.
  { unfold validate_path. rewrite E0. cbv zeta.
    rewrite (rstrip_slash_plain s Es), E0, (split_slash_plain s Es).
    cbn [List.length valid_parts]. rewrite E0, Em, Ed. reflexivity. }
  split; [exact Hp |].
  unfold validate_path in *. rewrite rstrip_slash_app.
  destruct s; [discriminate | exact Hp].
Qed.

(** ** The theorems at work *)

Lemma validate_filename_safe_witness :
  validate_filename "notes.md" = true /\
  (forall a b, "notes.md" <> a ^^ "/" ^^ b) /\
  (forall a b, "notes.md" <> a ^^ ".." ^^ b).
Proof.
  split; [vm_compute; reflexivity |].
  split.
  - destruct (proj2 (validate_filename_safe "notes.md")) as (_ & _ & H & _);
      [vm_compute; reflexivity | exact H].
  - destruct (proj1 (proj1 (validate_filename_safe "notes.md"))) as (_ & _ & H);
      [vm_compute; reflexivity | exact H].
Defined.

Lemma validate_path_safe_witness :
  validate_path "docs/api/v2/" = true /\
  (forall a b, "docs/api/v2/" <> a ^^ ".." ^^ b).
Proof.
  split; [vm_compute; reflexivity |].
  destruct (proj1 (validate_path_safe "docs/api/v2/")) as (H & _);
    [vm_compute; reflexivity | exact H].
Defined.

Lemma valid_name_is_valid_path_witness :
  validate_filename "report-2024.txt" = true /\ validate_path "report-2024.txt" = true.
Proof.
  split; [vm_compute; reflexivity |].
  destruct (valid_name_is_valid_path "report-2024.txt") as (H & _);
    [vm_compute; reflexivity | exact H].
Defined.

End FileNamesFacts.
